(** * Bitwarden_Formatter: export normalisation, markup rendering,
      engine discovery and conversion, embedded from [main.py].

    Python values parsed from JSON are modelled by the inductive [pyval];
    a Python [str] is a Rocq [string] holding its UTF-8 encoding (escaping,
    replacement, concatenation and code-point ordering act on the encoding
    exactly as they act on the code points); raising code lives in the
    error monad [result]; code that touches the operating system lives in
    the state-and-error monad [M], which records every host call in a trace. *)

From Stdlib Require Import String Ascii List ZArith Bool Arith Lia.
From Stdlib Require Import Permutation Sorted.
From Stdlib Require Import Floats.SpecFloat.
From Stdlib Require Import DecimalString.
Import ListNotations.
Open Scope string_scope.

Set Implicit Arguments.

(** ** Text primitives of the Python [str] type *)

Module Text.

(** [not s] on a string: the empty string is the only falsy one. *)
Definition is_empty (s : string) : bool :=
  match s with EmptyString => true | String _ _ => false end.

(** [str.replace(old, new)] for a non-empty [old]: the text is scanned left
    to right; at a match the replacement is emitted and the scan resumes
    behind the match ([skip] counts the characters of the match still to be
    passed over). *)
Fixpoint replace_from (old new : string) (skip : nat) (s : string) : string :=
  match s with
  | EmptyString => EmptyString
  | String c s' =>
      match skip with
      | S k => replace_from old new k s'
      | O =>
          if prefix old s
          then new ++ replace_from old new (String.length old - 1) s'
          else String c (replace_from old new 0 s')
      end
  end.

(** [str.replace] with an empty pattern inserts [new] around every
    character. *)
Fixpoint interleave (new s : string) : string :=
  match s with
  | EmptyString => new
  | String c s' => new ++ String c (interleave new s')
  end.

Definition str_replace (old new s : string) : string :=
  match old with
  | EmptyString => interleave new s
  | String _ _ => replace_from old new 0 s
  end.

(** The double-quote character and a text between double quotes. *)
Definition dquote : ascii := "034"%char.
Definition dq : string := String dquote EmptyString.
Definition quoted (s : string) : string := dq ++ s ++ dq.

(** [s in t] as a proposition: [s] occurs in [t]. *)
Definition occurs (s t : string) : Prop :=
  exists pre post, t = pre ++ s ++ post.

(** The four characters that open or close markup or an attribute value. *)
Definition is_markup (c : ascii) : bool :=
  (Ascii.eqb c "<" || Ascii.eqb c ">" || Ascii.eqb c dquote || Ascii.eqb c "'")%char%bool.

(** The markup characters of a text, in order of appearance. *)
Fixpoint markup_chars (s : string) : list ascii :=
  match s with
  | EmptyString => []
  | String c s' => if is_markup c then c :: markup_chars s' else markup_chars s'
  end.

(** The five character references [html.escape] produces. *)
Definition entities : list string :=
  ["amp;"; "lt;"; "gt;"; "quot;"; "#x27;"].

(** Every ampersand of the text starts one of the [entities]. *)
Fixpoint amp_ok (s : string) : bool :=
  match s with
  | EmptyString => true
  | String c s' =>
      (if Ascii.eqb c "&" then existsb (fun e => prefix e s') entities else true)
      && amp_ok s'
  end.

(** The non-empty suffixes of a text, longest first. *)
Fixpoint suffixes (s : string) : list string :=
  match s with
  | EmptyString => []
  | String _ s' => s :: suffixes s'
  end.

(** Two texts agree as far as both go. *)
Definition compat (a b : string) : bool := prefix a b || prefix b a.

(** No occurrence of [old] can overlap an occurrence of [x]: no proper
    suffix of [old] agrees with the start of [x], and [old] agrees with no
    suffix of [x]. *)
Definition no_clash (old x : string) : bool :=
  forallb (fun m => negb (compat m x)) (tl (suffixes old))
  && forallb (fun w => negb (compat old w)) (suffixes x).

(** A text is clean when it has no markup character and each of its
    ampersands starts a character reference. *)
Definition clean (s : string) : Prop := markup_chars s = [] /\ amp_ok s = true.

(** Two texts with the same markup characters. *)
Definition same_markup (s t : string) : Prop := markup_chars s = markup_chars t.

End Text.
Import Text.

(** [html.escape(s, quote=True)] on a string, as the library writes it: five
    replacements in sequence, the ampersand first. *)
Definition escape_str (s : string) : string :=
  let s := str_replace "&" "&amp;" s in
  let s := str_replace "<" "&lt;" s in
  let s := str_replace ">" "&gt;" s in
  let s := str_replace dq "&quot;" s in
  let s := str_replace "'" "&#x27;" s in
  s.

(** The escaped form of one character. *)
Definition escape_char (c : ascii) : string := escape_str (String c "").

(** Replacement of a single character, character by character. *)
Fixpoint subst_char (c : ascii) (new s : string) : string :=
  match s with
  | EmptyString => EmptyString
  | String d s' => (if Ascii.eqb c d then new else String d EmptyString) ++ subst_char c new s'
  end.


(** ** Exceptions and the error monad *)

Inductive exn : Type :=
| AttributeError
| TypeError
| ValueError
| FileNotFoundError (msg : string)
| RuntimeError (msg : string)
| OSError (msg : string)
| CalledProcessError (returncode : Z) (stderr : list Byte.byte).

Inductive result (A : Type) : Type :=
| Ok (a : A)
| Raise (e : exn).
Arguments Ok {A} a.
Arguments Raise {A} e.

Definition bind {A B} (c : result A) (k : A -> result B) : result B :=
  match c with
  | Ok a => k a
  | Raise e => Raise e
  end.

Declare Scope result_scope.
Delimit Scope result_scope with result.
Notation "x <- c ;; k" := (bind c (fun x => k))
  (at level 61, c at next level, right associativity) : result_scope.
Notation "' pat <- c ;; k" := (bind c (fun x => match x with pat => k end))
  (at level 61, pat pattern, c at next level, right associativity) : result_scope.
Open Scope result_scope.

(** A loop that builds a list and stops at the first exception. *)
Fixpoint mapM {A B} (f : A -> result B) (l : list A) : result (list B) :=
  match l with
  | [] => Ok []
  | x :: l' => y <- f x ;; ys <- mapM f l' ;; Ok (y :: ys)
  end.


(** ** Values produced by [json.load] *)

#[local] Set Warnings "-register-all".
Inductive pyval : Type :=
| VNone
| VBool (b : bool)
| VInt (z : Z)
| VFloat (f : spec_float)
| VStr (s : string)
| VList (l : list pyval)
| VDict (d : list (string * pyval)).

Module Py.

(** Truth value of an object: [None], [False], zero, and the empty string,
    list and dict are falsy. *)
Definition truthy (v : pyval) : bool :=
  match v with
  | VNone => false
  | VBool b => b
  | VInt z => negb (z =? 0)%Z
  | VFloat f => match f with S754_zero _ => false | _ => true end
  | VStr s => negb (is_empty s)
  | VList l => match l with [] => false | _ => true end
  | VDict d => match d with [] => false | _ => true end
  end.

(** [a or b] *)
Definition or_ (a b : pyval) : pyval := if truthy a then a else b.

Fixpoint assoc (k : string) (d : list (string * pyval)) : option pyval :=
  match d with
  | [] => None
  | (k', v) :: d' => if String.eqb k k' then Some v else assoc k d'
  end.

(** [v.get(k, default)]: only a dict has the method. *)
Definition get_default (v : pyval) (k : string) (default : pyval) : result pyval :=
  match v with
  | VDict d => Ok (match assoc k d with Some x => x | None => default end)
  | _ => Raise AttributeError
  end.

(** [v.get(k)] *)
Definition get (v : pyval) (k : string) : result pyval := get_default v k VNone.

Definition isinstance_dict (v : pyval) : bool :=
  match v with VDict _ => true | _ => false end.

(** Lists and dicts cannot be dict keys. *)
Definition hashable (v : pyval) : bool :=
  match v with VList _ | VDict _ => false | _ => true end.

(** Exact comparison of an [int] with a [float]. *)
Definition int_float_eqb (z : Z) (f : spec_float) : bool :=
  match f with
  | S754_zero _ => (z =? 0)%Z
  | S754_finite s m e =>
      let v := if s then Z.neg m else Z.pos m in
      if (0 <=? e)%Z then (z =? v * 2 ^ e)%Z else (v =? z * 2 ^ (- e))%Z
  | _ => false
  end.

Definition is_nan (f : spec_float) : bool :=
  match f with S754_nan => true | _ => false end.

(** Key equality of a dict lookup on hashable JSON values: [==], where a
    [bool] is the integer 0 or 1, numbers compare by value, and the decoder's
    single [NaN] object is found by identity. *)
Definition key_eqb (a b : pyval) : bool :=
  let num v :=
    match v with
    | VBool b => Some (inl (if b then 1 else 0)%Z)
    | VInt z => Some (inl z)
    | VFloat f => Some (inr f)
    | _ => None
    end in
  match a, b with
  | VNone, VNone => true
  | VStr s, VStr t => String.eqb s t
  | _, _ =>
      match num a, num b with
      | Some (inl x), Some (inl y) => (x =? y)%Z
      | Some (inl x), Some (inr g) => int_float_eqb x g
      | Some (inr f), Some (inl y) => int_float_eqb y f
      | Some (inr f), Some (inr g) => SFeqb f g || (is_nan f && is_nan g)
      | _, _ => false
      end
  end.

(** A dict with arbitrary hashable keys, in insertion order. *)
Definition dict : Type := list (pyval * pyval).

Fixpoint dict_lookup (d : dict) (k : pyval) : option pyval :=
  match d with
  | [] => None
  | (k', v) :: d' => if key_eqb k k' then Some v else dict_lookup d' k
  end.

(** [d[k] = v]: an equal key keeps its place and takes the new value. *)
Fixpoint dict_set (d : dict) (k v : pyval) : dict :=
  match d with
  | [] => [(k, v)]
  | (k', v') :: d' => if key_eqb k k' then (k', v) :: d' else (k', v') :: dict_set d' k v
  end.

(** [d.get(k)] on such a dict: hashing the key comes first. *)
Definition dict_get (d : dict) (k : pyval) : result pyval :=
  if hashable k
  then Ok (match dict_lookup d k with Some v => v | None => VNone end)
  else Raise TypeError.

(** The code points of a string: a byte of the form 10xxxxxx continues the
    character before it. *)
Definition is_continuation (c : ascii) : bool :=
  let n := nat_of_ascii c in ((128 <=? n) && (n <? 192))%nat.

Fixpoint chars_aux (s : string) : string * list string :=
  match s with
  | EmptyString => (EmptyString, [])
  | String c s' =>
      let (k, l) := chars_aux s' in
      if is_continuation c then (String c k, l) else (EmptyString, String c k :: l)
  end.

Definition chars (s : string) : list string :=
  let (k, l) := chars_aux s in if is_empty k then l else k :: l.

(** [for x in v]: a list yields its elements, a string its characters, a
    dict its keys; nothing else parsed from JSON is iterable. *)
Definition iter (v : pyval) : result (list pyval) :=
  match v with
  | VList l => Ok l
  | VStr s => Ok (map VStr (chars s))
  | VDict d => Ok (map (fun kv => VStr (fst kv)) d)
  | _ => Raise TypeError
  end.

End Py.

(** ** The Python runtime

    Library functions whose result depends on the interpreter version, the
    Unicode tables or the locale are taken from a [Runtime]. *)

Record datetime : Type := {
  year : Z; month : Z; day : Z;
  hour : Z; minute : Z; second : Z; microsecond : Z;
  utcoffset : option Z
}.

Class Runtime : Type := {
  (** [str.lower] *)
  lower : string -> string;
  (** [datetime.fromisoformat]; [None] stands for its [ValueError] *)
  fromisoformat : string -> option datetime;
  (** [datetime.strftime] *)
  strftime : datetime -> string -> string;
  (** [repr(v)] *)
  repr : pyval -> string;
  (** [bytes.decode('utf-8', errors='ignore')] *)
  decode_ignore : list Byte.byte -> string
}.

(** [f"{v}"]: a string is inserted as it is, any other value parsed from
    JSON through its [repr]. *)
Definition format_value `{Runtime} (v : pyval) : string :=
  match v with
  | VStr s => s
  | _ => repr v
  end.

(** [s.lower()]: only a string has the method. *)
Definition py_lower `{Runtime} (v : pyval) : result string :=
  match v with
  | VStr s => Ok (lower s)
  | _ => Raise AttributeError
  end.

(** [html.escape(v)]: the first thing it does is [v.replace]. *)
Definition escape (v : pyval) : result string :=
  match v with
  | VStr s => Ok (escape_str s)
  | _ => Raise AttributeError
  end.

(** ** Export Normalizer *)

Definition TYPE_NAMES : list (Z * string) :=
  [(1, "Login"); (2, "Secure Note"); (3, "Card"); (4, "Identity")]%Z.

(** [TYPE_NAMES.get(k, default)] *)
Definition type_names_get (k : pyval) (default : string) : result string :=
  if Py.hashable k
  then Ok (match find (fun e => Py.key_eqb k (VInt (fst e))) TYPE_NAMES with
           | Some e => snd e
           | None => default
           end)
  else Raise TypeError.

Definition normalize_datetime `{Runtime} (value : pyval) : result string :=
  if negb (Py.truthy value) then Ok ""
  else
    match value with
    | VStr s =>
        let clean := str_replace "Z" "+00:00" s in
        match fromisoformat clean with
        | None => Ok s
        | Some dt => Ok (strftime dt "%m/%d/%Y %I:%M %p")
        end
    | _ => Raise AttributeError
    end.

(** One record of the account list (a dict with these twelve keys). *)
Record account : Type := {
  name : pyval;
  type : string;
  folder : pyval;
  favorite : bool;
  username : pyval;
  password : pyval;
  totp : pyval;
  uris : list pyval;
  notes : pyval;
  last_modified : string;
  created : string;
  fields : list string
}.

(** The dict comprehension of line 84, one folder after the other. *)
Fixpoint build_folders (l : list pyval) (acc : Py.dict) : result Py.dict :=
  match l with
  | [] => Ok acc
  | f :: l' =>
      k <- Py.get f "id" ;;
      v <- Py.get_default f "name" (VStr "") ;;
      if Py.hashable k then build_folders l' (Py.dict_set acc k v)
      else Raise TypeError
  end.

(** The list comprehension of lines 89-91. *)
Fixpoint collect_uris (l : list pyval) : result (list pyval) :=
  match l with
  | [] => Ok []
  | uri :: l' =>
      keep <- (if Py.isinstance_dict uri
               then u <- Py.get uri "uri" ;; Ok (Py.truthy u)
               else Ok false) ;;
      if (keep : bool)
      then u <- Py.get_default uri "uri" (VStr "") ;;
           rest <- collect_uris l' ;;
           Ok (u :: rest)
      else collect_uris l'
  end.

(** The loop of lines 93-98. *)
Fixpoint collect_fields `{Runtime} (l : list pyval) : result (list string) :=
  match l with
  | [] => Ok []
  | field :: l' =>
      n <- Py.get field "name" ;;
      let name := Py.or_ n (VStr "Field") in
      value <- Py.get field "value" ;;
      if negb (Py.truthy value) then collect_fields l'
      else
        rest <- collect_fields l' ;;
        Ok ((format_value name ++ ": " ++ format_value value) :: rest)
  end.

(** The body of the loop over the items, lines 88-115. *)
Definition account_of_item `{Runtime} (folders : Py.dict) (item : pyval)
  : result account :=
  l <- Py.get item "login" ;;
  let login := Py.or_ l (VDict []) in
  us <- Py.get_default login "uris" (VList []) ;;
  us <- Py.iter us ;;
  uris <- collect_uris us ;;
  fs <- Py.get item "fields" ;;
  fs <- Py.iter (Py.or_ fs (VList [])) ;;
  custom_fields <- collect_fields fs ;;
  nm <- Py.get item "name" ;;
  ty <- Py.get item "type" ;;
  ty <- type_names_get ty "Unknown" ;;
  fid <- Py.get item "folderId" ;;
  fo <- Py.dict_get folders fid ;;
  fav <- Py.get item "favorite" ;;
  un <- Py.get login "username" ;;
  pw <- Py.get login "password" ;;
  tp <- Py.get login "totp" ;;
  nt <- Py.get item "notes" ;;
  rd <- Py.get item "revisionDate" ;;
  lrd <- (if Py.truthy rd then Ok rd else Py.get item "lastRevisionDate") ;;
  lm <- normalize_datetime lrd ;;
  cd <- Py.get item "creationDate" ;;
  cr <- normalize_datetime cd ;;
  Ok {| name := Py.or_ nm (VStr "(untitled)");
        type := ty;
        folder := Py.or_ fo (VStr "No folder");
        favorite := Py.truthy fav;
        username := Py.or_ un (VStr "");
        password := Py.or_ pw (VStr "");
        totp := Py.or_ tp (VStr "");
        uris := uris;
        notes := Py.or_ nt (VStr "");
        last_modified := lm;
        created := cr;
        fields := custom_fields |}.

(** [<] on the tuples used as sort keys: the first components that differ
    decide. *)
Definition key_ltb (a b : string * string) : bool :=
  if String.eqb (fst a) (fst b) then String.ltb (snd a) (snd b)
  else String.ltb (fst a) (fst b).

(** [list.sort(key=...)] is a stable sort that only asks [<] of the keys;
    it is modelled by the stable insertion sort on the decorated list. *)
Section Sort.
Context {K A : Type} (ltb : K -> K -> bool).

Fixpoint insert (x : K * A) (l : list (K * A)) : list (K * A) :=
  match l with
  | [] => [x]
  | y :: l' => if ltb (fst y) (fst x) then y :: insert x l' else x :: l
  end.

Fixpoint sort (l : list (K * A)) : list (K * A) :=
  match l with
  | [] => []
  | x :: l' => insert x (sort l')
  end.

(** [x] may stand before [y]: the key of [y] is not below the key of [x]. *)
Definition precedes (x y : K * A) : Prop := ltb (fst y) (fst x) = false.
End Sort.

(** The key function of line 117. *)
Definition sort_key `{Runtime} (entry : account) : result (string * string) :=
  f <- py_lower (folder entry) ;;
  n <- py_lower (name entry) ;;
  Ok (f, n).

(** The account list before it is sorted: lines 84-115. *)
Definition build_accounts `{Runtime} (payload : pyval) : result (list account) :=
  fs <- Py.get_default payload "folders" (VList []) ;;
  fs <- Py.iter fs ;;
  folders <- build_folders fs [] ;;
  items <- Py.get_default payload "items" (VList []) ;;
  items <- Py.iter items ;;
  mapM (account_of_item folders) items.

(** Line 117: the keys are computed for every record, then the list is
    sorted on them. *)
Definition sort_accounts `{Runtime} (accounts : list account)
  : result (list account) :=
  keyed <- mapM (fun e => k <- sort_key e ;; Ok (k, e)) accounts ;;
  Ok (map snd (sort key_ltb keyed)).

Definition collect_accounts `{Runtime} (payload : pyval) : result (list account) :=
  accounts <- build_accounts payload ;;
  sort_accounts accounts.

(** ** Markup Renderer: the table rows

    Every f-string of the renderer is a function of the texts that fill its
    holes; the rendering functions compute those texts and fill them in. *)

(** The line feed that joins the rendered pieces. *)
Definition nl : string := String "010"%char EmptyString.

(** [l.append(x)] *)
Definition list_append {A} (l : list A) (x : A) : list A := (l ++ [x])%list.

(** Lines 162 and 165. *)
Definition tag_html (body : string) : string :=
  "<span class=" ++ quoted "tag" ++ ">" ++ body ++ "</span>".

(** Line 167. *)
Definition FAVORITE_TAG : string :=
  "<span class=" ++ quoted "tag tag--favorite" ++ ">Favorite</span>".

(** Lines 168-170. *)
Definition meta_html (tags : list string) : string :=
  match tags with
  | [] => "<div class=" ++ quoted "entry-meta" ++ ">None</div>"
  | _ => "<div class=" ++ quoted "entry-meta" ++ ">" ++ String.concat "" tags ++ "</div>"
  end.

Definition render_meta `{Runtime} (entry : account) : result string :=
  let folder := folder entry in
  shown <- (if Py.truthy folder
            then l <- py_lower folder ;; Ok (negb (String.eqb l "no folder"))
            else Ok false) ;;
  tags <- (if (shown : bool)
           then e <- escape folder ;; Ok [tag_html e]
           else Ok []) ;;
  let type_name := type entry in
  tags <- (if negb (is_empty type_name)
           then e <- escape (VStr type_name) ;; Ok (list_append tags (tag_html e))
           else Ok tags) ;;
  let tags := if favorite entry then list_append tags FAVORITE_TAG else tags in
  Ok (meta_html tags).

(** Lines 177 and 179. *)
Definition url_html (primary : string) : string := "<span>URL: " ++ primary ++ "</span>".
Definition totp_html (secret : string) : string := "<span>2FA: " ++ secret ++ "</span>".

Definition render_credentials_extra (entry : account) : result string :=
  bits <- match uris entry with
          | [] => Ok []
          | u :: _ => primary <- escape u ;; Ok [url_html primary]
          end ;;
  bits <- (if Py.truthy (totp entry)
           then t <- escape (totp entry) ;; Ok (list_append bits (totp_html t))
           else Ok bits) ;;
  Ok (String.concat nl bits).

(** Lines 187-202. *)
Definition credentials_html (username password extras : string) : string :=
  let extra_html :=
    if is_empty extras then ""
    else "<div class=" ++ quoted "credentials-extra" ++ ">" ++ extras ++ "</div>" in
  String.concat nl
    [ "<div class=" ++ quoted "credentials" ++ ">";
      "  <div class=" ++ quoted "credential-block credential-block--user" ++ ">";
      "    <span class=" ++ quoted "credential-label" ++ ">Username / Email</span>";
      "    <span class=" ++ quoted "credential-value" ++ ">" ++ username ++ "</span>";
      "  </div>";
      "  <div class=" ++ quoted "credential-block credential-block--password" ++ ">";
      "    <span class=" ++ quoted "credential-label" ++ ">Password</span>";
      "    <span class=" ++ quoted "credential-value" ++ ">" ++ password ++ "</span>";
      "  </div>";
      "  " ++ extra_html;
      "</div>" ].

Definition render_credentials_section (entry : account) : result string :=
  username <- escape (Py.or_ (username entry) (VStr "-")) ;;
  password <- escape (Py.or_ (password entry) (VStr "-")) ;;
  extras <- render_credentials_extra entry ;;
  Ok (credentials_html username password extras).

(** Lines 146-153. *)
Definition row_html (name meta credential_block : string) : string :=
  String.concat nl
    [ "<tr>";
      "  <td><div class=" ++ quoted "entry-name" ++ ">" ++ name ++ "</div>" ++ meta ++ "</td>";
      "  <td>" ++ credential_block ++ "</td>";
      "</tr>" ].

(** The body of the loop of [build_rows]. *)
Definition build_row `{Runtime} (entry : account) : result string :=
  name <- escape (Py.or_ (name entry) (VStr "(untitled)")) ;;
  meta <- render_meta entry ;;
  credential_block <- render_credentials_section entry ;;
  Ok (row_html name meta credential_block).

Definition build_rows `{Runtime} (accounts : list account) : result string :=
  parts <- mapM build_row accounts ;;
  Ok (String.concat nl parts).

(** The row shown in place of an empty table body. *)
Definition EMPTY_ROW : string :=
  "<tr><td colspan=" ++ quoted "2" ++ " class=" ++ quoted "empty"
  ++ ">No entries found</td></tr>".

(** [str(n)] of a length. *)
Definition str_of_nat (n : nat) : string :=
  NilEmpty.string_of_uint (Nat.to_uint n).

(** The placeholder [{{key}}]. *)
Definition placeholder (key : string) : string := "{{" ++ key ++ "}}".

(** The loop of lines 134-135 over the replacement dict, in its insertion
    order. *)
Definition substitute (replacements : list (string * string)) (html : string)
  : string :=
  fold_left (fun html kv => str_replace (placeholder (fst kv)) (snd kv) html)
            replacements html.

(** What of a record decides which pieces of markup its row is made of:
    whether the folder tag is shown, whether there is a type tag, the
    favorite flag, whether there is a first URI and a TOTP secret. *)
Record shape : Type := {
  with_folder : bool;
  with_type : bool;
  with_favorite : bool;
  with_uri : bool;
  with_totp : bool
}.

Definition folder_shown `{Runtime} (entry : account) : bool :=
  match folder entry with
  | VStr s => negb (is_empty s) && negb (String.eqb (lower s) "no folder")
  | _ => false
  end.

Definition shape_of `{Runtime} (entry : account) : shape :=
  {| with_folder := folder_shown entry;
     with_type := negb (is_empty (type entry));
     with_favorite := favorite entry;
     with_uri := match uris entry with [] => false | _ => true end;
     with_totp := Py.truthy (totp entry) |}.

(** The row of a shape with nothing filled in. *)
Definition row_skeleton (sh : shape) : string :=
  let tags :=
    ((if with_folder sh then [tag_html ""] else [])
     ++ (if with_type sh then [tag_html ""] else [])
     ++ (if with_favorite sh then [FAVORITE_TAG] else []))%list in
  let bits :=
    ((if with_uri sh then [url_html ""] else [])
     ++ (if with_totp sh then [totp_html ""] else []))%list in
  row_html "" (meta_html tags) (credentials_html "" "" (String.concat nl bits)).

(** ** The host: file system, environment, clock and processes

    What the program asks of the operating system is a field of [Host].
    Queries read the [world]; actions also change it.  [expanduser] has no
    answer when the home directory of the named user cannot be determined
    (pathlib raises [RuntimeError] there); [set_order] is the order in which
    this run of the interpreter iterates over a set of strings. *)

Record completed_process : Type := {
  returncode : Z;
  stdout : list Byte.byte;
  stderr : list Byte.byte
}.

Class Host : Type := {
  world : Type;
  path : Type;
  (** the module constant [HERE] *)
  HERE : path;
  (** [Path(s)], [str(p)] and the pure path operations *)
  Path : string -> path;
  path_str : path -> string;
  joinpath : path -> list string -> path;
  parent : path -> path;
  (** [p.name], the last component; empty for [.], a root or a drive *)
  path_name : path -> string;
  (** [p.with_suffix(s)] of a path that has a name *)
  with_suffix : path -> string -> path;
  as_uri : path -> string;
  set_order : list (option string) -> list (option string);
  (** queries *)
  path_exists : world -> path -> bool;
  environ_get : world -> string -> option string;
  expanduser : world -> path -> option path;
  which : world -> string -> option string;
  platform_system : world -> string;
  datetime_now : world -> datetime;
  path_resolve : world -> path -> path;
  read_text : world -> path -> result string;
  (** actions *)
  mkdir : world -> path -> result unit * world;
  write_text : world -> path -> string -> result unit * world;
  subprocess_run : world -> list string -> result completed_process * world
}.

Section Effects.
Context `{Host}.

(** One entry of the trace per host call, in the order of the calls. *)
Inductive event : Type :=
| EvExists (p : path) (answer : bool)
| EvEnviron (key : string)
| EvExpandUser (p : path)
| EvWhich (name : string)
| EvSystem
| EvNow
| EvResolve (p : path)
| EvRead (p : path)
| EvMkdir (p : path)
| EvWrite (p : path) (content : string)
| EvRun (cmd : list string).

(** The host calls of the engine locator and of the conversion invoker. *)
Definition engine_event (e : event) : bool :=
  match e with
  | EvEnviron _ | EvExpandUser _ | EvWhich _ | EvSystem | EvRun _ => true
  | _ => false
  end.

(** A process is started. *)
Definition is_run (e : event) : bool :=
  match e with EvRun _ => true | _ => false end.

Definition state : Type := (world * list event)%type.

(** Computations that call the host and may raise. *)
Definition M (A : Type) : Type := state -> result A * state.

Definition ret {A} (a : A) : M A := fun st => (Ok a, st).
Definition raise {A} (e : exn) : M A := fun st => (Raise e, st).
Definition lift {A} (r : result A) : M A := fun st => (r, st).

Definition mbind {A B} (c : M A) (k : A -> M B) : M B :=
  fun st =>
    match c st with
    | (Ok a, st') => k a st'
    | (Raise e, st') => (Raise e, st')
    end.

Definition log (e : event) (st : state) : state :=
  (fst st, (snd st ++ [e])%list).

(** A query: the answer is read off the world and the call is logged. *)
Definition query {A} (f : world -> A) (e : A -> event) : M A :=
  fun st => let a := f (fst st) in (Ok a, log (e a) st).

(** An action: the world changes and the call is logged. *)
Definition action {A} (f : world -> result A * world) (e : event) : M A :=
  fun st => let (r, w) := f (fst st) in (r, (w, (snd st ++ [e])%list)).

Definition sys_exists (p : path) : M bool :=
  query (fun w => path_exists w p) (EvExists p).
Definition sys_environ_get (key : string) : M (option string) :=
  query (fun w => environ_get w key) (fun _ => EvEnviron key).
Definition sys_which (name : string) : M (option string) :=
  query (fun w => which w name) (fun _ => EvWhich name).
Definition sys_system : M string :=
  query platform_system (fun _ => EvSystem).
Definition sys_now : M datetime :=
  query datetime_now (fun _ => EvNow).
Definition sys_resolve (p : path) : M path :=
  query (fun w => path_resolve w p) (fun _ => EvResolve p).
Definition sys_read_text (p : path) : M string :=
  fun st => (read_text (fst st) p, log (EvRead p) st).
Definition sys_expanduser (p : path) : M path :=
  fun st =>
    (match expanduser (fst st) p with
     | Some q => Ok q
     | None => Raise (RuntimeError "Could not determine home directory.")
     end, log (EvExpandUser p) st).
Definition sys_mkdir (p : path) : M unit :=
  action (fun w => mkdir w p) (EvMkdir p).
Definition sys_write_text (p : path) (content : string) : M unit :=
  action (fun w => write_text w p content) (EvWrite p content).
Definition sys_run (cmd : list string) : M completed_process :=
  action (fun w => subprocess_run w cmd) (EvRun cmd).

End Effects.

Declare Scope host_scope.
Delimit Scope host_scope with host.
Notation "x <~ c ;; k" := (mbind c (fun x => k))
  (at level 61, c at next level, right associativity) : host_scope.
Open Scope host_scope.

(** A loop that threads an accumulator through host calls. *)
Fixpoint foldM `{Host} {A B} (f : A -> B -> M A) (l : list B) (a : A) : M A :=
  match l with
  | [] => ret a
  | x :: l' => a' <~ f a x ;; foldM f l' a'
  end.

(** A list comprehension whose elements come from host calls. *)
Fixpoint mapM_host `{Host} {A B} (f : A -> M B) (l : list A) : M (list B) :=
  match l with
  | [] => ret []
  | x :: l' => y <~ f x ;; ys <~ mapM_host f l' ;; ret (y :: ys)
  end.

(** ** Markup Renderer: the document *)

Section Pipeline.
Context `{Runtime} `{Host}.

Definition TEMPLATE_PATH : path := joinpath (joinpath HERE ["templates"]) ["layout.html"].
Definition STYLE_PATH : path := joinpath (joinpath HERE ["styles"]) ["style.css"].
Definition BROWSER_ENV_VAR : string := "BITWARDEN_FORMATTER_BROWSER".

(** The timestamp format shared by the normalizer and the renderer. *)
Definition STAMP : string := "%m/%d/%Y %I:%M %p".

(** The dict literal of lines 127-133. *)
Definition replacements (accounts : list account) (title generated rows_html : string)
  : list (string * string) :=
  [ ("title", escape_str title);
    ("generated", generated);
    ("count", str_of_nat (List.length accounts));
    ("rows", if is_empty rows_html then EMPTY_ROW else rows_html);
    ("style_href", as_uri STYLE_PATH) ].

Definition render_html (accounts : list account) (title : string) : M string :=
  ex <~ sys_exists TEMPLATE_PATH ;;
  if negb ex
  then raise (FileNotFoundError ("Missing HTML template: " ++ path_str TEMPLATE_PATH))
  else
    now <~ sys_now ;;
    let generated := strftime now STAMP in
    rows_html <~ lift (build_rows accounts) ;;
    html <~ sys_read_text TEMPLATE_PATH ;;
    ret (substitute (replacements accounts title generated rows_html) html).

(** ** Engine Locator *)

(** The closure [add_candidate]: its argument is [None], a string or a
    path; the list it appends to is threaded through. *)
Definition add_candidate (candidates : list path)
           (path_like : option (string + path)) : M (list path) :=
  match path_like with
  | None => ret candidates
  | Some (inl s) =>
      if is_empty s then ret candidates
      else
        let candidate := Path s in
        ex <~ sys_exists candidate ;;
        ret (if ex then list_append candidates candidate else candidates)
  | Some (inr candidate) =>
      ex <~ sys_exists candidate ;;
      ret (if ex then list_append candidates candidate else candidates)
  end.

Definition known_suffixes : list (list string) :=
  [ ["Microsoft"; "Edge"; "Application"; "msedge.exe"];
    ["Microsoft"; "Edge SxS"; "Application"; "msedge.exe"];
    ["Google"; "Chrome"; "Application"; "chrome.exe"];
    ["Chromium"; "Application"; "chrome.exe"] ].

Definition mac_candidates : list string :=
  [ "/Applications/Google Chrome.app/Contents/MacOS/Google Chrome";
    "/Applications/Google Chrome Canary.app/Contents/MacOS/Google Chrome Canary";
    "/Applications/Microsoft Edge.app/Contents/MacOS/Microsoft Edge";
    "/Applications/Chromium.app/Contents/MacOS/Chromium";
    "/Applications/Brave Browser.app/Contents/MacOS/Brave Browser" ].

Definition linux_candidates : list string :=
  [ "/usr/bin/google-chrome-stable";
    "/usr/bin/google-chrome";
    "/usr/bin/chromium-browser";
    "/usr/bin/chromium";
    "/usr/bin/microsoft-edge";
    "/snap/bin/chromium";
    "/usr/bin/brave-browser" ].

Definition which_names : list string :=
  [ "msedge"; "microsoft-edge"; "chrome"; "google-chrome-stable";
    "google-chrome"; "chromium-browser"; "chromium"; "brave-browser" ].

(** [x] of [... for x in xs if x] over optional strings. *)
Definition truthy_strings (l : list (option string)) : list string :=
  flat_map (fun o => match o with
                     | Some s => if is_empty s then [] else [s]
                     | None => []
                     end) l.

Definition option_string_dec (a b : option string) : {a = b} + {a <> b}.
Proof. decide equality. apply string_dec. Defined.

(** The elements of the set literal of lines 238-242, in the order in
    which this run iterates over the set. *)
Definition set_literal (l : list (option string)) : list (option string) :=
  set_order (nodup option_string_dec l).

(** Lines 235-275: the well-known install locations of the platform that
    exist. *)
Definition known_candidates (system : string) : M (list path) :=
  if String.eqb system "windows" then
    pf <~ sys_environ_get "PROGRAMFILES" ;;
    pf86 <~ sys_environ_get "PROGRAMFILES(X86)" ;;
    lad <~ sys_environ_get "LOCALAPPDATA" ;;
    let program_files := map Path (truthy_strings (set_literal [pf; pf86; lad])) in
    foldM (fun candidates base =>
             foldM (fun candidates suffix =>
                      add_candidate candidates (Some (inr (joinpath base suffix))))
                   known_suffixes candidates)
          program_files []
  else if String.eqb system "darwin" then
    foldM (fun candidates p => add_candidate candidates (Some (inl p)))
          mac_candidates []
  else
    foldM (fun candidates p => add_candidate candidates (Some (inl p)))
          linux_candidates [].

(** Lines 290-296. *)
Fixpoint first_existing (candidates : list path) : M path :=
  match candidates with
  | [] =>
      raise (FileNotFoundError
               ("No supported headless browser found. Install Edge/Chrome/Chromium or set "
                ++ BROWSER_ENV_VAR ++ " to a custom binary."))
  | candidate :: rest =>
      ex <~ sys_exists candidate ;;
      if ex then ret candidate else first_existing rest
  end.

Definition find_browser_binary : M path :=
  env_browser <~ sys_environ_get BROWSER_ENV_VAR ;;
  override <~ match env_browser with
              | None => ret None
              | Some s =>
                  if is_empty s then ret None
                  else
                    expanded <~ sys_expanduser (Path s) ;;
                    ex <~ sys_exists expanded ;;
                    ret (if ex then Some expanded else None)
              end ;;
  match override with
  | Some expanded => ret expanded
  | None =>
      system <~ sys_system ;;
      candidates <~ known_candidates (lower system) ;;
      which_candidates <~ mapM_host sys_which which_names ;;
      let candidates :=
        (candidates ++ map Path (truthy_strings which_candidates))%list in
      first_existing candidates
  end.

(** ** Conversion Invoker *)

Definition commands (browser html_path output : path) : list (list string) :=
  [ [ path_str browser; "--headless=new"; "--disable-gpu";
      "--print-to-pdf=" ++ path_str output; "--print-to-pdf-no-header";
      as_uri html_path ];
    [ path_str browser; "--headless"; "--disable-gpu";
      "--print-to-pdf=" ++ path_str output; "--print-to-pdf-no-header";
      as_uri html_path ] ].

(** [subprocess.run(cmd, check=True, capture_output=True)] *)
Definition run_checked (cmd : list string) : M completed_process :=
  r <~ sys_run cmd ;;
  if (returncode r =? 0)%Z then ret r
  else raise (CalledProcessError (returncode r) (stderr r)).

(** The loop of lines 319-327; [last_error] holds the captured standard
    error of the last failed command. *)
Fixpoint try_commands (cmds : list (list string))
         (last_error : option (list Byte.byte)) : M unit :=
  match cmds with
  | [] =>
      raise (RuntimeError
               ("Headless browser failed to create the PDF. Output: "
                ++ match last_error with
                   | Some err => decode_ignore err
                   | None => "unknown"
                   end))
  | cmd :: rest =>
      fun st =>
        match run_checked cmd st with
        | (Ok _, st') => (Ok tt, st')
        | (Raise (CalledProcessError _ err), st') => try_commands rest (Some err) st'
        | (Raise e, st') => (Raise e, st')
        end
  end.

Definition run_headless_browser (browser html_path output : path) : M unit :=
  try_commands (commands browser html_path output) None.

(** [p.with_suffix(s)] for a suffix that is well formed: pathlib raises
    [ValueError] when the path has an empty name. *)
Definition py_with_suffix (p : path) (suffix : string) : result path :=
  if is_empty (path_name p) then Raise ValueError else Ok (with_suffix p suffix).

Definition build_pdf (accounts : list account) (title : string) (output : path)
  : M unit :=
  ex <~ sys_exists STYLE_PATH ;;
  if negb ex
  then raise (FileNotFoundError ("Missing CSS file: " ++ path_str STYLE_PATH))
  else
    _ <~ sys_mkdir (parent output) ;;
    pdf_target <~ sys_resolve output ;;
    html_content <~ render_html accounts title ;;
    html_path <~ lift (py_with_suffix pdf_target ".html") ;;
    _ <~ sys_write_text html_path html_content ;;
    browser <~ find_browser_binary ;;
    run_headless_browser browser html_path pdf_target.

End Pipeline.

(** ** A reference runtime

    CPython's library functions on the inputs where every supported version
    and platform agree: [lower] on ASCII letters, [fromisoformat] on the
    grammar [YYYY-MM-DD[*HH[:MM[:SS[.fff[fff]]]][+HH:MM]]] that
    [datetime.isoformat] writes, [strftime] with the directives of [STAMP] in
    the C locale, [repr] of [None], booleans and integers (other values are
    abbreviated), and the UTF-8 decoder that drops what is not well-formed.
    The examples and the concrete scenarios are evaluated with it; the
    general statements hold for every runtime. *)

Module Reference.

Definition lower_ascii (c : ascii) : ascii :=
  let n := nat_of_ascii c in
  if ((65 <=? n) && (n <=? 90))%nat then ascii_of_nat (n + 32) else c.

Fixpoint lower_text (s : string) : string :=
  match s with
  | EmptyString => EmptyString
  | String c s' => String (lower_ascii c) (lower_text s')
  end.

Definition digit (c : ascii) : option Z :=
  let n := Z.of_nat (nat_of_ascii c) in
  if ((48 <=? n) && (n <=? 57))%Z then Some (n - 48)%Z else None.

Fixpoint number (s : string) (acc : Z) : option Z :=
  match s with
  | EmptyString => Some acc
  | String c s' =>
      match digit c with
      | Some d => number s' (10 * acc + d)%Z
      | None => None
      end
  end.

(** [int(s)] of a field of fixed width [n]. *)
Definition field (n : nat) (s : string) : option Z :=
  if (String.length s =? n)%nat && negb (is_empty s) then number s 0 else None.

Definition is_leap (y : Z) : bool :=
  ((y mod 4 =? 0) && (negb (y mod 100 =? 0) || (y mod 400 =? 0)))%Z.

Definition days_in_month (y m : Z) : Z :=
  (if m =? 2 then (if is_leap y then 29 else 28)
   else if (m =? 4) || (m =? 6) || (m =? 9) || (m =? 11) then 30
   else 31)%Z.

Definition char_is (c : ascii) (o : option ascii) : bool :=
  match o with Some d => Ascii.eqb c d | None => false end.

Definition parse_date (d : string) : option (Z * Z * Z) :=
  match field 4 (substring 0 4 d), field 2 (substring 5 2 d), field 2 (substring 8 2 d) with
  | Some y, Some m, Some dd =>
      if char_is "-" (get 4 d) && char_is "-" (get 7 d)
         && ((1 <=? y) && (y <=? 9999) && (1 <=? m) && (m <=? 12)
             && (1 <=? dd) && (dd <=? days_in_month y m))%Z
      then Some (y, m, dd) else None
  | _, _, _ => None
  end.

(** [HH[:MM[:SS[.fff[fff]]]]] *)
Definition parse_hh_mm_ss_ff (t : string) : option (Z * Z * Z * Z) :=
  let n := String.length t in
  let hh := field 2 (substring 0 2 t) in
  let mm := field 2 (substring 3 2 t) in
  let ss := field 2 (substring 6 2 t) in
  let colon1 := char_is ":" (get 2 t) in
  let colon2 := char_is ":" (get 5 t) in
  let dot := char_is "." (get 8 t) in
  match n with
  | 2 => match hh with Some h => Some (h, 0, 0, 0)%Z | None => None end
  | 5 => match hh, mm with
         | Some h, Some m => if colon1 then Some (h, m, 0, 0)%Z else None
         | _, _ => None
         end
  | 8 => match hh, mm, ss with
         | Some h, Some m, Some s => if colon1 && colon2 then Some (h, m, s, 0)%Z else None
         | _, _, _ => None
         end
  | 12 => match hh, mm, ss, field 3 (substring 9 3 t) with
          | Some h, Some m, Some s, Some f =>
              if colon1 && colon2 && dot then Some (h, m, s, f * 1000)%Z else None
          | _, _, _, _ => None
          end
  | 15 => match hh, mm, ss, field 6 (substring 9 6 t) with
          | Some h, Some m, Some s, Some f =>
              if colon1 && colon2 && dot then Some (h, m, s, f)%Z else None
          | _, _, _, _ => None
          end
  | _ => None
  end.

(** Position of the first ["-"], else of the first ["+"]. *)
Definition tz_sign_pos (t : string) : option nat :=
  match index 0 "-" t with
  | Some i => Some i
  | None => index 0 "+" t
  end.

Definition parse_time (t : string) : option (Z * Z * Z * Z * option Z) :=
  let valid c :=
    match c with
    | (h, m, s, f) => ((h <? 24) && (m <? 60) && (s <? 60))%Z
    end in
  match tz_sign_pos t with
  | None =>
      match parse_hh_mm_ss_ff t with
      | Some c => if valid c then Some (c, None) else None
      | None => None
      end
  | Some i =>
      let timestr := substring 0 i t in
      let tzstr := substring (S i) (String.length t - S i) t in
      match parse_hh_mm_ss_ff timestr, parse_hh_mm_ss_ff tzstr with
      | Some c, Some (h, m, _, _) =>
          if valid c && valid (h, m, 0, 0)%Z && (String.length tzstr =? 5)%nat
          then
            let off := (h * 3600 + m * 60)%Z in
            Some (c, Some (if char_is "-" (get i t) then (- off)%Z else off))
          else None
      | _, _ => None
      end
  end.

Definition parse_iso (s : string) : option datetime :=
  if (String.length s <? 10)%nat then None
  else
    match parse_date (substring 0 10 s) with
    | None => None
    | Some (y, m, d) =>
        let tstr := substring 11 (String.length s - 11) s in
        if is_empty tstr
        then Some {| year := y; month := m; day := d; hour := 0; minute := 0;
                     second := 0; microsecond := 0; utcoffset := None |}
        else
          match parse_time tstr with
          | Some (h, mi, sec, us, off) =>
              Some {| year := y; month := m; day := d; hour := h; minute := mi;
                      second := sec; microsecond := us; utcoffset := off |}
          | None => None
          end
    end.

Definition decimal (z : Z) : string :=
  NilEmpty.string_of_uint (N.to_uint (Z.to_N z)).

Definition two_digits (z : Z) : string :=
  if (z <? 10)%Z then "0" ++ decimal z else decimal z.

(** The directives [%m %d %Y %I %M %p]; any other character stands for
    itself. *)
Fixpoint format_time (dt : datetime) (fmt : string) : string :=
  match fmt with
  | EmptyString => EmptyString
  | String c rest =>
      match rest with
      | String d rest' =>
          if Ascii.eqb c "%" then
            (if Ascii.eqb d "m" then two_digits (month dt)
             else if Ascii.eqb d "d" then two_digits (day dt)
             else if Ascii.eqb d "Y" then decimal (year dt)
             else if Ascii.eqb d "I" then
               two_digits (if (hour dt mod 12 =? 0)%Z then 12 else hour dt mod 12)%Z
             else if Ascii.eqb d "M" then two_digits (minute dt)
             else if Ascii.eqb d "p" then (if (hour dt <? 12)%Z then "AM" else "PM")
             else String c (String d EmptyString))
            ++ format_time dt rest'
          else String c (format_time dt rest)
      | EmptyString => String c EmptyString
      end
  end.

Definition repr_value (v : pyval) : string :=
  match v with
  | VNone => "None"
  | VBool true => "True"
  | VBool false => "False"
  | VInt z => if (z <? 0)%Z then "-" ++ decimal (- z) else decimal z
  | VStr s => "'" ++ s ++ "'"
  | _ => "..."
  end.

(** UTF-8 decoding with [errors='ignore']: a well-formed sequence is kept,
    any other byte is dropped.  [keep] counts the bytes of the current
    sequence still to be copied. *)
Definition in_range (lo hi : N) (b : option Byte.byte) : bool :=
  match b with
  | Some x => let n := Byte.to_N x in ((lo <=? n) && (n <=? hi))%N
  | None => false
  end.

Definition sequence_length (b : Byte.byte) (rest : list Byte.byte) : nat :=
  let n := Byte.to_N b in
  let b1 := nth_error rest 0 in
  let b2 := nth_error rest 1 in
  let b3 := nth_error rest 2 in
  let cont := in_range 128 191 in
  if (n <? 128)%N then 1%nat
  else if ((194 <=? n) && (n <=? 223))%N then (if cont b1 then 2 else 0)%nat
  else if (n =? 224)%N then (if in_range 160 191 b1 && cont b2 then 3 else 0)%nat
  else if (n =? 237)%N then (if in_range 128 159 b1 && cont b2 then 3 else 0)%nat
  else if ((225 <=? n) && (n <=? 239))%N then (if cont b1 && cont b2 then 3 else 0)%nat
  else if (n =? 240)%N then (if in_range 144 191 b1 && cont b2 && cont b3 then 4 else 0)%nat
  else if (n =? 244)%N then (if in_range 128 143 b1 && cont b2 && cont b3 then 4 else 0)%nat
  else if ((241 <=? n) && (n <=? 243))%N then (if cont b1 && cont b2 && cont b3 then 4 else 0)%nat
  else 0%nat.

Fixpoint decode_from (keep : nat) (bs : list Byte.byte) : string :=
  match bs with
  | [] => EmptyString
  | b :: rest =>
      match keep with
      | S k => String (ascii_of_byte b) (decode_from k rest)
      | O =>
          match sequence_length b rest with
          | O => decode_from 0 rest
          | S k => String (ascii_of_byte b) (decode_from k rest)
          end
      end
  end.

Definition decode (bs : list Byte.byte) : string := decode_from 0 bs.

#[export] Instance runtime : Runtime := {|
  lower := lower_text;
  fromisoformat := parse_iso;
  strftime := format_time;
  repr := repr_value;
  decode_ignore := decode
|}.

End Reference.

(** ** A simulated host

    A small POSIX-flavoured host on which the scenarios are evaluated: paths
    are strings, the file system is a table from paths to contents, and every
    process answers as the table [process] says. *)

Module Sim.

Record sim_world : Type := {
  files : list (string * string);
  env : list (string * string);
  on_path : list (string * string);
  homes : list (string * string);
  system_name : string;
  clock : datetime;
  process : list string -> result completed_process
}.

Fixpoint lookup (k : string) (t : list (string * string)) : option string :=
  match t with
  | [] => None
  | (k', v) :: t' => if String.eqb k k' then Some v else lookup k t'
  end.

Definition join (p : string) (parts : list string) : string :=
  fold_left (fun acc x => acc ++ "/" ++ x) parts p.

(** The text before the last occurrence of [c], if there is one. *)
Fixpoint before_last (c : ascii) (s : string) : option string :=
  match s with
  | EmptyString => None
  | String d s' =>
      match before_last c s' with
      | Some r => Some (String d r)
      | None => if Ascii.eqb c d then Some EmptyString else None
      end
  end.

Definition dirname (p : string) : string :=
  match before_last "/" p with
  | Some EmptyString => "/"
  | Some d => d
  | None => "."
  end.

(** The text behind the last ["/"]. *)
Fixpoint after_last_slash (s : string) : string :=
  match s with
  | EmptyString => EmptyString
  | String c s' =>
      if existsb (Ascii.eqb "/") (list_ascii_of_string s') then after_last_slash s'
      else if Ascii.eqb c "/" then s' else s
  end.

(** The last component: the current directory and the root have none. *)
Definition basename (p : string) : string :=
  if String.eqb p "." then EmptyString else after_last_slash p.

Definition change_suffix (p suffix : string) : string :=
  match before_last "." p with
  | Some stem => stem ++ suffix
  | None => p ++ suffix
  end.

(** The text up to the first ["/"] and the rest. *)
Fixpoint split_first (s : string) : string * string :=
  match s with
  | EmptyString => (EmptyString, EmptyString)
  | String c s' =>
      if Ascii.eqb c "/" then (EmptyString, s)
      else let (a, b) := split_first s' in (String c a, b)
  end.

Definition expand (w : sim_world) (p : string) : option string :=
  if prefix "~" p then
    let (user, rest) := split_first p in
    match lookup user (homes w) with
    | Some home => Some (home ++ rest)
    | None => None
    end
  else Some p.

Definition exists_file (w : sim_world) (p : string) : bool :=
  match lookup p (files w) with Some _ => true | None => false end.

Definition read (w : sim_world) (p : string) : result string :=
  match lookup p (files w) with
  | Some content => Ok content
  | None => Raise (FileNotFoundError p)
  end.

Definition put (w : sim_world) (p content : string) : sim_world :=
  {| files := (p, content) :: files w; env := env w; on_path := on_path w;
     homes := homes w; system_name := system_name w; clock := clock w;
     process := process w |}.

Definition host (here : string)
           (order : list (option string) -> list (option string)) : Host := {|
  world := sim_world;
  path := string;
  HERE := here;
  Path := fun s => s;
  path_str := fun p => p;
  joinpath := join;
  parent := dirname;
  path_name := basename;
  with_suffix := change_suffix;
  as_uri := fun p => "file://" ++ p;
  set_order := order;
  path_exists := exists_file;
  environ_get := fun w k => lookup k (env w);
  expanduser := expand;
  which := fun w n => lookup n (on_path w);
  platform_system := system_name;
  datetime_now := clock;
  path_resolve := fun _ p => p;
  read_text := read;
  mkdir := fun w p => (Ok tt, put w p EmptyString);
  write_text := fun w p c => (Ok tt, put w p c);
  subprocess_run := fun w cmd => (process w cmd, w)
|}.

Definition noon : datetime :=
  {| year := 2023; month := 5; day := 1; hour := 12; minute := 0; second := 0;
     microsecond := 0; utcoffset := None |}.

(** A process table: every command exits with the given status and standard
    error, unless it carries the flag [ok_flag]. *)
Definition exits (ok_flag : string) (code : Z) (err : list Byte.byte)
           (cmd : list string) : result completed_process :=
  if existsb (String.eqb ok_flag) cmd
  then Ok {| returncode := 0; stdout := []; stderr := [] |}
  else Ok {| returncode := code; stdout := []; stderr := err |}.

(** A Linux machine with the given files, environment, search path and
    process table; the only home directory known is the current user's. *)
Definition linux (fs : list (string * string)) (environment : list (string * string))
           (bins : list (string * string))
           (proc : list string -> result completed_process) : sim_world :=
  {| files := fs; env := environment; on_path := bins;
     homes := [("~", "/home/me")]; system_name := "Linux"; clock := noon;
     process := proc |}.

(** A Windows machine with the three installation roots set. *)
Definition windows (fs : list (string * string)) : sim_world :=
  {| files := fs;
     env := [("PROGRAMFILES", "C:/PF"); ("PROGRAMFILES(X86)", "C:/PF86");
             ("LOCALAPPDATA", "C:/LAD")];
     on_path := []; homes := []; system_name := "Windows"; clock := noon;
     process := exits "none" 1 [] |}.

End Sim.

(** ** Sample data for the scenarios *)

Module Sample.
Import Sim.

Definition template : string :=
  "<html><head><title>{{title}}</title><link rel=" ++ quoted "stylesheet"
  ++ " href=" ++ quoted "{{style_href}}" ++ "></head><body><h1>{{title}}</h1>"
  ++ "<p>{{generated}}, {{count}} entries</p><table>{{rows}}</table></body></html>".

Definition installed : list (string * string) :=
  [ ("/app/templates/layout.html", template); ("/app/styles/style.css", "body{}") ].

Definition entry (n : string) (f : string) (u : string) : account :=
  {| name := VStr n; type := "Login"; folder := VStr f; favorite := false;
     username := VStr u; password := VStr "pw"; totp := VStr "";
     uris := [VStr "https://example.org/?a=1&b=2"]; notes := VStr "";
     last_modified := ""; created := ""; fields := [] |}.

(** The application's host and a world in which only the application is
    installed. *)
Definition app : Host := host "/app" (fun l => l).
Definition bare : sim_world := linux installed [] [] (exits "none" 1 []).

(** The document [render_html] returns on that host (empty if it raises). *)
Definition rendered (accounts : list account) (title : string) : string :=
  match fst (@render_html Reference.runtime app accounts title (bare, [])) with
  | Ok doc => doc
  | Raise _ => EmptyString
  end.

Definition hostile : list account :=
  [ entry "<script>alert(1)</script>" "Work & <b>Co</b>" ("me" ++ dq ++ " onload='x'") ].
Definition harmless : list account := [ entry "n" "f" "u" ].

(** An export with three folders (one of them without a name) and items
    that tie on their keys. *)
Definition export : pyval :=
  VDict
    [ ("folders",
       VList [ VDict [("id", VStr "f1"); ("name", VStr "Work")];
               VDict [("id", VStr "f2")];
               VDict [("id", VStr "f3"); ("name", VStr "alpha")] ]);
      ("items",
       VList [ VDict [("name", VStr "Zeta"); ("type", VInt 1); ("folderId", VStr "f1")];
               VDict [("name", VStr "mail"); ("type", VInt 1); ("folderId", VStr "f1");
                      ("login", VDict [("username", VStr "first")])];
               VDict [("name", VStr "solo"); ("type", VInt 2); ("folderId", VNone)];
               VDict [("name", VStr "Mail"); ("type", VInt 1); ("folderId", VStr "f1");
                      ("login", VDict [("username", VStr "second")])];
               VDict [("name", VStr "beta"); ("type", VInt 3); ("folderId", VStr "f3");
                      ("revisionDate", VStr "2023-05-01T12:00:00Z")];
               VDict [("name", VNone); ("folderId", VStr "f2"); ("fields", VNone)] ]) ].

(** The account list of [export] (empty if normalization raises). *)
Definition normalized : list account :=
  match @collect_accounts Reference.runtime export with
  | Ok l => l
  | Raise _ => []
  end.

(** An export whose only item is named like a placeholder, and its
    account list. *)
Definition tokened_export : pyval :=
  VDict [("items", VList [VDict [("name", VStr "{{style_href}}"); ("type", VInt 1)]])].

Definition tokened : list account :=
  match @collect_accounts Reference.runtime tokened_export with
  | Ok l => l
  | Raise _ => []
  end.

(** The application installed without its template. *)
Definition no_template : sim_world :=
  linux [("/app/styles/style.css", "body{}"); ("/usr/bin/chromium", "")]
        [] [("chromium", "/usr/bin/chromium")] (exits "--headless" 0 []).

(** What a failing engine writes: the bytes of [boom] around a byte that is
    not UTF-8. *)
Definition noise : list Byte.byte :=
  [Byte.x62; Byte.x6f; Byte.xff; Byte.x6f; Byte.x6d].

(** An engine that only knows the legacy flag, and one that always fails. *)
Definition legacy_only : sim_world := linux installed [] [] (exits "--headless" 1 noise).
Definition no_engine : sim_world := linux installed [] [] (exits "none" 1 noise).

(** A machine with a browser installed whose override names the home of a
    user that does not exist. *)
Definition ghost_override : sim_world :=
  linux (installed ++ [("/usr/bin/chromium", "")])%list
        [("BITWARDEN_FORMATTER_BROWSER", "~ghost/chrome")] [] (exits "none" 1 []).

(** A Windows machine with Chrome under the second root and Edge under the
    third. *)
Definition two_engines : sim_world :=
  windows [ ("C:/PF86/Google/Chrome/Application/chrome.exe", "");
            ("C:/LAD/Microsoft/Edge/Application/msedge.exe", "") ].

End Sample.

(** ** Vocabulary of the statements about the normalizer *)

(** The record has the sort key [k]. *)
Definition keyed_as `{Runtime} (k : string * string) (e : account) : bool :=
  match sort_key e with
  | Ok k' => String.eqb (fst k') (fst k) && String.eqb (snd k') (snd k)
  | Raise _ => false
  end.

(** The decorated record has the sort key [k]. *)
Definition with_key (k : string * string) (ke : string * string * account) : bool :=
  String.eqb (fst (fst ke)) (fst k) && String.eqb (snd (fst ke)) (snd k).

(** A string, or a value that counts as false. *)
Definition str_or_falsy (v : pyval) : bool :=
  match v with
  | VStr _ => true
  | _ => negb (Py.truthy v)
  end.

(** The documents [collect_accounts] accepts.  It checks no types; what
    the names below ask of a document is what the calls it makes need in
    order to return: [.get] an object, a loop something iterable, a dict key
    something hashable, [.lower] and [.replace] a string. *)
Module Schema.

Definition is_str (v : pyval) : bool :=
  match v with VStr _ => true | _ => false end.

(** The value of [d.get(k)] from the lookup of [k]. *)
Definition val (o : option pyval) : pyval :=
  match o with Some x => x | None => VNone end.



















End Schema.

(** The URI values the list comprehension of lines 89-91 keeps. *)
Definition kept_uris (l : list pyval) : list pyval :=
  flat_map (fun uri =>
              match uri with
              | VDict d =>
                  match Py.assoc "uri" d with
                  | Some v => if Py.truthy v then [v] else []
                  | None => []
                  end
              | _ => []
              end) l.

(** The custom-field lines of a list of field objects. *)
Definition field_lines `{Runtime} (l : list pyval) : list string :=
  flat_map (fun field =>
              match field with
              | VDict d =>
                  let value := Schema.val (Py.assoc "value" d) in
                  if Py.truthy value
                  then [format_value (Py.or_ (Schema.val (Py.assoc "name" d)) (VStr "Field"))
                        ++ ": " ++ format_value value]
                  else []
              | _ => []
              end) l.


(** ** Vocabulary of the statements about the engine locator

    The search order as a list, and the result of the search as a function of
    the world: the definitions the locator is compared with. *)

Section Locator.
Context `{Runtime} `{Host}.

(** The path the override variable names, if it is set and not empty. *)
Definition override_of (w : world) : option path :=
  match environ_get w BROWSER_ENV_VAR with
  | Some s => if is_empty s then None else Some (Path s)
  | None => None
  end.

(** The installation roots of the Windows branch, in the order in which the
    set of the three variables is iterated. *)
Definition program_files (w : world) : list path :=
  map Path (truthy_strings (set_literal [ environ_get w "PROGRAMFILES";
                                          environ_get w "PROGRAMFILES(X86)";
                                          environ_get w "LOCALAPPDATA" ])).

(** The well-known install locations of the platform, in search order. *)
Definition known_paths (w : world) : list path :=
  let system := lower (platform_system w) in
  if String.eqb system "windows" then
    flat_map (fun base => map (joinpath base) known_suffixes) (program_files w)
  else if String.eqb system "darwin" then map Path mac_candidates
  else map Path linux_candidates.

(** Whatever the executable search path resolves, in the order of the
    names. *)
Definition which_paths (w : world) : list path :=
  map Path (truthy_strings (map (which w) which_names)).

Definition search_order (w : world) : list path :=
  (known_paths w ++ which_paths w)%list.

Definition ENGINE_NOT_FOUND : exn :=
  FileNotFoundError
    ("No supported headless browser found. Install Edge/Chrome/Chromium or set "
     ++ BROWSER_ENV_VAR ++ " to a custom binary.").

(** The first candidate of the search order that exists. *)
Definition search (w : world) : result path :=
  match find (path_exists w) (search_order w) with
  | Some p => Ok p
  | None => Raise ENGINE_NOT_FOUND
  end.

(** The override if it expands to something that exists, else the
    search; no result when the override cannot be expanded. *)
Definition locate (w : world) : result path :=
  match override_of w with
  | None => search w
  | Some p =>
      match expanduser w p with
      | None => Raise (RuntimeError "Could not determine home directory.")
      | Some q => if path_exists w q then Ok q else search w
      end
  end.

(** [c] only queries the host: it leaves the world as it is, starts no
    process, and its result is [f] of the world. *)
Definition reads {A} (c : M A) (f : world -> result A) : Prop :=
  forall (w : world) (tr : list event),
  exists evs,
    c (w, tr) = (f w, (w, (tr ++ evs)%list)) /\ existsb is_run evs = false.

End Locator.

(** ** The command-line entry point *)

Section Main.
Context `{Runtime} `{Host}.

(** [json.loads]: the parser of the standard library, on the text of the
    input file. *)
Variable json_loads : string -> result pyval.

(** A path object is always truthy, so [provided] decides by being there. *)
Definition resolve_output_path (input_path : path) (provided : option path)
  : result path :=
  match provided with
  | Some p => Ok p
  | None => py_with_suffix input_path ".pdf"
  end.

(** [json.load] of the file opened for reading as UTF-8. *)
Definition load_export (p : path) : M pyval :=
  text <~ sys_read_text p ;;
  lift (json_loads text).

(** [main], given the three parsed arguments; the line it prints at the end
    is its result. *)
Definition main (input : path) (output : option path) (title : string) : M string :=
  input_path <~ sys_expanduser input ;;
  output_path <~ lift (resolve_output_path input_path output) ;;
  ex <~ sys_exists input_path ;;
  if negb ex
  then raise (FileNotFoundError ("Input file not found: " ++ path_str input_path))
  else
    data <~ load_export input_path ;;
    accounts <~ lift (collect_accounts data) ;;
    _ <~ sys_mkdir (parent output_path) ;;
    _ <~ build_pdf accounts title output_path ;;
    ret ("PDF created successfully: " ++ path_str output_path).

End Main.

(** ** Vocabulary of further statements *)

(** A value is falsy, a string that is not empty, or a truthy value of
    another type, on which [html.escape] raises. *)
Inductive kind (v : pyval) : Prop :=
| IsFalsy : Py.truthy v = false -> str_or_falsy v = true -> kind v
| IsText (s : string) : v = VStr s -> Py.truthy v = true -> kind v
| IsOther : Py.truthy v = true -> str_or_falsy v = false
            -> escape v = Raise AttributeError -> kind v.

(** The fields a row shows are texts wherever they are used. *)
Definition renderable (e : account) : bool :=
  str_or_falsy (name e) && str_or_falsy (folder e)
  && str_or_falsy (username e) && str_or_falsy (password e)
  && str_or_falsy (totp e)
  && match uris e with [] => true | u :: _ => Schema.is_str u end.

(** The five labels an item type is shown as. *)
Definition TYPE_LABELS : list string :=
  ["Login"; "Secure Note"; "Card"; "Identity"; "Unknown"].

(** The name the folder list gives to the folder id [i]: the folders are
    read in order and a later folder with the same id replaces an earlier
    one; a folder without a name has the empty name. *)
Fixpoint folder_name_of (i : string) (fl : list pyval) (found : option pyval)
  : option pyval :=
  match fl with
  | [] => found
  | VDict d :: fl' =>
      folder_name_of i fl'
        (match Py.assoc "id" d with
         | Some (VStr j) =>
             if String.eqb i j
             then Some (match Py.assoc "name" d with Some n => n | None => VStr "" end)
             else found
         | _ => found
         end)
  | _ :: fl' => folder_name_of i fl' found
  end.

(** The host calls that read without changing anything on disk. *)
Definition render_event `{Host} (e : event) : bool :=
  match e with
  | EvExists _ _ | EvNow | EvRead _ => true
  | _ => false
  end.

(** The host calls that create something on disk. *)
Definition disk_event `{Host} (e : event) : bool :=
  match e with
  | EvMkdir _ | EvWrite _ _ => true
  | _ => false
  end.

(** What every record of the account list has, whatever the item was. *)
Definition complete (acc : account) : Prop :=
  Py.truthy (name acc) = true
  /\ Py.truthy (folder acc) = true
  /\ In (type acc) TYPE_LABELS
  /\ Forall (fun u => Py.truthy u = true) (uris acc)
  /\ username acc <> VNone /\ password acc <> VNone
  /\ totp acc <> VNone /\ notes acc <> VNone.

(** The credentials a row shows are strings. *)
Definition credentials_are_text (e : account) : bool :=
  Schema.is_str (username e) && Schema.is_str (password e)
  && Schema.is_str (totp e)
  && match uris e with [] => true | u :: _ => Schema.is_str u end.

(** The part of a record a row is made of: the notes, the two dates, the
    custom fields and every URI after the first are left out. *)
Definition shown (e : account) : account :=
  {| name := name e; type := type e; folder := folder e; favorite := favorite e;
     username := username e; password := password e; totp := totp e;
     uris := firstn 1 (uris e); notes := VNone;
     last_modified := ""; created := ""; fields := [] |}.

(** The record [e] with another folder. *)
Definition set_folder (e : account) (f : pyval) : account :=
  {| name := name e; type := type e; folder := f; favorite := favorite e;
     username := username e; password := password e; totp := totp e;
     uris := uris e; notes := notes e;
     last_modified := last_modified e; created := created e; fields := fields e |}.

(** ** Further sample machines *)

Module Scene.

(** The override variable names a browser that is installed. *)
Definition overridden : Sim.sim_world :=
  Sim.linux (Sample.installed ++ [("/opt/browser", "")])%list
            [("BITWARDEN_FORMATTER_BROWSER", "/opt/browser")] []
            (Sim.exits "none" 1 []).

(** A browser is installed and prints with the current flag. *)
Definition working : Sim.sim_world :=
  Sim.linux (Sample.installed ++ [("/usr/bin/chromium", "")])%list [] []
            (Sim.exits "--headless=new" 0 []).

(** No program can be started. *)
Definition blocked : Sim.sim_world :=
  Sim.linux Sample.installed [] [] (fun _ => Raise (OSError "Permission denied")).

(** The legacy variant cannot be started. *)
Definition half_blocked : Sim.sim_world :=
  Sim.linux Sample.installed [] []
            (fun cmd => if existsb (String.eqb "--headless") cmd
                        then Raise (OSError "Permission denied")
                        else Ok {| returncode := 1; stdout := []; stderr := Sample.noise |}).

(** The application installed without its stylesheet. *)
Definition no_style : Sim.sim_world :=
  Sim.linux [("/app/templates/layout.html", Sample.template);
             ("/home/me/vault.json", "{}")] [] [] (Sim.exits "none" 1 []).

(** The application and an export in the home directory. *)
Definition with_export : Sim.sim_world :=
  Sim.linux (Sample.installed ++ [("/home/me/vault.json", "[]")])%list [] []
            (Sim.exits "none" 1 []).

(** A parser that knows two documents. *)
Definition parser (text : string) : result pyval :=
  if String.eqb text "{}" then Ok (VDict [])
  else if String.eqb text "[]" then Ok (VList [])
  else Raise ValueError.

End Scene.

(** ** Vocabulary of the statement about escaping *)

(** What [html.escape] writes for one character. *)
Definition entity_of (c : ascii) : string :=
  if Ascii.eqb c "&" then "&amp;"
  else if Ascii.eqb c "<" then "&lt;"
  else if Ascii.eqb c ">" then "&gt;"
  else if Ascii.eqb c dquote then "&quot;"
  else if Ascii.eqb c "'" then "&#x27;"
  else String c "".

(** The cell of a name and the cell of a username or password, as the row
    writes them (lines 149, 191 and 195). *)
Definition name_cell (n : string) : string :=
  "<div class=" ++ quoted "entry-name" ++ ">" ++ n ++ "</div>".
Definition value_cell (v : string) : string :=
  "<span class=" ++ quoted "credential-value" ++ ">" ++ v ++ "</span>".

(** The text [rows] shows every value of the record [e] in its place and in
    its escaped form. *)
Definition inserted_escaped `{Runtime} (e : account) (rows : string) : Prop :=
  (forall n, name e = VStr n -> n <> "" -> occurs (name_cell (escape_str n)) rows)
  /\ (forall u, username e = VStr u -> u <> "" -> occurs (value_cell (escape_str u)) rows)
  /\ (forall p, password e = VStr p -> p <> "" -> occurs (value_cell (escape_str p)) rows)
  /\ (forall u rest, uris e = VStr u :: rest -> occurs (url_html (escape_str u)) rows)
  /\ (forall t, totp e = VStr t -> t <> "" -> occurs (totp_html (escape_str t)) rows)
  /\ (forall f, folder e = VStr f -> folder_shown e = true ->
      occurs (tag_html (escape_str f)) rows)
  /\ (type e <> "" -> occurs (tag_html (escape_str (type e))) rows).

(** * Properties *)

(** ** Text primitives *)

Example escape_script :
  escape_str ("<script>alert('x') && " ++ quoted "y" ++ "</script>") =
  "&lt;script&gt;alert(&#x27;x&#x27;) &amp;&amp; &quot;y&quot;&lt;/script&gt;".
Proof. reflexivity. Qed.

Module TextFacts.

Lemma app_nil_r (s : string) : s ++ "" = s.
Proof. induction s as [|c s IH]; simpl; [reflexivity | now rewrite IH]. Qed.

Lemma app_assoc (a b c : string) : (a ++ b) ++ c = a ++ b ++ c.
Proof. induction a as [|x a IH]; simpl; [reflexivity | now rewrite IH]. Qed.

Lemma length_app (a b : string) :
  String.length (a ++ b) = String.length a + String.length b.
Proof. induction a as [|x a IH]; simpl; [reflexivity | now rewrite IH]. Qed.

Lemma prefix_app (a r : string) : prefix a (a ++ r) = true.
Proof.
  induction a as [|x a IH]; simpl.
  - now destruct r.
  - destruct (ascii_dec x x) as [_|n]; [exact IH | now destruct n].
Qed.

Lemma prefix_split (a s : string) :
  prefix a s = true -> exists r, s = a ++ r.
Proof.
  revert s; induction a as [|x a IH]; intros s Hp.
  - now exists s.
  - destruct s as [|y s]; simpl in Hp; [discriminate|].
    destruct (ascii_dec x y) as [->|]; [|discriminate].
    destruct (IH _ Hp) as [r ->]. now exists r.
Qed.

Lemma prefix_app_l (a s r : string) :
  prefix a s = true -> prefix a (s ++ r) = true.
Proof.
  intros Hp. destruct (prefix_split _ _ Hp) as [t ->].
  rewrite app_assoc. apply prefix_app.
Qed.

(** *** The equations of [str_replace] *)

Lemma replace_from_skip (old new t r : string) :
  replace_from old new (String.length t) (t ++ r) = replace_from old new 0 r.
Proof.
  induction t as [|x t IH]; simpl; [|exact IH].
  destruct r; reflexivity.
Qed.

Section Replace.
Variables (a : ascii) (o new : string).
Let old := String a o.

Lemma str_replace_nil : str_replace old new "" = "".
Proof. reflexivity. Qed.

Lemma str_replace_match (r : string) :
  str_replace old new (old ++ r) = new ++ str_replace old new r.
Proof.
  unfold str_replace, old. simpl append.
  change (replace_from (String a o) new 0 (String a (o ++ r)))
    with (if prefix (String a o) (String a (o ++ r))
          then new ++ replace_from (String a o) new (String.length (String a o) - 1) (o ++ r)
          else String a (replace_from (String a o) new 0 (o ++ r))).
  change (String a (o ++ r)) with (String a o ++ r).
  rewrite prefix_app.
  change (String.length (String a o) - 1) with (String.length o - 0).
  rewrite Nat.sub_0_r.
  now rewrite replace_from_skip.
Qed.

Lemma str_replace_step (c : ascii) (s : string) :
  prefix old (String c s) = false ->
  str_replace old new (String c s) = String c (str_replace old new s).
Proof.
  intros Hp. unfold str_replace, old in *.
  change (replace_from (String a o) new 0 (String c s))
    with (if prefix (String a o) (String c s)
          then new ++ replace_from (String a o) new (String.length (String a o) - 1) s
          else String c (replace_from (String a o) new 0 s)).
  now rewrite Hp.
Qed.

(** Induction along the scan of [str_replace]. *)
Lemma str_replace_ind (P : string -> Prop) :
  P "" ->
  (forall r, P r -> P (old ++ r)) ->
  (forall c s, prefix old (String c s) = false -> P s -> P (String c s)) ->
  forall s, P s.
Proof.
  intros Hnil Hmatch Hstep s.
  remember (String.length s) as n eqn:Hn.
  revert s Hn. induction n as [n IH] using lt_wf_ind. intros s Hn.
  destruct s as [|c s]; [exact Hnil|].
  destruct (prefix old (String c s)) eqn:Hp.
  - destruct (prefix_split _ _ Hp) as [r Hr]. rewrite Hr.
    apply Hmatch. apply (IH (String.length r)); [|reflexivity].
    subst n. rewrite Hr, length_app. unfold old. simpl. lia.
  - apply Hstep; [exact Hp|].
    apply (IH (String.length s)); [|reflexivity]. subst n. simpl. lia.
Qed.
End Replace.

End TextFacts.

(** ** Markup characters and escaping *)

Module MarkupFacts.
Import TextFacts.

Lemma markup_chars_app (a b : string) :
  markup_chars (a ++ b) = (markup_chars a ++ markup_chars b)%list.
Proof.
  induction a as [|c a IH]; simpl; [reflexivity|].
  destruct (is_markup c); simpl; now rewrite IH.
Qed.

Lemma markup_chars_cons (c : ascii) (s : string) :
  markup_chars (String c s) =
  if is_markup c then c :: markup_chars s else markup_chars s.
Proof. reflexivity. Qed.

(** The markup characters of a replaced text depend on the replacement only
    through its markup characters. *)
Lemma markup_replace_congr (old new new' s : string) :
  markup_chars new = markup_chars new' ->
  markup_chars (str_replace old new s) = markup_chars (str_replace old new' s).
Proof.
  intros Hn. destruct old as [|a o].
  - unfold str_replace. induction s as [|c s IH]; simpl; [exact Hn|].
    rewrite !markup_chars_app. simpl. rewrite IH, Hn. reflexivity.
  - induction s as [| r IH | c s Hp IH] using (str_replace_ind a o).
    + reflexivity.
    + rewrite !str_replace_match, !markup_chars_app. now rewrite IH, Hn.
    + rewrite !str_replace_step by exact Hp.
      rewrite !markup_chars_cons. now rewrite IH.
Qed.

(** Replacing a pattern without markup characters by a text without markup
    characters leaves the markup characters as they are. *)
Lemma markup_replace_neutral (old new s : string) :
  old <> "" ->
  markup_chars old = [] -> markup_chars new = [] ->
  markup_chars (str_replace old new s) = markup_chars s.
Proof.
  intros Hne Ho Hn. destruct old as [|a o]; [now destruct Hne|].
  induction s as [| r IH | c s Hp IH] using (str_replace_ind a o).
  - reflexivity.
  - rewrite str_replace_match, !markup_chars_app, IH, Ho, Hn. reflexivity.
  - rewrite str_replace_step by exact Hp.
    rewrite !markup_chars_cons. now rewrite IH.
Qed.

Lemma amp_ok_cons (c : ascii) (s : string) :
  amp_ok (String c s) =
  (if Ascii.eqb c "&" then existsb (fun e => prefix e s) entities else true)
  && amp_ok s.
Proof. reflexivity. Qed.

Lemma amp_ok_app (a b : string) :
  amp_ok a = true -> amp_ok b = true -> amp_ok (a ++ b) = true.
Proof.
  intros Ha Hb. induction a as [|c a IH]; [exact Hb|].
  change (String c a ++ b) with (String c (a ++ b)).
  rewrite amp_ok_cons in *.
  apply andb_true_iff in Ha as [Hc Ha]. rewrite (IH Ha), andb_true_r.
  destruct (Ascii.eqb c "&"); [|reflexivity].
  apply existsb_exists in Hc as [e [He Hp]].
  apply existsb_exists. exists e. split; [exact He|].
  now apply prefix_app_l.
Qed.

(** *** [html.escape] character by character *)

Lemma str_replace_char (c : ascii) (new s : string) :
  str_replace (String c "") new s = subst_char c new s.
Proof.
  induction s as [|d s IH]; [reflexivity|].
  simpl subst_char. destruct (Ascii.eqb_spec c d) as [<-|Hne].
  - change (String c s) with (String c "" ++ s).
    now rewrite str_replace_match, IH.
  - rewrite str_replace_step; [now rewrite IH|].
    simpl. destruct (ascii_dec c d); [contradiction|reflexivity].
Qed.

Lemma subst_char_app (c : ascii) (new a b : string) :
  subst_char c new (a ++ b) = subst_char c new a ++ subst_char c new b.
Proof.
  induction a as [|d a IH]; simpl; [reflexivity|].
  now rewrite IH, app_assoc.
Qed.

Lemma escape_str_cons (c : ascii) (s : string) :
  escape_str (String c s) = escape_char c ++ escape_str s.
Proof.
  unfold escape_char, escape_str, dq. rewrite !str_replace_char.
  change (String c s) with (String c "" ++ s).
  now rewrite !subst_char_app.
Qed.

Lemma escape_char_clean (c : ascii) :
  markup_chars (escape_char c) = [] /\ amp_ok (escape_char c) = true.
Proof.
  destruct c as [[] [] [] [] [] [] [] []]; split; reflexivity.
Qed.

(** An escaped text has no markup character, and each of its ampersands
    starts a character reference. *)
Lemma escape_str_clean (s : string) :
  markup_chars (escape_str s) = [] /\ amp_ok (escape_str s) = true.
Proof.
  induction s as [|c s [IHm IHa]]; [split; reflexivity|].
  rewrite escape_str_cons, markup_chars_app, IHm.
  destruct (escape_char_clean c) as [Hm Ha]. rewrite Hm.
  split; [reflexivity | now apply amp_ok_app].
Qed.

Lemma escape_clean (v : pyval) (x : string) :
  escape v = Ok x -> markup_chars x = [] /\ amp_ok x = true.
Proof.
  destruct v; simpl; try discriminate.
  intros [= <-]. apply escape_str_clean.
Qed.

End MarkupFacts.

(** ** The table rows *)

Module RowFacts.
Import TextFacts MarkupFacts.

Lemma bind_ok {A B} (c : result A) (k : A -> result B) (b : B) :
  bind c k = Ok b -> exists a, c = Ok a /\ k a = Ok b.
Proof. destruct c as [a|e]; simpl; [now exists a | discriminate]. Qed.

Tactic Notation "inv_bind" hyp(H) "as" ident(a) ident(Ha) :=
  apply bind_ok in H as (a & Ha & H).

Lemma same_markup_app (a a' b b' : string) :
  same_markup a a' -> same_markup b b' -> same_markup (a ++ b) (a' ++ b').
Proof. unfold same_markup. intros Ha Hb. now rewrite !markup_chars_app, Ha, Hb. Qed.

Lemma same_markup_refl (a : string) : same_markup a a.
Proof. reflexivity. Qed.

Lemma same_markup_clean (x : string) : clean x -> same_markup x "".
Proof. now intros [Hm _]. Qed.

Lemma same_markup_concat (sep : string) (l l' : list string) :
  Forall2 same_markup l l' ->
  same_markup (String.concat sep l) (String.concat sep l').
Proof.
  induction 1 as [|x y l l' Hxy Hl IH]; [reflexivity|].
  cbn [String.concat]. destruct Hl as [|x2 y2 l2 l2' H2 Hl2].
  - exact Hxy.
  - apply same_markup_app; [exact Hxy|].
    apply same_markup_app; [reflexivity | exact IH].
Qed.

Lemma amp_ok_concat (sep : string) (l : list string) :
  amp_ok sep = true -> Forall (fun x => amp_ok x = true) l ->
  amp_ok (String.concat sep l) = true.
Proof.
  intros Hs. induction 1 as [|x l Hx Hl IH]; [reflexivity|].
  cbn [String.concat]. destruct l as [|y l]; [exact Hx|].
  apply amp_ok_app; [exact Hx|]. apply amp_ok_app; [exact Hs | exact IH].
Qed.

(** Closes [amp_ok] and [same_markup] goals on texts put together from
    literals and from texts known to be fine. *)
Ltac pieces :=
  repeat first
    [ assumption
    | apply same_markup_clean; assumption
    | apply same_markup_app
    | apply amp_ok_app
    | apply same_markup_refl
    | match goal with |- amp_ok _ = true => reflexivity end ].

Lemma tag_html_fine (x : string) :
  clean x -> same_markup (tag_html x) (tag_html "") /\ amp_ok (tag_html x) = true.
Proof. intros Hc. pose proof Hc as [_ Ha]. unfold tag_html. split; pieces. Qed.

Lemma url_html_fine (x : string) :
  clean x -> same_markup (url_html x) (url_html "") /\ amp_ok (url_html x) = true.
Proof. intros Hc. pose proof Hc as [_ Ha]. unfold url_html. split; pieces. Qed.

Lemma totp_html_fine (x : string) :
  clean x -> same_markup (totp_html x) (totp_html "") /\ amp_ok (totp_html x) = true.
Proof. intros Hc. pose proof Hc as [_ Ha]. unfold totp_html. split; pieces. Qed.

Lemma meta_html_fine (tags tags' : list string) :
  Forall2 same_markup tags tags' ->
  Forall (fun x => amp_ok x = true) tags ->
  same_markup (meta_html tags) (meta_html tags') /\ amp_ok (meta_html tags) = true.
Proof.
  intros H2 Ha.
  pose proof (same_markup_concat "" H2) as Hc.
  pose proof (amp_ok_concat "" eq_refl Ha) as Hk.
  unfold meta_html. destruct H2; [split; reflexivity|].
  split; pieces.
Qed.

Lemma credentials_html_fine (u p x x' : string) :
  clean u -> clean p ->
  same_markup x x' -> is_empty x = is_empty x' -> amp_ok x = true ->
  same_markup (credentials_html u p x) (credentials_html "" "" x')
  /\ amp_ok (credentials_html u p x) = true.
Proof.
  intros Hu Hp Hx He Ha. pose proof Hu as [_ Hua]. pose proof Hp as [_ Hpa].
  unfold credentials_html. rewrite <- He. cbn [String.concat].
  destruct (is_empty x); split; pieces.
Qed.

Lemma row_html_fine (n m m' c c' : string) :
  clean n -> same_markup m m' -> amp_ok m = true ->
  same_markup c c' -> amp_ok c = true ->
  same_markup (row_html n m c) (row_html "" m' c') /\ amp_ok (row_html n m c) = true.
Proof.
  intros Hn Hm Hma Hc Hca. pose proof Hn as [_ Hna].
  unfold row_html. cbn [String.concat]. split; pieces.
Qed.

Section Rows.
Context `{Runtime}.

Lemma shown_spec (e : account) (b : bool) :
  (if Py.truthy (folder e)
   then l <- py_lower (folder e) ;; Ok (negb (String.eqb l "no folder"))
   else Ok false) = Ok b ->
  b = folder_shown e.
Proof.
  unfold folder_shown.
  destruct (folder e) as [|[]|z|f|s|l|d]; simpl; try discriminate;
    try (intros [= <-]; reflexivity).
  - destruct (z =? 0)%Z; simpl; [intros [= <-]; reflexivity | discriminate].
  - destruct f; simpl; try discriminate; intros [= <-]; reflexivity.
  - destruct (is_empty s); simpl; intros [= <-]; reflexivity.
  - destruct l; simpl; [intros [= <-]; reflexivity | discriminate].
  - destruct d; simpl; [intros [= <-]; reflexivity | discriminate].
Qed.

Lemma render_meta_fine (e : account) (m : string) :
  render_meta e = Ok m ->
  same_markup m
    (meta_html ((if folder_shown e then [tag_html ""] else [])
                ++ (if negb (is_empty (type e)) then [tag_html ""] else [])
                ++ (if favorite e then [FAVORITE_TAG] else []))%list)
  /\ amp_ok m = true.
Proof.
  unfold render_meta. intros Hr.
  inv_bind Hr as shown Hshown. apply shown_spec in Hshown. subst shown.
  inv_bind Hr as tags1 Htags1. inv_bind Hr as tags2 Htags2. injection Hr as <-.
  assert (Ht : Forall2 same_markup tags1
                 (if folder_shown e then [tag_html ""] else [])
               /\ Forall (fun y => amp_ok y = true) tags1).
  { destruct (folder_shown e).
    - inv_bind Htags1 as x Hx. injection Htags1 as <-. apply escape_clean in Hx.
      destruct (tag_html_fine Hx). split; repeat constructor; assumption.
    - injection Htags1 as <-. split; constructor. }
  destruct Ht as [Ht2 Hta].
  assert (Hu : Forall2 same_markup tags2
                 ((if folder_shown e then [tag_html ""] else [])
                  ++ (if negb (is_empty (type e)) then [tag_html ""] else []))%list
               /\ Forall (fun y => amp_ok y = true) tags2).
  { destruct (negb (is_empty (type e))).
    - inv_bind Htags2 as x Hx. injection Htags2 as <-. apply escape_clean in Hx.
      destruct (tag_html_fine Hx). unfold list_append. split.
      + apply Forall2_app; [assumption | repeat constructor; assumption].
      + apply Forall_app; split; [assumption | repeat constructor; assumption].
    - injection Htags2 as <-. rewrite List.app_nil_r. split; assumption. }
  destruct Hu as [Hu2 Hua].
  apply meta_html_fine.
  - rewrite List.app_assoc. destruct (favorite e).
    + apply Forall2_app; [assumption | repeat constructor].
    + rewrite List.app_nil_r. assumption.
  - destruct (favorite e); [|assumption].
    apply Forall_app; split; [assumption | repeat constructor].
Qed.

Lemma render_credentials_extra_fine (e : account) (x : string) :
  render_credentials_extra e = Ok x ->
  let skeleton :=
    String.concat nl
      ((if match uris e with [] => false | _ => true end then [url_html ""] else [])
       ++ (if Py.truthy (totp e) then [totp_html ""] else []))%list in
  same_markup x skeleton /\ is_empty x = is_empty skeleton /\ amp_ok x = true.
Proof.
  unfold render_credentials_extra. intros Hr.
  inv_bind Hr as bits1 H1. inv_bind Hr as bits2 H2. injection Hr as <-.
  destruct (uris e) as [|u us]; destruct (Py.truthy (totp e)).
  - injection H1 as <-. inv_bind H2 as t Ht. injection H2 as <-.
    apply escape_clean in Ht. destruct (totp_html_fine Ht) as [Hs Ha].
    split; [exact Hs|]. split; [reflexivity | exact Ha].
  - injection H1 as <-. injection H2 as <-.
    split; [reflexivity|]. split; reflexivity.
  - inv_bind H1 as p Hp. injection H1 as <-.
    inv_bind H2 as t Ht. injection H2 as <-.
    apply escape_clean in Hp, Ht.
    destruct (url_html_fine Hp) as [Hs1 Ha1], (totp_html_fine Ht) as [Hs2 Ha2].
    cbn [list_append List.app String.concat].
    split; [|split; [reflexivity|]].
    + apply same_markup_app; [assumption|].
      apply same_markup_app; [apply same_markup_refl | assumption].
    + apply amp_ok_app; [assumption|]. apply amp_ok_app; [reflexivity | assumption].
  - inv_bind H1 as p Hp. injection H1 as <-. injection H2 as <-.
    apply escape_clean in Hp. destruct (url_html_fine Hp) as [Hs Ha].
    split; [exact Hs|]. split; [reflexivity | exact Ha].
Qed.

Lemma render_credentials_section_fine (e : account) (c : string) :
  render_credentials_section e = Ok c ->
  same_markup c
    (credentials_html "" ""
       (String.concat nl
          ((if match uris e with [] => false | _ => true end then [url_html ""] else [])
           ++ (if Py.truthy (totp e) then [totp_html ""] else []))%list))
  /\ amp_ok c = true.
Proof.
  unfold render_credentials_section. intros Hr.
  inv_bind Hr as u Hu. inv_bind Hr as p Hp. inv_bind Hr as x Hx.
  injection Hr as <-.
  apply escape_clean in Hu, Hp.
  destruct (render_credentials_extra_fine _ Hx) as (Hm & He & Ha).
  now apply credentials_html_fine.
Qed.

(** The markup characters of a row are those of the skeleton of its
    shape, and its ampersands start character references. *)
Lemma build_row_fine (e : account) (r : string) :
  build_row e = Ok r ->
  same_markup r (row_skeleton (shape_of e)) /\ amp_ok r = true
  /\ is_empty r = false.
Proof.
  unfold build_row. intros Hr.
  inv_bind Hr as n Hn. inv_bind Hr as m Hm. inv_bind Hr as c Hc.
  injection Hr as <-.
  apply escape_clean in Hn.
  destruct (render_meta_fine _ Hm) as [Hm2 Hma].
  destruct (render_credentials_section_fine _ Hc) as [Hc2 Hca].
  destruct (row_html_fine Hn Hm2 Hma Hc2 Hca) as [Hr Hra].
  split; [exact Hr|]. split; [exact Hra|]. reflexivity.
Qed.

Lemma build_rows_fine (accounts : list account) (rows : string) :
  build_rows accounts = Ok rows ->
  same_markup rows (String.concat nl (map (fun e => row_skeleton (shape_of e)) accounts))
  /\ amp_ok rows = true
  /\ is_empty rows = match accounts with [] => true | _ => false end.
Proof.
  unfold build_rows. intros Hr. inv_bind Hr as parts Hparts. injection Hr as <-.
  assert (Hall : Forall2 same_markup parts
                   (map (fun e => row_skeleton (shape_of e)) accounts)
                 /\ Forall (fun y => amp_ok y = true) parts
                 /\ Forall (fun y => is_empty y = false) parts
                 /\ List.length parts = List.length accounts).
  { revert parts Hparts.
    induction accounts as [|e l IH]; intros parts Hparts; simpl in Hparts.
    - injection Hparts as <-.
      split; [constructor|]. split; [constructor|]. split; [constructor | reflexivity].
    - inv_bind Hparts as r Hr. inv_bind Hparts as rs Hrs. injection Hparts as <-.
      destruct (build_row_fine _ Hr) as (Hm & Ha & He).
      destruct (IH _ Hrs) as (Hm' & Ha' & He' & Hl).
      split; [now constructor|]. split; [now constructor|].
      split; [now constructor|]. simpl. now rewrite Hl. }
  destruct Hall as (Hm & Ha & He & Hl).
  split; [now apply same_markup_concat|].
  split; [now apply amp_ok_concat|].
  destruct accounts as [|e l]; destruct parts as [|r rs]; try discriminate;
    [reflexivity|].
  cbn [String.concat]. inversion He as [|? ? Hr0 _]; subst.
  destruct rs; [exact Hr0|].
  destruct r; [discriminate | reflexivity].
Qed.

End Rows.

End RowFacts.

(** ** The rendered document *)

Module DocumentFacts.
Import TextFacts MarkupFacts RowFacts.

Section Document.
Context `{Runtime} `{Host}.

(** The five replacements, one after the other, over the whole text. *)
Lemma substitute_chain (accounts : list account) (title generated rows_html html : string) :
  substitute (replacements accounts title generated rows_html) html =
  str_replace "{{style_href}}" (as_uri STYLE_PATH)
    (str_replace "{{rows}}" (if is_empty rows_html then EMPTY_ROW else rows_html)
       (str_replace "{{count}}" (str_of_nat (List.length accounts))
          (str_replace "{{generated}}" generated
             (str_replace "{{title}}" (escape_str title) html)))).
Proof. reflexivity. Qed.

(** What a run of [render_html] that returns has done. *)
Lemma render_html_ok (accounts : list account) (title : string)
      (st st' : state) (doc : string) :
  render_html accounts title st = (Ok doc, st') ->
  exists rows html,
    path_exists (fst st) TEMPLATE_PATH = true
    /\ build_rows accounts = Ok rows
    /\ read_text (fst st) TEMPLATE_PATH = Ok html
    /\ doc = substitute
               (replacements accounts title (strftime (datetime_now (fst st)) STAMP) rows)
               html
    /\ st' = (fst st,
              (snd st ++ [EvExists TEMPLATE_PATH true; EvNow; EvRead TEMPLATE_PATH])%list).
Proof.
  destruct st as [w tr].
  unfold render_html, mbind, sys_exists, sys_now, sys_read_text, query, lift, ret,
    raise, log; simpl.
  destruct (path_exists w TEMPLATE_PATH); simpl; [|discriminate].
  destruct (build_rows accounts) as [rows|e]; [|discriminate].
  destruct (read_text w TEMPLATE_PATH) as [html|e]; [|discriminate].
  intros [= <- <-]. exists rows, html.
  repeat (split; [reflexivity|]).
  now rewrite <- !List.app_assoc.
Qed.

(** Records of the same shapes give documents with the same markup
    characters. *)
Lemma render_html_same_markup (accounts accounts' : list account) (title : string)
      (st st1 st1' : state) (doc doc' : string) :
  markup_chars (as_uri STYLE_PATH) = [] ->
  map shape_of accounts = map shape_of accounts' ->
  render_html accounts title st = (Ok doc, st1) ->
  render_html accounts' title st = (Ok doc', st1') ->
  same_markup doc doc'.
Proof.
  intros Hsty Hshape Hr Hr'.
  apply render_html_ok in Hr as (rows & html & _ & Hrows & Hread & -> & _).
  apply render_html_ok in Hr' as (rows' & html' & _ & Hrows' & Hread' & -> & _).
  rewrite Hread in Hread'. injection Hread' as <-.
  rewrite !substitute_chain. unfold same_markup.
  rewrite !(markup_replace_neutral (old := "{{style_href}}"))
    by (try discriminate; try reflexivity; exact Hsty).
  assert (Hlen : List.length accounts = List.length accounts').
  { rewrite <- (length_map shape_of accounts), Hshape. apply length_map. }
  rewrite Hlen.
  apply markup_replace_congr.
  destruct (build_rows_fine _ Hrows) as (Hm & _ & He).
  destruct (build_rows_fine _ Hrows') as (Hm' & _ & He').
  assert (Hemp : is_empty rows = is_empty rows').
  { rewrite He, He'. destruct accounts, accounts'; try discriminate; reflexivity. }
  rewrite <- Hemp. destruct (is_empty rows); [reflexivity|].
  unfold same_markup in Hm, Hm'. rewrite Hm, Hm'.
  rewrite <- !(map_map shape_of row_skeleton), Hshape. reflexivity.
Qed.

End Document.

End DocumentFacts.

(** ** Timestamps *)

(** C3.  [normalize_datetime] maps ["2023-05-01T12:00:00Z"] to
    ["05/01/2023 12:00 PM"] (the [Z] is turned into [+00:00] before parsing);
    whatever the runtime, a non-empty string that fails to parse comes back
    unchanged, a string that parses is formatted with the stamp format, and
    [None] and the empty string give the empty string. *)
Theorem normalize_datetime_scenarios :
  @normalize_datetime Reference.runtime (VStr "2023-05-01T12:00:00Z")
  = Ok "05/01/2023 12:00 PM"
  /\ str_replace "Z" "+00:00" "2023-05-01T12:00:00Z" = "2023-05-01T12:00:00+00:00"
  /\ @normalize_datetime Reference.runtime (VStr "not-a-date") = Ok "not-a-date"
  /\ (forall (R : Runtime) (s : string),
        s <> "" ->
        fromisoformat (str_replace "Z" "+00:00" s) = None ->
        normalize_datetime (VStr s) = Ok s)
  /\ (forall (R : Runtime) (s : string) (dt : datetime),
        s <> "" ->
        fromisoformat (str_replace "Z" "+00:00" s) = Some dt ->
        normalize_datetime (VStr s) = Ok (strftime dt "%m/%d/%Y %I:%M %p"))
  /\ (forall R : Runtime,
        normalize_datetime VNone = Ok "" /\ normalize_datetime (VStr "") = Ok "").
Proof.
  split; [reflexivity|]. split; [reflexivity|]. split; [reflexivity|].
  split; [|split].
  - intros R s Hs Hp. unfold normalize_datetime.
    destruct s as [|c s]; [now destruct Hs|]. cbn [Py.truthy is_empty negb].
    now rewrite Hp.
  - intros R s dt Hs Hp. unfold normalize_datetime.
    destruct s as [|c s]; [now destruct Hs|]. cbn [Py.truthy is_empty negb].
    now rewrite Hp.
  - intros R. split; reflexivity.
Qed.

Lemma normalize_datetime_scenarios_witness :
  @normalize_datetime Reference.runtime (VStr "2023-13-01T12:00:00Z")
  = Ok "2023-13-01T12:00:00Z".
Proof.
  apply (proj1 (proj2 (proj2 (proj2 normalize_datetime_scenarios)))
           Reference.runtime "2023-13-01T12:00:00Z");
    [discriminate | reflexivity].
Defined.

(** ** The folder of a record *)

Module NormalizerFacts.
Import RowFacts.

Lemma bind_ext {A B} (c : result A) (k k' : A -> result B) :
  (forall a, c = Ok a -> k a = k' a) -> bind c k = bind c k'.
Proof. destruct c as [a|e]; simpl; [intros Hk; now apply Hk | reflexivity]. Qed.

Lemma or_falsy (v d : pyval) : Py.truthy v = false -> Py.or_ v d = d.
Proof. unfold Py.or_. now intros ->. Qed.

Lemma dict_get_found (folders : Py.dict) (k v : pyval) :
  Py.dict_lookup folders k = Some v ->
  Py.dict_get folders k = if Py.hashable k then Ok v else Raise TypeError.
Proof. unfold Py.dict_get. now intros ->. Qed.

Lemma dict_get_missing (folders : Py.dict) (k : pyval) :
  Py.dict_lookup folders k = None ->
  Py.dict_get folders k = if Py.hashable k then Ok VNone else Raise TypeError.
Proof. unfold Py.dict_get. now intros ->. Qed.

End NormalizerFacts.

(** C9.  An item whose [folderId] resolves to a folder with an empty (or
    missing, or [null]) name gets the folder ["No folder"]: the record is the
    one the item gets from a mapping in which its [folderId] does not
    resolve at all. *)
Theorem empty_folder_name_is_no_folder
        (R : Runtime) (folders folders' : Py.dict) (item fid v : pyval) :
  Py.get item "folderId" = Ok fid ->
  Py.dict_lookup folders fid = Some v ->
  Py.truthy v = false ->
  Py.dict_lookup folders' fid = None ->
  account_of_item folders item = account_of_item folders' item
  /\ forall acc, account_of_item folders item = Ok acc -> folder acc = VStr "No folder".
Proof.
  intros Hfid Hv Hfalsy Hnone.
  pose proof (NormalizerFacts.dict_get_found _ _ Hv) as Hget.
  pose proof (NormalizerFacts.dict_get_missing _ _ Hnone) as Hget'.
  split.
  - unfold account_of_item.
    do 10 (apply NormalizerFacts.bind_ext; intros ? _).
    apply NormalizerFacts.bind_ext; intros fid' Hfid'.
    rewrite Hfid in Hfid'. injection Hfid' as <-.
    rewrite Hget, Hget'. destruct (Py.hashable fid); [|reflexivity].
    cbn [bind].
    repeat (apply NormalizerFacts.bind_ext; intros ? _).
    rewrite (@NormalizerFacts.or_falsy v (VStr "No folder") Hfalsy).
    reflexivity.
  - intros acc Hacc. unfold account_of_item in Hacc.
    repeat (let x := fresh "x" in let E := fresh "E" in
            apply RowFacts.bind_ok in Hacc as (x & E & Hacc)).
    injection Hacc as <-. cbn [folder].
    match goal with
    | E1 : Py.get item "folderId" = Ok ?a, E2 : Py.dict_get folders ?a = Ok ?b |- _ =>
        rewrite Hfid in E1; injection E1 as <-; rewrite Hget in E2;
        destruct (Py.hashable fid); [injection E2 as <- | discriminate]
    end.
    now apply NormalizerFacts.or_falsy.
Qed.

Lemma empty_folder_name_is_no_folder_witness :
  @account_of_item Reference.runtime
    [(VStr "f1", VStr "")] (VDict [("name", VStr "mail"); ("folderId", VStr "f1")])
  = @account_of_item Reference.runtime
      [] (VDict [("name", VStr "mail"); ("folderId", VStr "f1")])
  /\ forall acc,
       @account_of_item Reference.runtime
         [(VStr "f1", VStr "")] (VDict [("name", VStr "mail"); ("folderId", VStr "f1")])
       = Ok acc ->
       folder acc = VStr "No folder".
Proof.
  apply (@empty_folder_name_is_no_folder Reference.runtime
           [(VStr "f1", VStr "")] []
           (VDict [("name", VStr "mail"); ("folderId", VStr "f1")])
           (VStr "f1") (VStr "")); reflexivity.
Defined.

(** ** Sorting *)

Module OrderFacts.

Lemma ascii_compare_refl (a : ascii) : Ascii.compare a a = Eq.
Proof. apply N.compare_refl. Qed.

Lemma ascii_lt_trans (a b c : ascii) :
  Ascii.compare a b = Lt -> Ascii.compare b c = Lt -> Ascii.compare a c = Lt.
Proof.
  unfold Ascii.compare. rewrite !N.compare_lt_iff. apply N.lt_trans.
Qed.

Lemma str_compare_refl (s : string) : String.compare s s = Eq.
Proof.
  induction s as [|c s IH]; simpl; [reflexivity|].
  now rewrite ascii_compare_refl.
Qed.

Lemma str_lt_trans (s t u : string) :
  String.compare s t = Lt -> String.compare t u = Lt -> String.compare s u = Lt.
Proof.
  revert t u. induction s as [|a s IH]; intros [|b t] [|c u]; simpl;
    try discriminate; try reflexivity.
  destruct (Ascii.compare a b) eqn:Hab; try discriminate;
    destruct (Ascii.compare b c) eqn:Hbc; try discriminate; intros H1 H2.
  - apply Ascii.compare_eq_iff in Hab, Hbc. subst.
    rewrite ascii_compare_refl. now apply (IH t u).
  - apply Ascii.compare_eq_iff in Hab. subst. now rewrite Hbc.
  - apply Ascii.compare_eq_iff in Hbc. subst. now rewrite Hab.
  - now rewrite (ascii_lt_trans _ _ _ Hab Hbc).
Qed.

Lemma ltb_lt (s t : string) : String.ltb s t = true <-> String.compare s t = Lt.
Proof. unfold String.ltb. destruct (String.compare s t); split; congruence. Qed.

Lemma ltb_irrefl (s : string) : String.ltb s s = false.
Proof. unfold String.ltb. now rewrite str_compare_refl. Qed.

Lemma ltb_trans (s t u : string) :
  String.ltb s t = true -> String.ltb t u = true -> String.ltb s u = true.
Proof. rewrite !ltb_lt. apply str_lt_trans. Qed.

Lemma ltb_trichotomy (s t : string) :
  String.ltb s t = true \/ s = t \/ String.ltb t s = true.
Proof.
  rewrite !ltb_lt. rewrite (String.compare_antisym t s).
  destruct (String.compare s t) eqn:Hc; simpl; auto.
  right; left. now apply String.compare_eq_iff.
Qed.

(** [<] on the sort keys is a strict total order. *)
Lemma key_ltb_irrefl (k : string * string) : key_ltb k k = false.
Proof. unfold key_ltb. rewrite String.eqb_refl. apply ltb_irrefl. Qed.

Lemma key_ltb_trans (a b c : string * string) :
  key_ltb a b = true -> key_ltb b c = true -> key_ltb a c = true.
Proof.
  destruct a as [a1 a2], b as [b1 b2], c as [c1 c2]. unfold key_ltb; simpl.
  destruct (String.eqb_spec a1 b1), (String.eqb_spec b1 c1), (String.eqb_spec a1 c1);
    subst; intros H1 H2; try contradiction; try assumption.
  - now apply (ltb_trans _ b2).
  - pose proof (ltb_trans _ _ _ H1 H2) as H3. now rewrite ltb_irrefl in H3.
  - now apply (ltb_trans _ b1).
Qed.

Lemma key_ltb_trichotomy (a b : string * string) :
  key_ltb a b = true \/ a = b \/ key_ltb b a = true.
Proof.
  destruct a as [a1 a2], b as [b1 b2]. unfold key_ltb; simpl.
  rewrite (String.eqb_sym b1 a1).
  destruct (String.eqb_spec a1 b1) as [->|Hne].
  - destruct (ltb_trichotomy a2 b2) as [H|[->|H]]; auto.
  - destruct (ltb_trichotomy a1 b1) as [H|[->|H]]; auto; contradiction.
Qed.

End OrderFacts.

Module SortFacts.

Section Insertion.
Context {K A : Type} (ltb : K -> K -> bool).
Hypothesis irrefl : forall k, ltb k k = false.
Hypothesis trans : forall a b c, ltb a b = true -> ltb b c = true -> ltb a c = true.
Hypothesis trichotomy : forall a b, ltb a b = true \/ a = b \/ ltb b a = true.

Local Abbreviation le := (precedes ltb).

Lemma le_trans (x y z : K * A) : le x y -> le y z -> le x z.
Proof.
  unfold precedes. intros Hxy Hyz.
  destruct (ltb (fst z) (fst x)) eqn:Hzx; [|reflexivity].
  destruct (trichotomy (fst z) (fst y)) as [H|[H|H]].
  - congruence.
  - rewrite <- H in Hxy. congruence.
  - rewrite (@trans _ _ _ H Hzx) in Hxy. discriminate.
Qed.

Lemma lt_le (x y : K * A) : ltb (fst x) (fst y) = true -> le x y.
Proof.
  unfold precedes. intros H. destruct (ltb (fst y) (fst x)) eqn:Hyx; [|reflexivity].
  pose proof (@trans _ _ _ H Hyx) as Hxx. now rewrite irrefl in Hxx.
Qed.

Lemma insert_perm (x : K * A) (l : list (K * A)) :
  Permutation (x :: l) (insert ltb x l).
Proof.
  induction l as [|y l IH]; simpl; [reflexivity|].
  destruct (ltb (fst y) (fst x)); [|reflexivity].
  rewrite perm_swap. now constructor.
Qed.

Lemma sort_perm (l : list (K * A)) : Permutation l (sort ltb l).
Proof.
  induction l as [|x l IH]; simpl; [constructor|].
  rewrite <- insert_perm. now constructor.
Qed.

Lemma insert_sorted (x : K * A) (l : list (K * A)) :
  StronglySorted le l -> StronglySorted le (insert ltb x l).
Proof.
  induction 1 as [|y l Hs IH Hy]; simpl.
  - repeat constructor.
  - destruct (ltb (fst y) (fst x)) eqn:Hyx.
    + constructor; [exact IH|].
      apply (Permutation_Forall (insert_perm x l)).
      constructor; [now apply lt_le | exact Hy].
    + constructor; [now constructor|].
      constructor; [exact Hyx|].
      apply (Forall_impl _ (fun z Hz => @le_trans x y z Hyx Hz) Hy).
Qed.

Lemma sort_sorted (l : list (K * A)) : StronglySorted le (sort ltb l).
Proof.
  induction l as [|x l IH]; simpl; [constructor | now apply insert_sorted].
Qed.

(** In a sorted list an element with a smaller key stands first. *)
Lemma sorted_positions (l : list (K * A)) (i j : nat) (x y : K * A) :
  StronglySorted le l ->
  nth_error l i = Some x -> nth_error l j = Some y ->
  ltb (fst x) (fst y) = true -> i < j.
Proof.
  intros Hs. revert i j. induction Hs as [|z l Hs IH Hz]; intros i j Hi Hj Hlt.
  - destruct i; discriminate.
  - destruct i as [|i], j as [|j]; simpl in Hi, Hj.
    + injection Hi as <-. injection Hj as <-. now rewrite irrefl in Hlt.
    + lia.
    + injection Hj as <-. apply nth_error_In in Hi.
      rewrite Forall_forall in Hz. specialize (Hz _ Hi). unfold precedes in Hz. congruence.
    + apply -> Nat.succ_lt_mono. now apply IH.
Qed.

(** Stability: the records selected by a predicate that picks one key
    keep their order. *)
Section Stable.
Variable p : K * A -> bool.
Hypothesis one_key :
  forall x y, p x = true -> p y = true -> ltb (fst x) (fst y) = false.

Lemma insert_filter (x : K * A) (l : list (K * A)) :
  filter p (insert ltb x l) = filter p (x :: l).
Proof.
  induction l as [|y l IH]; [reflexivity|].
  cbn [insert]. destruct (ltb (fst y) (fst x)) eqn:Hyx; [|reflexivity].
  cbn [filter] in *. rewrite IH.
  destruct (p y) eqn:Hpy, (p x) eqn:Hpx; try reflexivity.
  rewrite (@one_key _ _ Hpy Hpx) in Hyx. discriminate.
Qed.

Lemma sort_filter (l : list (K * A)) : filter p (sort ltb l) = filter p l.
Proof.
  induction l as [|x l IH]; [reflexivity|].
  cbn [sort]. rewrite insert_filter. cbn [filter]. now rewrite IH.
Qed.
End Stable.

End Insertion.

End SortFacts.

(** ** The order of the account list *)

Module CollectFacts.
Import RowFacts OrderFacts SortFacts.

Lemma nth_error_map_inv {A B} (f : A -> B) (l : list A) (i : nat) (b : B) :
  nth_error (map f l) i = Some b -> exists a, nth_error l i = Some a /\ f a = b.
Proof.
  rewrite nth_error_map. destruct (nth_error l i) as [a|]; simpl; [|discriminate].
  intros [= <-]. now exists a.
Qed.

Section Collect.
Context `{Runtime}.

Lemma sort_key_ok (e : account) (k : string * string) :
  sort_key e = Ok k ->
  exists fs ns, folder e = VStr fs /\ name e = VStr ns /\ k = (lower fs, lower ns).
Proof.
  unfold sort_key, py_lower.
  destruct (folder e) as [| | | |fs| |]; try discriminate.
  destruct (name e) as [| | | |ns| |]; try discriminate.
  simpl. intros [= <-]. now exists fs, ns.
Qed.

(** The decorated list holds the records in their order, each with its
    key. *)
Lemma keyed_ok (l : list account) (keyed : list (string * string * account)) :
  mapM (fun e => k <- sort_key e ;; Ok (k, e)) l = Ok keyed ->
  map snd keyed = l /\ Forall (fun ke => sort_key (snd ke) = Ok (fst ke)) keyed.
Proof.
  revert keyed. induction l as [|e l IH]; intros keyed Hk; simpl in Hk.
  - injection Hk as <-. split; constructor.
  - inv_bind Hk as ke Hke. inv_bind Hk as rest Hrest. injection Hk as <-.
    inv_bind Hke as k Hkey. injection Hke as <-.
    destruct (IH _ Hrest) as [Hm Hf]. split.
    + simpl. now rewrite Hm.
    + constructor; [exact Hkey | exact Hf].
Qed.

Lemma with_key_eq (k : string * string) (ke : string * string * account) :
  with_key k ke = true -> fst ke = k.
Proof.
  unfold with_key. destruct ke as [[f n] e], k as [kf kn]; simpl.
  intros Hk. apply andb_true_iff in Hk as [Hf Hn].
  apply String.eqb_eq in Hf, Hn. now subst.
Qed.

Lemma filter_keyed (k : string * string) (l : list (string * string * account)) :
  Forall (fun ke => sort_key (snd ke) = Ok (fst ke)) l ->
  filter (keyed_as k) (map snd l) = map snd (filter (with_key k) l).
Proof.
  induction 1 as [|ke l Hke Hl IH]; [reflexivity|].
  cbn [map filter]. rewrite IH.
  replace (keyed_as k (snd ke)) with (with_key k ke);
    [now destruct (with_key k ke)|].
  unfold keyed_as. now rewrite Hke.
Qed.

End Collect.

End CollectFacts.

(** C4.  The list [collect_accounts] returns is a permutation of the
    records in item order; a record whose lower-cased folder is below that of
    another stands before it, and so does, among records with the same
    lower-cased folder, one whose lower-cased name is below; records with the
    same key keep their item order.  The folder of a record is a text (the
    sentinel when nothing better was found) and is lower-cased as it is. *)
Theorem accounts_are_sorted (R : Runtime) (payload : pyval) (out : list account) :
  collect_accounts payload = Ok out ->
  exists unsorted,
    build_accounts payload = Ok unsorted
    /\ Permutation unsorted out
    /\ (forall k, filter (keyed_as k) out = filter (keyed_as k) unsorted)
    /\ (forall i j A B,
          nth_error out i = Some A -> nth_error out j = Some B ->
          exists fA nA fB nB,
            folder A = VStr fA /\ name A = VStr nA
            /\ folder B = VStr fB /\ name B = VStr nB
            /\ (String.ltb (lower fA) (lower fB) = true -> i < j)
            /\ (lower fA = lower fB ->
                String.ltb (lower nA) (lower nB) = true -> i < j)).
Proof.
  unfold collect_accounts. intros Hc.
  apply RowFacts.bind_ok in Hc as (unsorted & Hbuild & Hsort).
  exists unsorted. split; [exact Hbuild|].
  unfold sort_accounts in Hsort.
  apply RowFacts.bind_ok in Hsort as (keyed & Hkeyed & Hout). injection Hout as <-.
  destruct (CollectFacts.keyed_ok _ Hkeyed) as [Hmap Hkeys].
  pose proof (SortFacts.sort_perm key_ltb keyed) as Hperm.
  assert (Hkeys' : Forall (fun ke => sort_key (snd ke) = Ok (fst ke)) (sort key_ltb keyed))
    by exact (Permutation_Forall Hperm Hkeys).
  pose proof (@SortFacts.sort_sorted _ account key_ltb OrderFacts.key_ltb_irrefl
                OrderFacts.key_ltb_trans OrderFacts.key_ltb_trichotomy keyed) as Hsorted.
  split; [|split].
  - rewrite <- Hmap. now apply Permutation_map.
  - intros k. rewrite <- Hmap.
    rewrite !CollectFacts.filter_keyed by assumption.
    f_equal. apply SortFacts.sort_filter.
    intros x y Hx Hy. apply CollectFacts.with_key_eq in Hx, Hy.
    rewrite Hx, Hy. apply OrderFacts.key_ltb_irrefl.
  - intros i j A B Hi Hj.
    apply CollectFacts.nth_error_map_inv in Hi as (keA & HiA & <-).
    apply CollectFacts.nth_error_map_inv in Hj as (keB & HjB & <-).
    rewrite Forall_forall in Hkeys'.
    pose proof (Hkeys' _ (nth_error_In _ _ HiA)) as HkA.
    pose proof (Hkeys' _ (nth_error_In _ _ HjB)) as HkB.
    destruct (CollectFacts.sort_key_ok _ HkA) as (fA & nA & HfA & HnA & HeA).
    destruct (CollectFacts.sort_key_ok _ HkB) as (fB & nB & HfB & HnB & HeB).
    exists fA, nA, fB, nB. repeat (split; [assumption|]).
    split.
    + intros Hlt.
      apply (@SortFacts.sorted_positions _ _ key_ltb OrderFacts.key_ltb_irrefl _ _ _ _ _ Hsorted HiA HjB).
      rewrite HeA, HeB. unfold key_ltb; simpl.
      destruct (String.eqb_spec (lower fA) (lower fB)) as [Heq|]; [|exact Hlt].
      rewrite Heq, OrderFacts.ltb_irrefl in Hlt. discriminate.
    + intros Heq Hlt.
      apply (@SortFacts.sorted_positions _ _ key_ltb OrderFacts.key_ltb_irrefl _ _ _ _ _ Hsorted HiA HjB).
      rewrite HeA, HeB. unfold key_ltb; simpl.
      now rewrite Heq, String.eqb_refl.
Qed.

Lemma accounts_are_sorted_witness :
  exists unsorted,
    @build_accounts Reference.runtime Sample.export = Ok unsorted
    /\ Permutation unsorted Sample.normalized
    /\ (forall k, filter (@keyed_as Reference.runtime k) Sample.normalized
                  = filter (@keyed_as Reference.runtime k) unsorted)
    /\ (forall i j A B,
          nth_error Sample.normalized i = Some A ->
          nth_error Sample.normalized j = Some B ->
          exists fA nA fB nB,
            folder A = VStr fA /\ name A = VStr nA
            /\ folder B = VStr fB /\ name B = VStr nB
            /\ (String.ltb (Reference.lower_text fA) (Reference.lower_text fB) = true -> i < j)
            /\ (Reference.lower_text fA = Reference.lower_text fB ->
                String.ltb (Reference.lower_text nA) (Reference.lower_text nB) = true ->
                i < j)).
Proof.
  apply (@accounts_are_sorted Reference.runtime Sample.export Sample.normalized).
  vm_compute. reflexivity.
Defined.

(** The sorted sample: folders in the order alpha, no folder, work; the two
    records named mail keep their item order. *)
Example sample_order :
  map (fun a => (folder a, name a, username a)) Sample.normalized =
  [ (VStr "alpha", VStr "beta", VStr "");
    (VStr "No folder", VStr "(untitled)", VStr "");
    (VStr "No folder", VStr "solo", VStr "");
    (VStr "Work", VStr "mail", VStr "first");
    (VStr "Work", VStr "Mail", VStr "second");
    (VStr "Work", VStr "Zeta", VStr "") ].
Proof. vm_compute. reflexivity. Qed.

(** ** What the normalizer accepts *)

Module TotalFacts.
Import Schema.








Section Total.
Context `{Runtime}.





End Total.

End TotalFacts.




(** An item with no key at all gets every default. *)
Example absent_values_degrade_to_defaults (R : Runtime) :
  collect_accounts (VDict [("items", VList [VDict []])])
  = Ok [ {| name := VStr "(untitled)"; type := "Unknown"; folder := VStr "No folder";
            favorite := false; username := VStr ""; password := VStr "";
            totp := VStr ""; uris := []; notes := VStr ""; last_modified := "";
            created := ""; fields := [] |} ].
Proof. reflexivity. Qed.

(** Values of the wrong type that count as false are accepted like absent
    ones: a login that is [0], a name that is the empty list, a date that is
    [false], fields that are the empty string. *)
Example falsy_values_of_any_type_are_accepted (R : Runtime) :
  collect_accounts
    (VDict [("items",
             VList [VDict [("login", VInt 0); ("name", VList []);
                           ("creationDate", VBool false); ("fields", VStr "")]])])
  = Ok [ {| name := VStr "(untitled)"; type := "Unknown"; folder := VStr "No folder";
            favorite := false; username := VStr ""; password := VStr "";
            totp := VStr ""; uris := []; notes := VStr ""; last_modified := "";
            created := ""; fields := [] |} ].
Proof. reflexivity. Qed.

(** ** Occurrences and replacement *)

Module OccursFacts.
Import TextFacts.

Lemma occurs_refl_app (x pre post : string) : occurs x (pre ++ x ++ post).
Proof. now exists pre, post. Qed.

Lemma occurs_app_l (x a s : string) : occurs x s -> occurs x (a ++ s).
Proof.
  intros (pre & post & ->). exists (a ++ pre), post. now rewrite app_assoc.
Qed.

Lemma occurs_cons (x : string) (c : ascii) (s : string) :
  occurs x s -> occurs x (String c s).
Proof. apply (occurs_app_l (String c "")). Qed.

(** A replaced text has the replacement wherever the pattern was. *)
Lemma occurs_replaced (a : ascii) (o new s : string) :
  occurs (String a o) s -> occurs new (str_replace (String a o) new s).
Proof.
  induction s as [| r IH | c s Hp IH] using (str_replace_ind a o).
  - intros (pre & post & Heq). destruct pre; discriminate.
  - intros _. rewrite str_replace_match. now exists "", (str_replace (String a o) new r).
  - intros (pre & post & Heq). rewrite str_replace_step by exact Hp.
    apply occurs_cons. apply IH. destruct pre as [|d pre].
    + simpl in Heq. rewrite Heq in Hp.
      change (String a (o ++ post)) with (String a o ++ post) in Hp.
      now rewrite prefix_app in Hp.
    + injection Heq as _ ->. now exists pre, post.
Qed.

(** Two ways to split a text meet. *)
Lemma app_eq_split (a r pre rest : string) :
  a ++ r = pre ++ rest ->
  (exists m, a = pre ++ m /\ rest = m ++ r)
  \/ (exists m, pre = a ++ m /\ r = m ++ rest).
Proof.
  revert pre. induction a as [|c a IH]; intros pre Heq.
  - right. now exists pre.
  - destruct pre as [|d pre].
    + left. now exists (String c a).
    + injection Heq as -> Heq. destruct (IH _ Heq) as [(m & -> & ->)|(m & -> & ->)].
      * left. now exists m.
      * right. now exists m.
Qed.

Lemma app_eq_compat (a r b t : string) : a ++ r = b ++ t -> compat a b = true.
Proof.
  intros Heq. unfold compat. apply orb_true_iff.
  destruct (app_eq_split _ _ _ _ Heq) as [(m & -> & _)|(m & -> & _)].
  - right. apply prefix_app.
  - left. apply prefix_app.
Qed.

Lemma suffix_in (p m : string) : m <> "" -> In m (suffixes (p ++ m)).
Proof.
  intros Hm. induction p as [|c p IH]; simpl.
  - destruct m; [contradiction | now left].
  - now right.
Qed.

Section Survive.
Variables (a : ascii) (o new x : string).
Let old := String a o.
Hypothesis clash_free : no_clash old x = true.

Lemma no_match_inside (w post : string) :
  In w (suffixes x) -> prefix old (w ++ post) = false.
Proof.
  intros Hw. destruct (prefix old (w ++ post)) eqn:Hp; [|reflexivity].
  apply prefix_split in Hp as [r Hr]. symmetry in Hr. apply app_eq_compat in Hr.
  pose proof clash_free as Hcf.
  unfold no_clash in Hcf. apply andb_true_iff in Hcf as [_ Hx].
  rewrite forallb_forall in Hx. specialize (Hx _ Hw). now rewrite Hr in Hx.
Qed.

(** The scan copies an occurrence of [x] as it is. *)
Lemma replace_through (w post : string) :
  (forall v, In v (suffixes w) -> In v (suffixes x)) ->
  str_replace old new (w ++ post) = w ++ str_replace old new post.
Proof.
  induction w as [|c w IH]; intros Hsub; [reflexivity|].
  change (String c w ++ post) with (String c (w ++ post)).
  unfold old. rewrite str_replace_step.
  - fold old. rewrite IH; [reflexivity|]. intros v Hv. apply Hsub. now right.
  - apply (no_match_inside (String c w) post). apply Hsub. now left.
Qed.

(** An occurrence of [x] survives the replacement of [old]. *)
Lemma occurs_survives (s : string) :
  occurs x s -> occurs x (str_replace old new s).
Proof.
  destruct (string_dec x "") as [Hx0|Hne];
    [intros _; exists "", (str_replace old new s); now rewrite Hx0|].
  assert (Hin : In x (suffixes x)) by (destruct x; [contradiction | now left]).
  induction s as [| r IH | c s Hp IH] using (str_replace_ind a o).
  - intros (pre & post & Heq). destruct pre; [|discriminate].
    destruct x; [contradiction | discriminate].
  - intros (pre & post & Heq). unfold old. rewrite str_replace_match.
    apply occurs_app_l. apply IH. fold old in Heq.
    destruct (app_eq_split _ _ _ _ Heq) as [(m & Hold & Hrest)|(m & -> & ->)].
    + destruct m as [|d m].
      * simpl in Hrest. rewrite <- Hrest. now exists "", post.
      * exfalso. symmetry in Hrest. apply app_eq_compat in Hrest.
        pose proof clash_free as Hcf.
        unfold no_clash in Hcf. apply andb_true_iff in Hcf as [Ho Hw].
        destruct pre as [|e pre].
        { simpl in Hold. rewrite forallb_forall in Hw.
          specialize (Hw _ Hin). rewrite <- Hold in Hrest.
          now rewrite Hrest in Hw. }
        { rewrite forallb_forall in Ho.
          assert (Hin' : In (String d m) (tl (suffixes old))).
          { rewrite Hold. simpl. apply suffix_in. discriminate. }
          specialize (Ho _ Hin'). now rewrite Hrest in Ho. }
    + now exists m, post.
  - intros (pre & post & Heq). destruct pre as [|d pre].
    + simpl in Heq. rewrite Heq.
      rewrite replace_through by auto. now exists "", (str_replace old new post).
    + injection Heq as _ ->. unfold old. rewrite str_replace_step by exact Hp.
      apply occurs_cons. apply IH. now exists pre, post.
Qed.

End Survive.

End OccursFacts.

(** ** Placeholders *)

Module PlaceholderFacts.

Lemma no_items_no_accounts `{Runtime} (payload : pyval) (accounts : list account) :
  Py.get_default payload "items" (VList []) = Ok (VList []) ->
  collect_accounts payload = Ok accounts ->
  accounts = [].
Proof.
  intros Hitems Hc. unfold collect_accounts, build_accounts in Hc.
  apply RowFacts.bind_ok in Hc as (unsorted & Hb & Hs).
  apply RowFacts.bind_ok in Hb as (fs & _ & Hb).
  apply RowFacts.bind_ok in Hb as (fl & _ & Hb).
  apply RowFacts.bind_ok in Hb as (folders & _ & Hb).
  rewrite Hitems in Hb. cbn in Hb. injection Hb as <-.
  cbn in Hs. now injection Hs as <-.
Qed.

End PlaceholderFacts.

(** C7.  For an export whose list of items is empty the account list is
    empty, the rows placeholder is replaced by the row reading "No entries
    found" that spans both columns, and the count placeholder by ["0"]: a
    template with the rows placeholder gives a document with that row. *)
Theorem empty_export_renders_placeholder_row
        (R : Runtime) (H : Host) (payload : pyval) (accounts : list account)
        (title : string) (st st' : state) (doc : string) :
  Py.get_default payload "items" (VList []) = Ok (VList []) ->
  collect_accounts payload = Ok accounts ->
  render_html accounts title st = (Ok doc, st') ->
  accounts = []
  /\ exists html,
       read_text (fst st) TEMPLATE_PATH = Ok html
       /\ doc = str_replace "{{style_href}}" (as_uri STYLE_PATH)
                  (str_replace "{{rows}}" EMPTY_ROW
                     (str_replace "{{count}}" "0"
                        (str_replace "{{generated}}"
                           (strftime (datetime_now (fst st)) STAMP)
                           (str_replace "{{title}}" (escape_str title) html))))
       /\ (occurs "{{rows}}" html -> occurs EMPTY_ROW doc)
       /\ EMPTY_ROW = "<tr><td colspan=" ++ quoted "2" ++ " class=" ++ quoted "empty"
                      ++ ">No entries found</td></tr>".
Proof.
  intros Hitems Hc Hr.
  pose proof (PlaceholderFacts.no_items_no_accounts _ Hitems Hc) as ->.
  split; [reflexivity|].
  apply DocumentFacts.render_html_ok in Hr as (rows & html & _ & Hrows & Hread & -> & _).
  cbn in Hrows. injection Hrows as <-.
  exists html. split; [exact Hread|].
  rewrite DocumentFacts.substitute_chain. cbn [is_empty List.length].
  split; [reflexivity|]. split; [|reflexivity].
  intros Hocc.
  apply (@OccursFacts.occurs_survives "{" "{style_href}}" _ EMPTY_ROW eq_refl).
  apply (@OccursFacts.occurs_replaced "{" "{rows}}").
  apply (@OccursFacts.occurs_survives "{" "{count}}" _ "{{rows}}" eq_refl).
  apply (@OccursFacts.occurs_survives "{" "{generated}}" _ "{{rows}}" eq_refl).
  apply (@OccursFacts.occurs_survives "{" "{title}}" _ "{{rows}}" eq_refl).
  exact Hocc.
Qed.

Lemma empty_export_renders_placeholder_row_witness :
  @nil account = []
  /\ exists html,
       Sim.read Sample.bare "/app/templates/layout.html" = Ok html
       /\ Sample.rendered [] "Vault"
          = str_replace "{{style_href}}" "file:///app/styles/style.css"
              (str_replace "{{rows}}" EMPTY_ROW
                 (str_replace "{{count}}" "0"
                    (str_replace "{{generated}}" "05/01/2023 12:00 PM"
                       (str_replace "{{title}}" (escape_str "Vault") html))))
       /\ (occurs "{{rows}}" html -> occurs EMPTY_ROW (Sample.rendered [] "Vault"))
       /\ EMPTY_ROW = "<tr><td colspan=" ++ quoted "2" ++ " class=" ++ quoted "empty"
                      ++ ">No entries found</td></tr>".
Proof.
  apply (@empty_export_renders_placeholder_row Reference.runtime Sample.app
           (VDict [("items", VList [])]) [] "Vault" (Sample.bare, [])
           (snd (@render_html Reference.runtime Sample.app [] "Vault" (Sample.bare, []))));
    vm_compute; reflexivity.
Defined.

(** The document of the empty export on the sample host. *)
Example empty_export_document :
  Sample.rendered [] "Vault" =
  "<html><head><title>Vault</title><link rel=" ++ quoted "stylesheet"
  ++ " href=" ++ quoted "file:///app/styles/style.css" ++ "></head><body><h1>Vault</h1>"
  ++ "<p>05/01/2023 12:00 PM, 0 entries</p><table>" ++ EMPTY_ROW
  ++ "</table></body></html>".
Proof. vm_compute. reflexivity. Qed.

(** C10.  The placeholders are replaced one after the other over the whole
    text, in the order title, generated, count, rows, style_href, so a
    placeholder-shaped text that came in with an earlier value is replaced by
    a later step: the item named [{{style_href}}] is shown under the
    stylesheet's URI, and its name is nowhere in the document. *)
Theorem substitution_is_sequential
        (R : Runtime) (H : Host) (accounts : list account) (title : string)
        (st st' : state) (doc : string) :
  render_html accounts title st = (Ok doc, st') ->
  (exists rows html,
      build_rows accounts = Ok rows
      /\ read_text (fst st) TEMPLATE_PATH = Ok html
      /\ doc = str_replace "{{style_href}}" (as_uri STYLE_PATH)
                 (str_replace "{{rows}}" (if is_empty rows then EMPTY_ROW else rows)
                    (str_replace "{{count}}" (str_of_nat (List.length accounts))
                       (str_replace "{{generated}}"
                          (strftime (datetime_now (fst st)) STAMP)
                          (str_replace "{{title}}" (escape_str title) html)))))
  /\ (map name Sample.tokened = [VStr "{{style_href}}"]
      /\ index 0 ("<div class=" ++ quoted "entry-name" ++ ">file:///app/styles/style.css</div>")
               (Sample.rendered Sample.tokened "Vault") <> None
      /\ index 0 "{{style_href}}" (Sample.rendered Sample.tokened "Vault") = None).
Proof.
  intros Hr. split.
  - apply DocumentFacts.render_html_ok in Hr as (rows & html & _ & Hrows & Hread & -> & _).
    exists rows, html. split; [exact Hrows|]. split; [exact Hread|].
    apply DocumentFacts.substitute_chain.
  - vm_compute. split; [reflexivity|]. split; [discriminate | reflexivity].
Qed.

Lemma substitution_is_sequential_witness :
  (exists rows html,
      @build_rows Reference.runtime Sample.tokened = Ok rows
      /\ Sim.read Sample.bare "/app/templates/layout.html" = Ok html
      /\ Sample.rendered Sample.tokened "Vault"
         = str_replace "{{style_href}}" "file:///app/styles/style.css"
             (str_replace "{{rows}}" (if is_empty rows then EMPTY_ROW else rows)
                (str_replace "{{count}}" "1"
                   (str_replace "{{generated}}" "05/01/2023 12:00 PM"
                      (str_replace "{{title}}" (escape_str "Vault") html)))))
  /\ (map name Sample.tokened = [VStr "{{style_href}}"]
      /\ index 0 ("<div class=" ++ quoted "entry-name" ++ ">file:///app/styles/style.css</div>")
               (Sample.rendered Sample.tokened "Vault") <> None
      /\ index 0 "{{style_href}}" (Sample.rendered Sample.tokened "Vault") = None).
Proof.
  apply (@substitution_is_sequential Reference.runtime Sample.app
           Sample.tokened "Vault" (Sample.bare, [])
           (snd (@render_html Reference.runtime Sample.app Sample.tokened "Vault"
                   (Sample.bare, []))));
    vm_compute; reflexivity.
Defined.

(** ** Values are inserted escaped *)

Module PresenceFacts.
Import TextFacts OccursFacts.

Lemma occurs_trans (x y z : string) : occurs x y -> occurs y z -> occurs x z.
Proof.
  intros (p & q & ->) (p' & q' & ->). exists (p' ++ p), (q ++ q').
  now rewrite !app_assoc.
Qed.

Lemma occurs_app_r (x s b : string) : occurs x s -> occurs x (s ++ b).
Proof.
  intros (p & q & ->). exists p, (q ++ b). now rewrite !app_assoc.
Qed.

Lemma occurs_self (x : string) : occurs x x.
Proof. exists "", "". cbn. now rewrite app_nil_r. Qed.

Lemma occurs_concat (sep : string) (l : list string) (p : string) :
  In p l -> occurs p (String.concat sep l).
Proof.
  induction l as [|x l IH]; [contradiction|].
  intros [->|Hin].
  - destruct l; [apply occurs_self|]. cbn [String.concat].
    apply occurs_app_r, occurs_self.
  - destruct l as [|y l]; [contradiction|]. cbn [String.concat].
    apply occurs_app_l, occurs_app_l. now apply IH.
Qed.

Lemma entity_of_char (c : ascii) : escape_char c = entity_of c.
Proof. destruct c as [[] [] [] [] [] [] [] []]; reflexivity. Qed.

Lemma occurs_meta (t : string) (tags : list string) :
  In t tags -> occurs t (meta_html tags).
Proof.
  intros Hin. destruct tags as [|x tags]; [contradiction|].
  unfold meta_html. apply occurs_app_l, occurs_app_l, occurs_app_l, occurs_app_r.
  now apply occurs_concat.
Qed.

Lemma occurs_name_cell (n m c : string) : occurs (name_cell n) (row_html n m c).
Proof.
  unfold row_html. eapply occurs_trans; [|apply occurs_concat; right; left; reflexivity].
  exists "  <td>", (m ++ "</td>"). unfold name_cell. now rewrite !app_assoc.
Qed.

Lemma occurs_meta_cell (n m c : string) : occurs m (row_html n m c).
Proof.
  unfold row_html. eapply occurs_trans; [|apply occurs_concat; right; left; reflexivity].
  exists ("  <td><div class=" ++ quoted "entry-name" ++ ">" ++ n ++ "</div>"), "</td>".
  now rewrite !app_assoc.
Qed.

Lemma occurs_credentials_cell (n m c : string) : occurs c (row_html n m c).
Proof.
  unfold row_html.
  eapply occurs_trans; [|apply occurs_concat; right; right; left; reflexivity].
  now exists "  <td>", "</td>".
Qed.

Lemma occurs_username (u p x : string) : occurs (value_cell u) (credentials_html u p x).
Proof.
  unfold credentials_html.
  eapply occurs_trans; [|apply occurs_concat; do 3 right; left; reflexivity].
  exists "    ", "". unfold value_cell. now rewrite !app_assoc, app_nil_r.
Qed.

Lemma occurs_password (u p x : string) : occurs (value_cell p) (credentials_html u p x).
Proof.
  unfold credentials_html.
  eapply occurs_trans; [|apply occurs_concat; do 7 right; left; reflexivity].
  exists "    ", "". unfold value_cell. now rewrite !app_assoc, app_nil_r.
Qed.

Lemma occurs_extras (u p x : string) :
  is_empty x = false -> occurs x (credentials_html u p x).
Proof.
  intros Hx. unfold credentials_html. rewrite Hx.
  eapply occurs_trans; [|apply occurs_concat; do 9 right; left; reflexivity].
  exists ("  " ++ "<div class=" ++ quoted "credentials-extra" ++ ">"), "</div>".
  now rewrite !app_assoc.
Qed.

Lemma mapM_in {A B} (f : A -> result B) (l : list A) (ys : list B) (x : A) :
  mapM f l = Ok ys -> In x l -> exists y, f x = Ok y /\ In y ys.
Proof.
  revert ys. induction l as [|a l IH]; intros ys Hm Hin; [contradiction|].
  cbn [mapM] in Hm.
  apply RowFacts.bind_ok in Hm as (y & Hy & Hm).
  apply RowFacts.bind_ok in Hm as (rest & Hrest & Hm). injection Hm as <-.
  destruct Hin as [->|Hin].
  - exists y. split; [exact Hy | now left].
  - destruct (IH _ Hrest Hin) as (y' & Hy' & Hin'). exists y'. split; [exact Hy' | now right].
Qed.

Section Rows.
Context `{Runtime}.

Lemma escape_or_text (v : pyval) (d s x : string) :
  v = VStr s -> s <> "" -> escape (Py.or_ v (VStr d)) = Ok x -> x = escape_str s.
Proof.
  intros -> Hs. unfold Py.or_. cbn [Py.truthy].
  destruct s; [contradiction|]. cbn. now intros [= <-].
Qed.

Lemma render_meta_shows (e : account) (m : string) :
  render_meta e = Ok m ->
  (forall f, folder e = VStr f -> folder_shown e = true ->
             occurs (tag_html (escape_str f)) m)
  /\ (type e <> "" -> occurs (tag_html (escape_str (type e))) m).
Proof.
  unfold render_meta. intros Hr.
  apply RowFacts.bind_ok in Hr as (shown & Hshown & Hr).
  apply RowFacts.shown_spec in Hshown. subst shown.
  apply RowFacts.bind_ok in Hr as (tags1 & Htags1 & Hr).
  apply RowFacts.bind_ok in Hr as (tags2 & Htags2 & Hr).
  injection Hr as <-.
  assert (Hin : forall t, In t tags2 ->
                          In t (if favorite e then list_append tags2 FAVORITE_TAG else tags2)).
  { intros t Ht. destruct (favorite e); [|exact Ht].
    unfold list_append. apply in_or_app. now left. }
  assert (H12 : forall t, In t tags1 -> In t tags2).
  { intros t Ht. destruct (negb (is_empty (type e))).
    - apply RowFacts.bind_ok in Htags2 as (x & _ & Htags2). injection Htags2 as <-.
      unfold list_append. apply in_or_app. now left.
    - now injection Htags2 as <-. }
  split.
  - intros f Hf Hshown. rewrite Hshown, Hf in Htags1. cbn in Htags1.
    injection Htags1 as <-. apply occurs_meta, Hin, H12. now left.
  - intros Hty. destruct (type e) as [|c t] eqn:Et; [contradiction|].
    cbn in Htags2. injection Htags2 as <-.
    apply occurs_meta, Hin. unfold list_append. apply in_or_app. right. now left.
Qed.

Lemma render_credentials_extra_shows (e : account) (x : string) :
  render_credentials_extra e = Ok x ->
  (forall u rest, uris e = VStr u :: rest ->
                  is_empty x = false /\ occurs (url_html (escape_str u)) x)
  /\ (forall t, totp e = VStr t -> t <> "" ->
                is_empty x = false /\ occurs (totp_html (escape_str t)) x).
Proof.
  unfold render_credentials_extra. intros Hr.
  apply RowFacts.bind_ok in Hr as (bits1 & H1 & Hr).
  apply RowFacts.bind_ok in Hr as (bits2 & H2 & Hr).
  injection Hr as <-.
  assert (H12 : forall b, In b bits1 -> In b bits2).
  { intros b Hb. destruct (Py.truthy (totp e)).
    - apply RowFacts.bind_ok in H2 as (t & _ & H2). injection H2 as <-.
      unfold list_append. apply in_or_app. now left.
    - now injection H2 as <-. }
  assert (Hne : forall b, In b bits2 -> is_empty b = false ->
                          is_empty (String.concat nl bits2) = false).
  { intros b Hb Hbe. destruct bits2 as [|b0 [|b1 bits]]; [contradiction| |].
    - destruct Hb as [->|[]]. exact Hbe.
    - cbn [String.concat]. destruct b0; reflexivity. }
  split.
  - intros u rest Hu. rewrite Hu in H1. cbn in H1. injection H1 as <-.
    assert (Hin : In (url_html (escape_str u)) bits2) by (apply H12; now left).
    split; [now apply (Hne _ Hin) | now apply occurs_concat].
  - intros t Ht Hte. rewrite Ht in H2. cbn [Py.truthy] in H2.
    destruct t as [|c t]; [contradiction|]. cbn in H2. injection H2 as <-.
    assert (Hin : In (totp_html (escape_str (String c t)))
                     (list_append bits1 (totp_html (escape_str (String c t)))))
      by (unfold list_append; apply in_or_app; right; now left).
    split; [now apply (Hne _ Hin) | now apply occurs_concat].
Qed.

Lemma build_row_shows (e : account) (r : string) :
  build_row e = Ok r -> inserted_escaped e r.
Proof.
  unfold build_row, render_credentials_section. intros Hr.
  apply RowFacts.bind_ok in Hr as (n & Hn & Hr).
  apply RowFacts.bind_ok in Hr as (m & Hm & Hr).
  apply RowFacts.bind_ok in Hr as (c & Hc & Hr). injection Hr as <-.
  apply RowFacts.bind_ok in Hc as (u & Hu & Hc).
  apply RowFacts.bind_ok in Hc as (p & Hp & Hc).
  apply RowFacts.bind_ok in Hc as (x & Hx & Hc). injection Hc as <-.
  apply render_meta_shows in Hm as [Hfolder Htype].
  apply render_credentials_extra_shows in Hx as [Huri Htotp].
  unfold inserted_escaped. repeat match goal with |- _ /\ _ => split end.
  - intros s Hs Hne. rewrite (@escape_or_text _ _ _ _ Hs Hne Hn). apply occurs_name_cell.
  - intros s Hs Hne. rewrite (@escape_or_text _ _ _ _ Hs Hne Hu).
    eapply occurs_trans; [apply occurs_username | apply occurs_credentials_cell].
  - intros s Hs Hne. rewrite (@escape_or_text _ _ _ _ Hs Hne Hp).
    eapply occurs_trans; [apply occurs_password | apply occurs_credentials_cell].
  - intros s rest Hs. destruct (Huri _ _ Hs) as [Hxe Hocc].
    eapply occurs_trans; [exact Hocc|].
    eapply occurs_trans; [now apply occurs_extras | apply occurs_credentials_cell].
  - intros t Ht Hne. destruct (Htotp _ Ht Hne) as [Hxe Hocc].
    eapply occurs_trans; [exact Hocc|].
    eapply occurs_trans; [now apply occurs_extras | apply occurs_credentials_cell].
  - intros f Hf Hshown.
    eapply occurs_trans; [now apply Hfolder | apply occurs_meta_cell].
  - intros Hty. eapply occurs_trans; [now apply Htype | apply occurs_meta_cell].
Qed.

Lemma build_rows_show (accounts : list account) (rows : string) :
  build_rows accounts = Ok rows ->
  Forall (fun e => inserted_escaped e rows) accounts.
Proof.
  unfold build_rows. intros Hr.
  apply RowFacts.bind_ok in Hr as (parts & Hparts & Hr). injection Hr as <-.
  apply Forall_forall. intros e He.
  destruct (@mapM_in _ _ _ _ _ _ Hparts He) as (r & Hrow & Hin).
  pose proof (@build_row_shows _ _ Hrow) as Hs.
  pose proof (@occurs_concat nl _ _ Hin) as Hocc.
  unfold inserted_escaped in *.
  destruct Hs as (H1 & H2 & H3 & H4 & H5 & H6 & H7).
  repeat match goal with |- _ /\ _ => split end; intros;
    (eapply occurs_trans; [|exact Hocc]); eauto.
Qed.

End Rows.

Section Document.
Context `{Runtime} `{Host}.

(** A text of the rows that cannot overlap the last placeholder is in the
    document, if the template has a place for the rows. *)
Lemma rows_reach_the_document (accounts : list account)
      (title generated rows html x : string) :
  occurs "{{rows}}" html ->
  occurs x rows ->
  no_clash "{{style_href}}" x = true ->
  occurs x (substitute (replacements accounts title generated rows) html).
Proof.
  intros Hocc Hx Hclash. rewrite DocumentFacts.substitute_chain.
  apply (@occurs_survives "{" "{style_href}}" _ x Hclash).
  apply occurs_trans with (y := if is_empty rows then EMPTY_ROW else rows).
  - destruct rows as [|c rows]; [|exact Hx].
    destruct Hx as (p & q & Hx). destruct p; [|discriminate].
    destruct x; [|discriminate]. now exists "", EMPTY_ROW.
  - apply (@occurs_replaced "{" "{rows}}").
    apply (@occurs_survives "{" "{count}}" _ "{{rows}}" eq_refl).
    apply (@occurs_survives "{" "{generated}}" _ "{{rows}}" eq_refl).
    apply (@occurs_survives "{" "{title}}" _ "{{rows}}" eq_refl).
    exact Hocc.
Qed.

End Document.

End PresenceFacts.

(** C1.  A record's name, username, password, first URI, TOTP secret, folder
    and type label reach the rendered document through [html.escape] only,
    and they do reach it.  The rows show every such value in its cell in the
    escaped form, which is the value with each of [&], [<], [>] and the two
    quotes replaced by its character reference and every other character
    kept; the document is the template with the placeholders replaced, the
    rows among them, and a text of the rows is in the document whenever the
    template has the rows placeholder and the text cannot overlap the
    placeholder replaced last.  Conversely nothing of a value is markup:
    replacing the field values of the records by any others that fill the
    same holes (same shapes) leaves the sequence of the characters [<], [>],
    double and single quote of the document unchanged; in the rows every
    ampersand starts a character reference and the markup characters are those
    of the rows' skeletons; the title is inserted escaped as well.  The
    stylesheet URI is percent-encoded by [Path.as_uri], hence free of markup
    characters. *)
Theorem field_values_are_inserted_escaped
        (R : Runtime) (H : Host) (accounts accounts' : list account)
        (title : string) (st st1 st1' : state) (doc doc' : string) :
  markup_chars (as_uri STYLE_PATH) = [] ->
  map shape_of accounts = map shape_of accounts' ->
  render_html accounts title st = (Ok doc, st1) ->
  render_html accounts' title st = (Ok doc', st1') ->
  same_markup doc doc'
  /\ clean (escape_str title)
  /\ (exists rows html,
        build_rows accounts = Ok rows
        /\ amp_ok rows = true
        /\ same_markup rows
             (String.concat nl (map (fun e => row_skeleton (shape_of e)) accounts))
        /\ Forall (fun e => inserted_escaped e rows) accounts
        /\ read_text (fst st) TEMPLATE_PATH = Ok html
        /\ doc = substitute
                   (replacements accounts title
                      (strftime (datetime_now (fst st)) STAMP) rows)
                   html
        /\ (occurs "{{rows}}" html ->
            forall x, occurs x rows -> no_clash "{{style_href}}" x = true ->
                      occurs x doc))
  /\ escape_str "" = ""
  /\ (forall c s, escape_str (String c s) = entity_of c ++ escape_str s).
Proof.
  intros Hsty Hshape Hr Hr'.
  split; [exact (DocumentFacts.render_html_same_markup _ _ _ _ Hsty Hshape Hr Hr')|].
  split; [apply MarkupFacts.escape_str_clean|].
  split; [|split; [reflexivity|]].
  - apply DocumentFacts.render_html_ok in Hr as (rows & html & _ & Hrows & Hread & Hdoc & _).
    exists rows, html. destruct (RowFacts.build_rows_fine _ Hrows) as (Hm & Ha & _).
    split; [exact Hrows|]. split; [exact Ha|]. split; [exact Hm|].
    split; [now apply PresenceFacts.build_rows_show|].
    split; [exact Hread|]. split; [exact Hdoc|].
    intros Hocc x Hx Hclash. rewrite Hdoc.
    now apply PresenceFacts.rows_reach_the_document.
  - intros c s. rewrite MarkupFacts.escape_str_cons.
    now rewrite PresenceFacts.entity_of_char.
Qed.

Lemma field_values_are_inserted_escaped_witness :
  same_markup (Sample.rendered Sample.hostile "Vault <1>")
              (Sample.rendered Sample.harmless "Vault <1>")
  /\ clean (escape_str "Vault <1>")
  /\ (exists rows html,
        @build_rows Reference.runtime Sample.hostile = Ok rows
        /\ amp_ok rows = true
        /\ same_markup rows
             (String.concat nl
                (map (fun e => row_skeleton (@shape_of Reference.runtime e)) Sample.hostile))
        /\ Forall (fun e => @inserted_escaped Reference.runtime e rows) Sample.hostile
        /\ @read_text Sample.app Sample.bare (@TEMPLATE_PATH Sample.app) = Ok html
        /\ Sample.rendered Sample.hostile "Vault <1>"
           = substitute
               (@replacements Sample.app Sample.hostile "Vault <1>"
                  (@strftime Reference.runtime (@datetime_now Sample.app Sample.bare) STAMP)
                  rows)
               html
        /\ (occurs "{{rows}}" html ->
            forall x, occurs x rows -> no_clash "{{style_href}}" x = true ->
                      occurs x (Sample.rendered Sample.hostile "Vault <1>")))
  /\ escape_str "" = ""
  /\ (forall c s, escape_str (String c s) = entity_of c ++ escape_str s).
Proof.
  apply (@field_values_are_inserted_escaped Reference.runtime Sample.app
           Sample.hostile Sample.harmless "Vault <1>" (Sample.bare, [])
           (snd (@render_html Reference.runtime Sample.app Sample.hostile "Vault <1>"
                   (Sample.bare, [])))
           (snd (@render_html Reference.runtime Sample.app Sample.harmless "Vault <1>"
                   (Sample.bare, []))));
    vm_compute; reflexivity.
Defined.

(** The scenario of the claim: the name [<script>alert(1)</script>] is in the
    document in its escaped form, and the document has no [<script] at all. *)
Example script_name_is_escaped :
  index 0 "&lt;script&gt;alert(1)&lt;/script&gt;"
        (Sample.rendered Sample.hostile "Vault") <> None
  /\ index 0 "<script" (Sample.rendered Sample.hostile "Vault") = None.
Proof. vm_compute. split; [discriminate | reflexivity]. Qed.

(** ** The pipeline and the engine *)

Lemma render_html_missing (R : Runtime) (H : Host) (accounts : list account)
      (title : string) (st : state) :
  path_exists (fst st) TEMPLATE_PATH = false ->
  render_html accounts title st
  = (Raise (FileNotFoundError ("Missing HTML template: " ++ path_str TEMPLATE_PATH)),
     (fst st, (snd st ++ [EvExists TEMPLATE_PATH false])%list)).
Proof.
  destruct st as [w tr]. simpl. intros Hm.
  unfold render_html, mbind, sys_exists, query, raise, log. simpl. rewrite Hm. reflexivity.
Qed.

(** C8.  When the template does not exist [render_html] raises the
    missing-file error after the one existence check; and [build_pdf], run
    where the template is missing once the output directory is made, raises
    after calls that are neither a lookup of the browser nor a process: the
    style check, the directory, the resolution of the output path and the
    template check. *)
Theorem missing_template_aborts_before_the_engine
        (R : Runtime) (H : Host) (accounts : list account) (title : string)
        (output : path) (st : state) :
  (path_exists (fst st) TEMPLATE_PATH = false ->
   render_html accounts title st
   = (Raise (FileNotFoundError ("Missing HTML template: " ++ path_str TEMPLATE_PATH)),
      (fst st, (snd st ++ [EvExists TEMPLATE_PATH false])%list)))
  /\ (path_exists (snd (mkdir (fst st) (parent output))) TEMPLATE_PATH = false ->
      exists e w evs,
        build_pdf accounts title output st = (Raise e, (w, (snd st ++ evs)%list))
        /\ existsb engine_event evs = false
        /\ (path_exists (fst st) STYLE_PATH = true ->
            fst (mkdir (fst st) (parent output)) = Ok tt ->
            e = FileNotFoundError ("Missing HTML template: " ++ path_str TEMPLATE_PATH)
            /\ evs = [EvExists STYLE_PATH true; EvMkdir (parent output);
                      EvResolve output; EvExists TEMPLATE_PATH false])).
Proof.
  split; [apply render_html_missing|].
  destruct st as [w tr]. cbn [fst snd]. intros Hm.
  unfold build_pdf, mbind at 1, sys_exists at 1, query at 1, log, raise. cbn [fst snd].
  destruct (path_exists w STYLE_PATH) eqn:Hs; cbn [negb].
  - unfold mbind at 1, sys_mkdir, action. cbn [fst snd].
    destruct (mkdir w (parent output)) as [[[]|e] w1] eqn:Hmk; cbn [fst snd] in Hm.
    + unfold mbind at 1, sys_resolve, query, log. cbn [fst snd].
      unfold mbind at 1.
      rewrite render_html_missing by exact Hm. cbn [fst snd].
      eexists _, _, _. split.
      * rewrite <- !List.app_assoc. reflexivity.
      * split; [reflexivity|]. intros _ _. split; reflexivity.
    + eexists _, _, _. split.
      * rewrite <- !List.app_assoc. reflexivity.
      * split; [reflexivity|]. intros _ Hok. discriminate.
  - eexists _, _, _. split; [reflexivity|]. split; [reflexivity|]. discriminate.
Qed.

Lemma missing_template_aborts_before_the_engine_witness :
  exists e (w : @world Sample.app) (evs : list (@event Sample.app)),
    @build_pdf Reference.runtime Sample.app Sample.harmless "Vault" "/out/vault.pdf"
      (Sample.no_template, [])
    = (Raise e, (w, ([] ++ evs)%list))
    /\ existsb engine_event evs = false
    /\ (@path_exists Sample.app Sample.no_template "/app/styles/style.css" = true ->
        fst (@mkdir Sample.app Sample.no_template "/out") = Ok tt ->
        e = FileNotFoundError "Missing HTML template: /app/templates/layout.html"
        /\ evs = [@EvExists Sample.app "/app/styles/style.css" true; @EvMkdir Sample.app "/out";
                  @EvResolve Sample.app "/out/vault.pdf";
                  @EvExists Sample.app "/app/templates/layout.html" false]).
Proof.
  apply (proj2 (@missing_template_aborts_before_the_engine Reference.runtime Sample.app
                  Sample.harmless "Vault" "/out/vault.pdf" (Sample.no_template, []))).
  reflexivity.
Defined.

(** C5.  The invoker runs the [--headless=new] variant first; if it exits
    with status zero nothing else is run; otherwise the [--headless] variant
    is run, and its exit status decides: zero is success, anything else the
    [RuntimeError] whose message ends with the permissively decoded standard
    error of that last variant. *)
Theorem headless_variants_are_tried_in_order
        (R : Runtime) (H : Host) (browser html_path output : path)
        (w w1 : world) (tr : list event) (p1 : completed_process) :
  let new_variant :=
    [ path_str browser; "--headless=new"; "--disable-gpu";
      "--print-to-pdf=" ++ path_str output; "--print-to-pdf-no-header";
      as_uri html_path ] in
  let legacy_variant :=
    [ path_str browser; "--headless"; "--disable-gpu";
      "--print-to-pdf=" ++ path_str output; "--print-to-pdf-no-header";
      as_uri html_path ] in
  subprocess_run w new_variant = (Ok p1, w1) ->
  (returncode p1 = 0%Z ->
   run_headless_browser browser html_path output (w, tr)
   = (Ok tt, (w1, (tr ++ [EvRun new_variant])%list)))
  /\ (returncode p1 <> 0%Z ->
      forall (p2 : completed_process) (w2 : world),
        subprocess_run w1 legacy_variant = (Ok p2, w2) ->
        (returncode p2 = 0%Z ->
         run_headless_browser browser html_path output (w, tr)
         = (Ok tt, (w2, (tr ++ [EvRun new_variant; EvRun legacy_variant])%list)))
        /\ (returncode p2 <> 0%Z ->
            run_headless_browser browser html_path output (w, tr)
            = (Raise (RuntimeError
                        ("Headless browser failed to create the PDF. Output: "
                         ++ decode_ignore (stderr p2))),
               (w2, (tr ++ [EvRun new_variant; EvRun legacy_variant])%list)))).
Proof.
  intros new_variant legacy_variant Hrun1.
  assert (Hfirst : run_checked new_variant (w, tr)
                   = ((if (returncode p1 =? 0)%Z then Ok p1
                       else Raise (CalledProcessError (returncode p1) (stderr p1))),
                      (w1, (tr ++ [EvRun new_variant])%list))).
  { unfold run_checked, mbind, sys_run, action. cbn [fst snd]. rewrite Hrun1.
    now destruct (returncode p1 =? 0)%Z. }
  unfold run_headless_browser, commands. fold new_variant legacy_variant.
  cbn [try_commands]. rewrite Hfirst. split.
  - intros Hz. apply Z.eqb_eq in Hz. now rewrite Hz.
  - intros Hnz p2 w2 Hrun2. apply Z.eqb_neq in Hnz. rewrite Hnz.
    assert (Hsecond : run_checked legacy_variant (w1, (tr ++ [EvRun new_variant])%list)
                      = ((if (returncode p2 =? 0)%Z then Ok p2
                          else Raise (CalledProcessError (returncode p2) (stderr p2))),
                         (w2, (tr ++ [EvRun new_variant; EvRun legacy_variant])%list))).
    { unfold run_checked, mbind, sys_run, action. cbn [fst snd]. rewrite Hrun2.
      rewrite <- List.app_assoc. now destruct (returncode p2 =? 0)%Z. }
    rewrite Hsecond. split.
    + intros Hz. apply Z.eqb_eq in Hz. now rewrite Hz.
    + intros Hnz2. apply Z.eqb_neq in Hnz2. now rewrite Hnz2.
Qed.

Lemma headless_variants_are_tried_in_order_witness :
  @run_headless_browser Reference.runtime Sample.app
    "/usr/bin/chromium" "/out/vault.html" "/out/vault.pdf" (Sample.legacy_only, [])
  = (Ok tt,
     (Sample.legacy_only,
      [ @EvRun Sample.app ["/usr/bin/chromium"; "--headless=new"; "--disable-gpu";
               "--print-to-pdf=/out/vault.pdf"; "--print-to-pdf-no-header";
               "file:///out/vault.html"];
        @EvRun Sample.app ["/usr/bin/chromium"; "--headless"; "--disable-gpu";
               "--print-to-pdf=/out/vault.pdf"; "--print-to-pdf-no-header";
               "file:///out/vault.html"] ])).
Proof.
  pose proof (@headless_variants_are_tried_in_order Reference.runtime Sample.app
                "/usr/bin/chromium" "/out/vault.html" "/out/vault.pdf"
                Sample.legacy_only Sample.legacy_only []
                {| returncode := 1; stdout := []; stderr := Sample.noise |}
                eq_refl) as [_ Hfallback].
  assert (Hnz : (1 <> 0)%Z) by discriminate.
  destruct (Hfallback Hnz {| returncode := 0; stdout := []; stderr := [] |}
              Sample.legacy_only eq_refl) as [Hok _].
  exact (Hok eq_refl).
Defined.

(** When both variants fail the error carries what the legacy variant wrote,
    without the byte that is not UTF-8. *)
Example both_variants_fail :
  @run_headless_browser Reference.runtime Sample.app
    "/usr/bin/chromium" "/out/vault.html" "/out/vault.pdf" (Sample.no_engine, [])
  = (Raise (RuntimeError "Headless browser failed to create the PDF. Output: boom"),
     (Sample.no_engine,
      [ @EvRun Sample.app ["/usr/bin/chromium"; "--headless=new"; "--disable-gpu";
               "--print-to-pdf=/out/vault.pdf"; "--print-to-pdf-no-header";
               "file:///out/vault.html"];
        @EvRun Sample.app ["/usr/bin/chromium"; "--headless"; "--disable-gpu";
               "--print-to-pdf=/out/vault.pdf"; "--print-to-pdf-no-header";
               "file:///out/vault.html"] ])).
Proof. reflexivity. Qed.

(** ** The engine locator *)

Module LocatorFacts.

Section Reads.
Context `{Runtime} `{Host}.

Lemma reads_ret {A} (a : A) : reads (ret a) (fun _ => Ok a).
Proof. intros w tr. exists []. now rewrite List.app_nil_r. Qed.

Lemma reads_raise {A} (e : exn) : reads (@raise _ A e) (fun _ => Raise e).
Proof. intros w tr. exists []. now rewrite List.app_nil_r. Qed.

Lemma reads_bind {A B} (c : M A) (k : A -> M B)
      (f : world -> result A) (g : A -> world -> result B) :
  reads c f -> (forall a, reads (k a) (g a)) ->
  reads (mbind c k) (fun w => bind (f w) (fun a => g a w)).
Proof.
  intros Hc Hk w tr. destruct (Hc w tr) as (evs & Hrun & Hq).
  unfold mbind. rewrite Hrun. destruct (f w) as [a|e]; simpl.
  - destruct (Hk a w (tr ++ evs)%list) as (evs' & Hrun' & Hq').
    exists (evs ++ evs')%list. rewrite Hrun', List.app_assoc. split; [reflexivity|].
    now rewrite existsb_app, Hq, Hq'.
  - now exists evs.
Qed.

Lemma reads_ext {A} (c : M A) (f f' : world -> result A) :
  reads c f -> (forall w, f w = f' w) -> reads c f'.
Proof.
  intros Hc Hf w tr. destruct (Hc w tr) as (evs & Hrun & Hq).
  exists evs. now rewrite <- Hf.
Qed.

Lemma reads_query {A} (f : world -> A) (e : A -> event) :
  (forall a, is_run (e a) = false) -> reads (query f e) (fun w => Ok (f w)).
Proof.
  intros He w tr. exists [e (f w)]. split; [reflexivity|].
  simpl. now rewrite He.
Qed.

Lemma reads_expanduser (p : path) :
  reads (sys_expanduser p)
        (fun w => match expanduser w p with
                  | Some q => Ok q
                  | None => Raise (RuntimeError "Could not determine home directory.")
                  end).
Proof. intros w tr. exists [EvExpandUser p]. split; reflexivity. Qed.

Lemma reads_exists (p : path) : reads (sys_exists p) (fun w => Ok (path_exists w p)).
Proof. apply reads_query. reflexivity. Qed.

(** [add_candidate] appends the path if it exists. *)
Lemma reads_add_path (candidates : list path) (p : path) :
  reads (add_candidate candidates (Some (inr p)))
        (fun w => Ok (candidates ++ filter (path_exists w) [p])%list).
Proof.
  unfold add_candidate.
  eapply reads_ext.
  - apply reads_bind; [apply reads_exists|]. intros ex. apply reads_ret.
  - intros w. simpl. unfold list_append.
    destruct (path_exists w p); [reflexivity | now rewrite List.app_nil_r].
Qed.

Lemma reads_add_str (candidates : list path) (s : string) :
  is_empty s = false ->
  reads (add_candidate candidates (Some (inl s)))
        (fun w => Ok (candidates ++ filter (path_exists w) [Path s])%list).
Proof.
  intros Hs. unfold add_candidate. rewrite Hs.
  eapply reads_ext.
  - apply reads_bind; [apply reads_exists|]. intros ex. apply reads_ret.
  - intros w. simpl. unfold list_append.
    destruct (path_exists w (Path s)); [reflexivity | now rewrite List.app_nil_r].
Qed.

(** A loop of [add_candidate] appends the paths that exist. *)
Lemma reads_fold_add {X} (step : list path -> X -> M (list path))
      (to_paths : X -> list path) (l : list X) (candidates : list path) :
  (forall cs x, In x l ->
                reads (step cs x)
                      (fun w => Ok (cs ++ filter (path_exists w) (to_paths x))%list)) ->
  reads (foldM step l candidates)
        (fun w => Ok (candidates ++ filter (path_exists w) (flat_map to_paths l))%list).
Proof.
  revert candidates. induction l as [|x l IH]; intros candidates Hstep.
  - eapply reads_ext; [apply reads_ret|]. intros w. simpl. now rewrite List.app_nil_r.
  - cbn [foldM]. eapply reads_ext.
    + apply reads_bind; [apply Hstep; now left|].
      intros cs. apply IH. intros cs' y Hy. apply Hstep. now right.
    + intros w. cbn [bind flat_map]. now rewrite filter_app, List.app_assoc.
Qed.

Lemma flat_map_single {X Y} (f : X -> Y) (l : list X) :
  flat_map (fun x => [f x]) l = map f l.
Proof. induction l as [|x l IH]; simpl; [reflexivity | now rewrite IH]. Qed.

Lemma reads_known_strings (l : list string) :
  forallb (fun s => negb (is_empty s)) l = true ->
  reads (foldM (fun candidates p => add_candidate candidates (Some (inl p))) l [])
        (fun w => Ok (filter (path_exists w) (map Path l))).
Proof.
  intros Hl. eapply reads_ext.
  - apply (@reads_fold_add _ _ (fun s => [Path s])).
    intros cs s Hs. apply reads_add_str.
    rewrite forallb_forall in Hl. specialize (Hl _ Hs). now destruct (is_empty s).
  - intros w. cbn [List.app]. now rewrite flat_map_single.
Qed.

Lemma reads_known_candidates (system : string) :
  reads (known_candidates system)
        (fun w =>
           Ok (filter (path_exists w)
                 (if String.eqb system "windows" then
                    flat_map (fun base => map (joinpath base) known_suffixes) (program_files w)
                  else if String.eqb system "darwin" then map Path mac_candidates
                  else map Path linux_candidates))).
Proof.
  unfold known_candidates.
  destruct (String.eqb system "windows"); [|destruct (String.eqb system "darwin")].
  - eapply reads_ext.
    + apply reads_bind; [apply reads_query; reflexivity|]. intros pf.
      apply reads_bind; [apply reads_query; reflexivity|]. intros pf86.
      apply reads_bind; [apply reads_query; reflexivity|]. intros lad.
      apply (@reads_fold_add _ _ (fun base => map (joinpath base) known_suffixes)).
      intros cs base _. eapply reads_ext.
      * apply (@reads_fold_add _ _ (fun suffix => [joinpath base suffix])).
        intros cs' suffix _. apply reads_add_path.
      * intros w. now rewrite flat_map_single.
    + intros w. reflexivity.
  - now apply reads_known_strings.
  - now apply reads_known_strings.
Qed.

Lemma reads_mapM {X Y} (f : X -> M Y) (g : world -> X -> Y) (l : list X) :
  (forall x, reads (f x) (fun w => Ok (g w x))) ->
  reads (mapM_host f l) (fun w => Ok (map (g w) l)).
Proof.
  intros Hf. induction l as [|x l IH]; cbn [mapM_host].
  - exact (reads_ret (@nil Y)).
  - eapply reads_ext.
    + apply reads_bind; [apply Hf|]. intros y.
      apply reads_bind; [apply IH|]. intros ys. apply reads_ret.
    + intros w. reflexivity.
Qed.

Lemma reads_first_existing (l : list path) :
  reads (first_existing l)
        (fun w => match find (path_exists w) l with
                  | Some p => Ok p
                  | None => Raise ENGINE_NOT_FOUND
                  end).
Proof.
  induction l as [|p l IH]; cbn [first_existing].
  - apply reads_raise.
  - eapply reads_ext.
    + apply reads_bind with (g := fun (ex : bool) w =>
                                    if ex then Ok p
                                    else match find (path_exists w) l with
                                         | Some p => Ok p
                                         | None => Raise ENGINE_NOT_FOUND
                                         end);
        [apply reads_exists|].
      intros [|]; [apply reads_ret | exact IH].
    + intros w. simpl. destruct (path_exists w p); reflexivity.
Qed.

Lemma find_filter_app {X} (p : X -> bool) (l l' : list X) :
  find p (filter p l ++ l') = find p (l ++ l').
Proof.
  induction l as [|x l IH]; [reflexivity|]. simpl.
  destruct (p x) eqn:Hx; simpl; [now rewrite Hx | exact IH].
Qed.

Lemma reads_search :
  reads (system <~ sys_system ;;
         candidates <~ known_candidates (lower system) ;;
         which_candidates <~ mapM_host sys_which which_names ;;
         first_existing (candidates ++ map Path (truthy_strings which_candidates))%list)
        search.
Proof.
  eapply reads_ext.
  - apply reads_bind; [apply reads_query; reflexivity|]. intros system.
    apply reads_bind; [apply reads_known_candidates|]. intros candidates.
    apply reads_bind;
      [apply (@reads_mapM _ _ sys_which (fun w n => which w n)); intros n;
       apply reads_query; reflexivity|].
    intros which_candidates. apply reads_first_existing.
  - intros w. cbn [bind]. unfold search, search_order, known_paths, which_paths.
    now rewrite find_filter_app.
Qed.

(** The locator only queries the host, and its result is [locate]. *)
Lemma reads_find_browser_binary : reads find_browser_binary locate.
Proof.
  unfold find_browser_binary. eapply reads_ext.
  - apply reads_bind with
      (g := fun env_browser w =>
              bind (match env_browser with
                    | None => Ok None
                    | Some s =>
                        if is_empty s then Ok None
                        else match expanduser w (Path s) with
                             | None => Raise (RuntimeError "Could not determine home directory.")
                             | Some q => Ok (if path_exists w q then Some q else None)
                             end
                    end)
                   (fun override => match override with
                                    | Some p => Ok p
                                    | None => search w
                                    end));
      [apply reads_query; reflexivity|].
    intros env_browser.
    apply reads_bind with
      (g := fun override w => match override with Some p => Ok p | None => search w end).
    + destruct env_browser as [s|]; [destruct (is_empty s)|]; try apply reads_ret.
      eapply reads_ext.
      * apply reads_bind; [apply reads_expanduser|]. intros q.
        apply reads_bind; [apply reads_exists|]. intros ex. apply reads_ret.
      * intros w. simpl. destruct (expanduser w (Path s)); reflexivity.
    + intros [p|]; [apply reads_ret | apply reads_search].
  - intros w. unfold locate, override_of. cbn [bind].
    destruct (environ_get w BROWSER_ENV_VAR) as [s|]; [|reflexivity].
    destruct (is_empty s); [reflexivity|].
    destruct (expanduser w (Path s)) as [q|]; [|reflexivity].
    cbn [bind]. destruct (path_exists w q); reflexivity.
Qed.

(** The search fails exactly when no candidate of the search order
    exists. *)
Lemma search_fails (w : world) :
  search w = Raise ENGINE_NOT_FOUND <->
  Forall (fun p => path_exists w p = false) (search_order w).
Proof.
  unfold search. split.
  - destruct (find (path_exists w) (search_order w)) eqn:Hf; [discriminate|].
    intros _. apply Forall_forall. intros p Hp. exact (find_none _ _ Hf p Hp).
  - intros Hall. destruct (find (path_exists w) (search_order w)) as [p|] eqn:Hf;
      [|reflexivity].
    apply find_some in Hf as [Hin Hex]. rewrite Forall_forall in Hall.
    rewrite (Hall _ Hin) in Hex. discriminate.
Qed.

(** What the search returns exists and is the first of the search order to
    do so. *)
Lemma search_first (w : world) (p : path) :
  search w = Ok p ->
  exists before rest,
    search_order w = (before ++ p :: rest)%list
    /\ path_exists w p = true
    /\ Forall (fun q => path_exists w q = false) before.
Proof.
  unfold search. generalize (search_order w). intros l.
  induction l as [|q l IH]; simpl; [discriminate|].
  destruct (path_exists w q) eqn:Hq.
  - intros [= <-]. exists [], l. repeat split; [exact Hq | constructor].
  - intros Hf. destruct (IH Hf) as (before & rest & -> & Hex & Hall).
    exists (q :: before), rest. repeat split; [exact Hex | now constructor].
Qed.

End Reads.

End LocatorFacts.

(** C6, at the two places where the locator leaves the protocol.  An
    override of the form [~user/...] whose user is unknown makes
    [Path.expanduser] raise, and the locator with it, although the search
    would have found the installed browser; and on Windows the three roots
    are visited in the order in which the set of their names is iterated,
    which is not fixed: two runs that differ in nothing else find different
    browsers. *)
Theorem locator_departs_from_the_search_protocol :
  (@find_browser_binary Reference.runtime Sample.app (Sample.ghost_override, [])
   = (Raise (RuntimeError "Could not determine home directory."),
      (Sample.ghost_override,
       [ @EvEnviron Sample.app "BITWARDEN_FORMATTER_BROWSER";
         @EvExpandUser Sample.app "~ghost/chrome" ]))
   /\ @search Reference.runtime Sample.app Sample.ghost_override = Ok "/usr/bin/chromium")
  /\ (fst (@find_browser_binary Reference.runtime (Sim.host "/app" (fun l => l))
             (Sample.two_engines, []))
      = Ok "C:/PF86/Google/Chrome/Application/chrome.exe"
      /\ fst (@find_browser_binary Reference.runtime (Sim.host "/app" (@rev (option string)))
                (Sample.two_engines, []))
         = Ok "C:/LAD/Microsoft/Edge/Application/msedge.exe").
Proof. vm_compute. repeat split. Qed.

(** Where the override can be expanded and the order of the roots is
    taken as the run gives it, the locator follows the protocol: it only
    queries the host and returns what [locate] says. *)
Lemma locator_follows_locate (R : Runtime) (H : Host) (w : world) (tr : list event) :
  exists evs,
    find_browser_binary (w, tr) = (locate w, (w, (tr ++ evs)%list))
    /\ existsb is_run evs = false.
Proof. apply LocatorFacts.reads_find_browser_binary. Qed.

(** ** The normalizer beyond well-formed exports *)

Module InvariantFacts.

Lemma collect_uris_kept (l : list pyval) : collect_uris l = Ok (kept_uris l).
Proof.
  induction l as [|uri l IH]; [reflexivity|].
  cbn [collect_uris kept_uris flat_map]. fold (kept_uris l).
  destruct uri as [| | | | | |d]; cbn; try exact IH.
  destruct (Py.assoc "uri" d) as [v|]; cbn; [|exact IH].
  destruct (Py.truthy v); cbn; [now rewrite IH | exact IH].
Qed.

Lemma kept_uris_truthy (l : list pyval) :
  Forall (fun v => Py.truthy v = true) (kept_uris l).
Proof.
  unfold kept_uris. apply Forall_flat_map. apply Forall_forall. intros uri _.
  destruct uri as [| | | | | |d]; try constructor.
  destruct (Py.assoc "uri" d) as [v|]; [|constructor].
  destruct (Py.truthy v) eqn:Hv; repeat constructor. exact Hv.
Qed.

Lemma or_truthy (v d : pyval) : Py.truthy d = true -> Py.truthy (Py.or_ v d) = true.
Proof. unfold Py.or_. destruct (Py.truthy v) eqn:Hv; auto. Qed.

Lemma or_not_none (v : pyval) (s : string) : Py.or_ v (VStr s) <> VNone.
Proof.
  unfold Py.or_. destruct (Py.truthy v) eqn:Hv; [|discriminate].
  intros ->. discriminate.
Qed.

Lemma type_label (v : pyval) (t : string) :
  type_names_get v "Unknown" = Ok t -> In t TYPE_LABELS.
Proof.
  unfold type_names_get. destruct (Py.hashable v); [|discriminate].
  intros [= <-]. cbn [find TYPE_NAMES fst snd].
  repeat match goal with
         | |- context [if ?c then _ else _] => destruct c
         end; cbn; auto 6.
Qed.

Lemma key_eqb_str_l (i : string) (k : pyval) :
  Py.key_eqb (VStr i) k = true <-> k = VStr i.
Proof.
  destruct k; cbn; split; try discriminate; try congruence.
  - intros Hs. apply String.eqb_eq in Hs. now subst.
  - intros [= ->]. apply String.eqb_refl.
Qed.

Lemma key_eqb_str_r (i : string) (k : pyval) :
  Py.key_eqb k (VStr i) = true <-> k = VStr i.
Proof.
  destruct k as [|[]| | | | |]; cbn; split; try discriminate; try congruence.
  - intros Hs. apply String.eqb_eq in Hs. now subst.
  - intros [= ->]. apply String.eqb_refl.
Qed.

(** Storing under a key and looking up a string key. *)
Lemma lookup_set_str (d : Py.dict) (k v : pyval) (i : string) :
  Py.dict_lookup (Py.dict_set d k v) (VStr i)
  = if Py.key_eqb (VStr i) k then Some v else Py.dict_lookup d (VStr i).
Proof.
  induction d as [|[k0 v0] d IH]; cbn [Py.dict_set Py.dict_lookup].
  - destruct (Py.key_eqb (VStr i) k); reflexivity.
  - destruct (Py.key_eqb k k0) eqn:Hk0; cbn [Py.dict_lookup].
    + destruct (Py.key_eqb (VStr i) k) eqn:Hik.
      * apply key_eqb_str_l in Hik. subst k. now rewrite Hk0.
      * destruct (Py.key_eqb (VStr i) k0) eqn:Hik0; [|reflexivity].
        apply key_eqb_str_l in Hik0. subst k0.
        apply key_eqb_str_r in Hk0. subst k.
        rewrite (proj2 (key_eqb_str_l i (VStr i)) eq_refl) in Hik. discriminate.
    + rewrite IH. destruct (Py.key_eqb (VStr i) k) eqn:Hik; [|reflexivity].
      apply key_eqb_str_l in Hik. subst k.
      now rewrite Hk0.
Qed.

(** The mapping the comprehension builds, read at a string id. *)
Lemma build_folders_lookup (fl : list pyval) (acc d : Py.dict) (i : string) :
  build_folders fl acc = Ok d ->
  Py.dict_lookup d (VStr i) = folder_name_of i fl (Py.dict_lookup acc (VStr i)).
Proof.
  revert acc. induction fl as [|f fl IH]; intros acc Hb.
  - cbn in Hb. now injection Hb as <-.
  - cbn [build_folders] in Hb.
    destruct f as [| | | | | |fd]; try discriminate.
    cbn [Py.get Py.get_default bind] in Hb.
    destruct (Py.hashable _) eqn:Hh in Hb; [|discriminate].
    rewrite (IH _ Hb). cbn [folder_name_of]. f_equal.
    rewrite lookup_set_str.
    destruct (Py.assoc "id" fd) as [k|]; [|reflexivity].
    destruct k as [|[]| | |j| |]; reflexivity.
Qed.

Lemma folder_name_of_app (i : string) (a b : list pyval) (found : option pyval) :
  folder_name_of i (a ++ b) found = folder_name_of i b (folder_name_of i a found).
Proof.
  revert found. induction a as [|f a IH]; intros found; [reflexivity|].
  destruct f; cbn [app folder_name_of]; apply IH.
Qed.

Lemma folder_name_of_other (i : string) (fl : list pyval) (found : option pyval) :
  Forall (fun f => Py.get f "id" <> Ok (VStr i)) fl ->
  folder_name_of i fl found = found.
Proof.
  intros Hall. revert found.
  induction Hall as [|f fl Hf Hfl IH]; intros found; [reflexivity|].
  destruct f as [| | | | | |fd]; cbn [folder_name_of]; try apply IH.
  rewrite IH. cbn in Hf.
  destruct (Py.assoc "id" fd) as [[| | | |j| |]|]; try reflexivity.
  destruct (String.eqb_spec i j) as [->|]; [now contradiction Hf | reflexivity].
Qed.

(** The mapping resolves a string id to the name of the last folder that
    has it. *)
Lemma last_folder_lookup (before after : list pyval) (fd : list (string * pyval))
      (d : Py.dict) (i : string) :
  build_folders (before ++ VDict fd :: after) [] = Ok d ->
  Py.assoc "id" fd = Some (VStr i) ->
  Forall (fun f => Py.get f "id" <> Ok (VStr i)) after ->
  Py.dict_lookup d (VStr i)
  = Some (match Py.assoc "name" fd with Some n => n | None => VStr "" end).
Proof.
  intros Hb Hid Hafter.
  rewrite (@build_folders_lookup _ _ _ i Hb).
  rewrite folder_name_of_app. cbn [folder_name_of].
  rewrite Hid, String.eqb_refl.
  now apply folder_name_of_other.
Qed.

Section Records.
Context `{Runtime}.

Lemma account_of_item_complete (folders : Py.dict) (item : pyval) (acc : account) :
  account_of_item folders item = Ok acc -> complete acc.
Proof.
  intros Hacc. unfold account_of_item in Hacc.
  repeat (let x := fresh "x" in let E := fresh "E" in
          apply RowFacts.bind_ok in Hacc as (x & E & Hacc)).
  injection Hacc as <-. unfold complete.
  cbn [name folder type uris username password totp notes].
  repeat split; try apply or_truthy; try reflexivity; try apply or_not_none.
  - eapply type_label; eassumption.
  - match goal with
    | E : collect_uris ?l = Ok ?u |- _ =>
        rewrite collect_uris_kept in E; injection E as <-
    end.
    apply kept_uris_truthy.
Qed.

Lemma mapM_each {A B} (f : A -> result B) (l : list A) (ys : list B) :
  mapM f l = Ok ys ->
  List.length ys = List.length l
  /\ Forall (fun y => exists x, In x l /\ f x = Ok y) ys.
Proof.
  revert ys. induction l as [|x l IH]; intros ys Hm; cbn in Hm.
  - injection Hm as <-. split; constructor.
  - apply RowFacts.bind_ok in Hm as (y & Hy & Hm).
    apply RowFacts.bind_ok in Hm as (rest & Hrest & Hm). injection Hm as <-.
    destruct (IH _ Hrest) as [Hlen Hall]. split; [cbn; now rewrite Hlen|].
    constructor.
    + exists x. split; [now left | exact Hy].
    + apply (Forall_impl _ (P := fun y => exists x, In x l /\ f x = Ok y)); [|exact Hall].
      intros y' (x' & Hin & Hx'). exists x'. split; [now right | exact Hx'].
Qed.

Lemma or_text (v : pyval) (d : string) :
  str_or_falsy (Py.or_ v (VStr d)) = Schema.is_str (Py.or_ v (VStr d)).
Proof.
  unfold Py.or_, str_or_falsy. destruct (Py.truthy v) eqn:Hv; [|reflexivity].
  destruct v; try reflexivity; now rewrite Hv.
Qed.

Lemma account_of_item_text (folders : Py.dict) (item : pyval) (acc : account) :
  account_of_item folders item = Ok acc ->
  str_or_falsy (username acc) = Schema.is_str (username acc)
  /\ str_or_falsy (password acc) = Schema.is_str (password acc)
  /\ str_or_falsy (totp acc) = Schema.is_str (totp acc).
Proof.
  intros Hacc. unfold account_of_item in Hacc.
  repeat (let x := fresh "x" in let E := fresh "E" in
          apply RowFacts.bind_ok in Hacc as (x & E & Hacc)).
  injection Hacc as <-. cbn [username password totp].
  split; [|split]; apply or_text.
Qed.

(** The list [collect_accounts] returns: as many records as items, each
    built from an item and with a sort key. *)
Lemma collected_from_items (payload : pyval) (out : list account) :
  collect_accounts payload = Ok out ->
  exists items folders,
    (v <- Py.get_default payload "items" (VList []) ;; Py.iter v) = Ok items
    /\ List.length out = List.length items
    /\ Forall (fun e => (exists item, account_of_item folders item = Ok e)
                        /\ exists k, sort_key e = Ok k) out.
Proof.
  unfold collect_accounts, build_accounts, sort_accounts. intros Hc.
  apply RowFacts.bind_ok in Hc as (unsorted & Hbuild & Hsort).
  apply RowFacts.bind_ok in Hbuild as (fs0 & _ & Hbuild).
  apply RowFacts.bind_ok in Hbuild as (fs & _ & Hbuild).
  apply RowFacts.bind_ok in Hbuild as (folders & _ & Hbuild).
  apply RowFacts.bind_ok in Hbuild as (v & Hv & Hbuild).
  apply RowFacts.bind_ok in Hbuild as (items & Hitems & Hbuild).
  apply RowFacts.bind_ok in Hsort as (keyed & Hkeyed & Hout). injection Hout as <-.
  exists items, folders. split; [rewrite Hv; exact Hitems|].
  apply mapM_each in Hbuild as [Hlen Heach].
  destruct (CollectFacts.keyed_ok _ Hkeyed) as [Hmap Hkeys].
  pose proof (SortFacts.sort_perm key_ltb keyed) as Hperm.
  split.
  - rewrite length_map, <- (Permutation_length Hperm), <- Hlen, <- Hmap.
    now rewrite length_map.
  - apply Forall_map.
    apply (Permutation_Forall Hperm).
    rewrite <- Hmap in Heach.
    apply Forall_forall. intros ke Hin.
    rewrite Forall_forall in Heach, Hkeys.
    destruct (Heach _ (in_map snd _ _ Hin)) as (item & _ & Hitem).
    split; [now exists item | exists (fst ke); now apply Hkeys].
Qed.

End Records.

End InvariantFacts.

(** X1.  The list comprehension over the URIs of a login never raises,
    whatever the list holds: entries that are not objects are skipped, and
    of the objects exactly the truthy [uri] values are kept, in their
    order. *)
Theorem uris_are_the_truthy_uri_values (l : list pyval) :
  collect_uris l = Ok (kept_uris l)
  /\ Forall (fun v => Py.truthy v = true) (kept_uris l)
  /\ (forall l', kept_uris (l ++ l') = (kept_uris l ++ kept_uris l')%list)
  /\ (forall v, Py.isinstance_dict v = false -> kept_uris (v :: l) = kept_uris l).
Proof.
  split; [apply InvariantFacts.collect_uris_kept|].
  split; [apply InvariantFacts.kept_uris_truthy|]. split.
  - intros l'. unfold kept_uris. apply flat_map_app.
  - intros v Hv. destruct v; try reflexivity. discriminate.
Qed.

(** X2.  The loop over the custom fields raises [AttributeError] as soon as
    one entry of the list is not an object, also when all its other entries
    are; otherwise it returns one line [name: value] per field whose value
    is truthy, in order, the name replaced by [Field] when it is falsy. *)
Theorem custom_fields_drop_empty_values (R : Runtime) (l : list pyval) :
  collect_fields l =
  if forallb Py.isinstance_dict l then Ok (field_lines l) else Raise AttributeError.
Proof.
  induction l as [|field l IH]; [reflexivity|].
  cbn [collect_fields forallb field_lines flat_map]. fold (field_lines l).
  destruct field as [| | | | | |d]; try reflexivity.
  cbn [Py.isinstance_dict andb Py.get Py.get_default bind].
  fold (Schema.val (Py.assoc "name" d)) (Schema.val (Py.assoc "value" d)).
  rewrite IH.
  destruct (Py.truthy (Schema.val (Py.assoc "value" d))); cbn [negb];
    destruct (forallb Py.isinstance_dict l); reflexivity.
Qed.

(** X3.  [normalize_datetime] returns for every string and for every falsy
    value (zero, false, the empty list or object count as no date), and
    raises [AttributeError] for every other value: the handler around the
    parse only catches [ValueError]. *)
Theorem normalize_datetime_raises_on_other_types (R : Runtime) (v : pyval) :
  (str_or_falsy v = true -> exists s, normalize_datetime v = Ok s)
  /\ (Py.truthy v = false -> normalize_datetime v = Ok "")
  /\ (str_or_falsy v = false -> normalize_datetime v = Raise AttributeError).
Proof.
  unfold normalize_datetime, str_or_falsy.
  destruct (Py.truthy v) eqn:Ht; cbn [negb].
  - destruct v; (split; [|split]); intros Hv; try discriminate; try reflexivity.
    destruct (fromisoformat _); eexists; reflexivity.
  - (split; [|split]); intros Hv; [eexists; reflexivity | reflexivity |].
    destruct v; discriminate.
Qed.

(** X4.  When two folders of the export have the same string id, the name
    of the later one is the one the id resolves to: the mapping holds, for an
    id, the name of the last folder with that id (the empty name if that
    folder has none). *)
Theorem later_folder_with_same_id_wins
        (before after : list pyval) (fd : list (string * pyval)) (d : Py.dict)
        (i : string) :
  build_folders (before ++ VDict fd :: after) [] = Ok d ->
  Py.assoc "id" fd = Some (VStr i) ->
  Forall (fun f => Py.get f "id" <> Ok (VStr i)) after ->
  Py.dict_lookup d (VStr i)
  = Some (match Py.assoc "name" fd with Some n => n | None => VStr "" end).
Proof.
  apply InvariantFacts.last_folder_lookup.
Qed.

Lemma later_folder_with_same_id_wins_witness :
  Py.dict_lookup
    [(VStr "f1", VStr "New"); (VStr "f2", VStr "Other")] (VStr "f1")
  = Some (match Py.assoc "name" [("id", VStr "f1"); ("name", VStr "New")] with
          | Some n => n
          | None => VStr ""
          end).
Proof.
  apply (@later_folder_with_same_id_wins
           [VDict [("id", VStr "f1"); ("name", VStr "Old")]]
           [VDict [("id", VStr "f2"); ("name", VStr "Other")]]
           [("id", VStr "f1"); ("name", VStr "New")]
           [(VStr "f1", VStr "New"); (VStr "f2", VStr "Other")] "f1").
  - vm_compute. reflexivity.
  - reflexivity.
  - repeat constructor. cbn. discriminate.
Defined.

(** X5.  Whenever [collect_accounts] returns, its list has one record per
    item of the export, and every record has a non-empty text as name and
    as folder, one of the five type labels, only truthy URIs, and
    credentials, TOTP secret and notes that are never [None]. *)
Theorem collected_records_are_complete (R : Runtime) (payload : pyval)
        (out : list account) :
  collect_accounts payload = Ok out ->
  exists items,
    (v <- Py.get_default payload "items" (VList []) ;; Py.iter v) = Ok items
    /\ List.length out = List.length items
    /\ Forall (fun e =>
                 (exists n, name e = VStr n /\ n <> "")
                 /\ (exists f, folder e = VStr f /\ f <> "")
                 /\ In (type e) TYPE_LABELS
                 /\ Forall (fun u => Py.truthy u = true) (uris e)
                 /\ username e <> VNone /\ password e <> VNone
                 /\ totp e <> VNone /\ notes e <> VNone) out.
Proof.
  intros Hc.
  apply InvariantFacts.collected_from_items in Hc
    as (items & folders & Hitems & Hlen & Hall).
  exists items. split; [exact Hitems|]. split; [exact Hlen|].
  apply (Forall_impl _ (P := fun e => (exists item, account_of_item folders item = Ok e)
                                      /\ exists k, sort_key e = Ok k)); [|exact Hall].
  intros e [[item Hitem] [k Hk]].
  apply CollectFacts.sort_key_ok in Hk as (f & n & Hf & Hn & _).
  apply InvariantFacts.account_of_item_complete in Hitem as (Tn & Tf & Hrest).
  split; [exists n; split; [exact Hn|] |split; [exists f; split; [exact Hf|] | exact Hrest]].
  - rewrite Hn in Tn. intros ->. discriminate.
  - rewrite Hf in Tf. intros ->. discriminate.
Qed.

Lemma collected_records_are_complete_witness :
  exists items,
    (v <- Py.get_default Sample.export "items" (VList []) ;; Py.iter v) = Ok items
    /\ List.length Sample.normalized = List.length items
    /\ Forall (fun e =>
                 (exists n, name e = VStr n /\ n <> "")
                 /\ (exists f, folder e = VStr f /\ f <> "")
                 /\ In (type e) TYPE_LABELS
                 /\ Forall (fun u => Py.truthy u = true) (uris e)
                 /\ username e <> VNone /\ password e <> VNone
                 /\ totp e <> VNone /\ notes e <> VNone) Sample.normalized.
Proof.
  apply (@collected_records_are_complete Reference.runtime Sample.export Sample.normalized).
  vm_compute. reflexivity.
Defined.

(** X6.  An item is filed under the folder of its [folderId]: when the
    last folder of the export with that id has a name that is not empty, that
    name is the folder of the item's record. *)
Theorem item_is_filed_under_the_folder_of_its_id
        (R : Runtime) (before after : list pyval) (fd : list (string * pyval))
        (folders : Py.dict) (i : string) (n item : pyval) (acc : account) :
  build_folders (before ++ VDict fd :: after) [] = Ok folders ->
  Py.assoc "id" fd = Some (VStr i) ->
  Py.assoc "name" fd = Some n ->
  Py.truthy n = true ->
  Forall (fun f => Py.get f "id" <> Ok (VStr i)) after ->
  Py.get item "folderId" = Ok (VStr i) ->
  account_of_item folders item = Ok acc ->
  folder acc = n.
Proof.
  intros Hb Hid Hname Hn Hafter Hfid Hacc.
  pose proof (@InvariantFacts.last_folder_lookup before after fd folders i Hb Hid Hafter)
    as Hlook.
  rewrite Hname in Hlook.
  pose proof (NormalizerFacts.dict_get_found _ _ Hlook) as Hget. cbn [Py.hashable] in Hget.
  unfold account_of_item in Hacc.
  repeat (let x := fresh "x" in let E := fresh "E" in
          apply RowFacts.bind_ok in Hacc as (x & E & Hacc)).
  injection Hacc as <-. cbn [folder].
  match goal with
  | E1 : Py.get item "folderId" = Ok ?a, E2 : Py.dict_get folders ?a = Ok ?b |- _ =>
      rewrite Hfid in E1; injection E1 as <-; rewrite Hget in E2; injection E2 as <-
  end.
  unfold Py.or_. now rewrite Hn.
Qed.

Lemma item_is_filed_under_the_folder_of_its_id_witness :
  folder
    {| name := VStr "mail"; type := "Login"; folder := VStr "New"; favorite := false;
       username := VStr ""; password := VStr ""; totp := VStr ""; uris := [];
       notes := VStr ""; last_modified := ""; created := ""; fields := [] |}
  = VStr "New".
Proof.
  apply (@item_is_filed_under_the_folder_of_its_id Reference.runtime
           [VDict [("id", VStr "f1"); ("name", VStr "Old")]]
           [VDict [("id", VStr "f2"); ("name", VStr "Other")]]
           [("id", VStr "f1"); ("name", VStr "New")]
           [(VStr "f1", VStr "New"); (VStr "f2", VStr "Other")] "f1" (VStr "New")
           (VDict [("name", VStr "mail"); ("type", VInt 1); ("folderId", VStr "f1")])).
  - vm_compute. reflexivity.
  - reflexivity.
  - reflexivity.
  - reflexivity.
  - repeat constructor. cbn. discriminate.
  - reflexivity.
  - vm_compute. reflexivity.
Defined.

(** ** When a row can be rendered, and of what *)

Module RenderableFacts.

Lemma kind_of (v : pyval) : kind v.
Proof.
  destruct (Py.truthy v) eqn:Ht.
  - destruct v; try (apply IsOther; [exact Ht | unfold str_or_falsy; now rewrite Ht | reflexivity]).
    now eapply IsText.
  - apply IsFalsy; [exact Ht|]. unfold str_or_falsy. rewrite Ht. now destruct v.
Qed.

Lemma escape_or (v : pyval) (d : string) :
  exists x, escape (Py.or_ v (VStr d))
            = if str_or_falsy v then Ok x else Raise AttributeError.
Proof.
  unfold Py.or_.
  destruct (kind_of v) as [Ht Hs|s -> Ht|Ht Hs He]; rewrite Ht.
  - rewrite Hs. eexists; reflexivity.
  - eexists; reflexivity.
  - rewrite Hs, He. exists d; reflexivity.
Qed.

Lemma mapM_decided {A B} (f : A -> result B) (b : A -> bool) (l : list A) :
  (forall x, exists y, f x = if b x then Ok y else Raise AttributeError) ->
  exists ys, mapM f l = if forallb b l then Ok ys else Raise AttributeError.
Proof.
  intros Hf. induction l as [|x l [ys IH]]; [now exists []|].
  cbn [mapM forallb]. destruct (Hf x) as [y ->].
  destruct (b x); cbn [bind andb]; [|now exists []].
  rewrite IH. destruct (forallb b l); cbn [bind]; [eexists; reflexivity | now exists []].
Qed.

Section R.
Context `{Runtime}.

Lemma render_meta_total (e : account) :
  exists m, render_meta e = if str_or_falsy (folder e) then Ok m else Raise AttributeError.
Proof.
  unfold render_meta.
  destruct (kind_of (folder e)) as [Ht Hs|s Hf Ht|Ht Hs He]; rewrite Ht.
  - rewrite Hs. cbn. destruct (negb (is_empty (type e))); cbn; eexists; reflexivity.
  - rewrite Hf. cbn. destruct (negb (lower s =? "no folder")); cbn;
      destruct (negb (is_empty (type e))); cbn; eexists; reflexivity.
  - rewrite Hs. exists "". destruct (folder e); try reflexivity. discriminate.
Qed.

Lemma render_credentials_extra_total (e : account) :
  exists x, render_credentials_extra e
            = if match uris e with [] => true | u :: _ => Schema.is_str u end
                 && str_or_falsy (totp e)
              then Ok x else Raise AttributeError.
Proof.
  unfold render_credentials_extra.
  assert (Htotp : forall bits, exists x,
             (bits0 <- (if Py.truthy (totp e)
                        then t <- escape (totp e) ;; Ok (list_append bits (totp_html t))
                        else Ok bits) ;; Ok (String.concat nl bits0))
             = if str_or_falsy (totp e) then Ok x else Raise AttributeError).
  { intros bits.
    destruct (kind_of (totp e)) as [Ht Hs|s Hf Ht|Ht Hs He]; rewrite Ht.
    - rewrite Hs. eexists; reflexivity.
    - rewrite Hf. eexists; reflexivity.
    - rewrite Hs, He. exists ""; reflexivity. }
  destruct (uris e) as [|u us].
  - cbn [bind andb]. apply Htotp.
  - destruct u; cbn [escape bind Schema.is_str andb]; try (exists ""; reflexivity).
    apply Htotp.
Qed.

Lemma build_row_decided (e : account) :
  exists r, build_row e = if renderable e then Ok r else Raise AttributeError.
Proof.
  unfold renderable, build_row, render_credentials_section.
  destruct (escape_or (name e) "(untitled)") as [n ->].
  destruct (render_meta_total e) as [m ->].
  destruct (escape_or (username e) "-") as [u ->].
  destruct (escape_or (password e) "-") as [p ->].
  destruct (render_credentials_extra_total e) as [x ->].
  destruct (str_or_falsy (name e)), (str_or_falsy (folder e)),
    (str_or_falsy (username e)), (str_or_falsy (password e)),
    (str_or_falsy (totp e)), (match uris e with [] => true | u0 :: _ => Schema.is_str u0 end);
    cbn; first [exists EmptyString; reflexivity | eexists; reflexivity].
Qed.

Lemma build_row_shown (e : account) : build_row (shown e) = build_row e.
Proof.
  unfold build_row, render_meta, render_credentials_section, render_credentials_extra.
  cbn [shown name type folder favorite username password totp uris].
  destruct (uris e); reflexivity.
Qed.

Lemma mapM_shown (a : list account) :
  mapM build_row (map shown a) = mapM build_row a.
Proof.
  induction a as [|e a IH]; [reflexivity|].
  cbn [map mapM]. now rewrite build_row_shown, IH.
Qed.

Lemma build_rows_shown (a a' : list account) :
  map shown a = map shown a' -> build_rows a = build_rows a'.
Proof.
  intros Hs. unfold build_rows.
  now rewrite <- (mapM_shown a), <- (mapM_shown a'), Hs.
Qed.

End R.
End RenderableFacts.

(** X7.  A row is rendered exactly when the values it shows are texts
    wherever they are used: name, folder, username, password and TOTP secret
    each a string or falsy, the first URI a string.  In every other case
    [build_row] raises [AttributeError]; nothing else is ever raised. *)
Theorem rows_render_exactly_when_fields_are_text (R : Runtime) (e : account) :
  (renderable e = true -> exists r, build_row e = Ok r)
  /\ (renderable e = false -> build_row e = Raise AttributeError).
Proof.
  destruct (RenderableFacts.build_row_decided e) as [r ->].
  destruct (renderable e); split; intros Hr; try discriminate;
    [now exists r | reflexivity].
Qed.

(** X8.  The notes, the two dates, the custom fields and every URI after
    the first never reach the document: two account lists that agree on the
    shown part of their records are rendered to the same document, by the
    same host calls. *)
Theorem unshown_fields_never_reach_the_document
        (R : Runtime) (H : Host) (a a' : list account) (title : string) (st : state) :
  map shown a = map shown a' ->
  build_rows a = build_rows a'
  /\ render_html a title st = render_html a' title st.
Proof.
  intros Hs.
  pose proof (RenderableFacts.build_rows_shown _ _ Hs) as Hrows.
  split; [exact Hrows|].
  unfold render_html, replacements. rewrite Hrows.
  assert (Hlen : List.length a = List.length a')
    by (rewrite <- (length_map shown a), Hs; apply length_map).
  now rewrite Hlen.
Qed.

Lemma unshown_fields_never_reach_the_document_witness :
  @build_rows Reference.runtime
    [ {| name := VStr "n"; type := "Login"; folder := VStr "f"; favorite := false;
         username := VStr "u"; password := VStr "pw"; totp := VStr "";
         uris := [VStr "https://example.org/?a=1&b=2"; VStr "https://other.example"];
         notes := VStr "private note";
         last_modified := "05/01/2023 12:00 PM"; created := "";
         fields := ["pin: 1234"] |} ]
  = @build_rows Reference.runtime Sample.harmless
  /\ @render_html Reference.runtime Sample.app
       [ {| name := VStr "n"; type := "Login"; folder := VStr "f"; favorite := false;
            username := VStr "u"; password := VStr "pw"; totp := VStr "";
            uris := [VStr "https://example.org/?a=1&b=2"; VStr "https://other.example"];
            notes := VStr "private note";
            last_modified := "05/01/2023 12:00 PM"; created := "";
            fields := ["pin: 1234"] |} ] "Vault" (Sample.bare, [])
     = @render_html Reference.runtime Sample.app Sample.harmless "Vault" (Sample.bare, []).
Proof.
  apply (@unshown_fields_never_reach_the_document Reference.runtime Sample.app).
  reflexivity.
Defined.

(** X9.  A folder whose name is [no folder] in any letter case gets no
    folder tag: its records are tagged like those of no folder at all. *)
Theorem folder_named_like_the_sentinel_is_hidden
        (R : Runtime) (e : account) (s : string) :
  lower s = "no folder" ->
  render_meta (set_folder e (VStr s)) = render_meta (set_folder e (VStr "")).
Proof.
  intros Hs. unfold render_meta. cbn [set_folder folder type favorite].
  cbn [Py.truthy py_lower bind]. rewrite Hs.
  destruct (negb (is_empty s)); reflexivity.
Qed.

Lemma folder_named_like_the_sentinel_is_hidden_witness :
  @render_meta Reference.runtime (set_folder (Sample.entry "n" "f" "u") (VStr "NO Folder"))
  = @render_meta Reference.runtime (set_folder (Sample.entry "n" "f" "u") (VStr "")).
Proof.
  apply (@folder_named_like_the_sentinel_is_hidden Reference.runtime).
  vm_compute. reflexivity.
Defined.

(** X10.  What the normalizer returns is rendered unless a credential is
    not a text: for the account list of any export, [build_rows] returns
    when username, password, TOTP secret and first URI of every record are
    strings, and raises [AttributeError] otherwise.  A number as password
    passes the normalizer and stops the renderer. *)
Theorem normalized_accounts_render_unless_a_credential_is_no_text
        (R : Runtime) (payload : pyval) (out : list account) :
  collect_accounts payload = Ok out ->
  (forallb credentials_are_text out = true -> exists rows, build_rows out = Ok rows)
  /\ (forallb credentials_are_text out = false -> build_rows out = Raise AttributeError).
Proof.
  intros Hc.
  apply InvariantFacts.collected_from_items in Hc
    as (items & folders & _ & _ & Hall).
  assert (Hsame : forallb renderable out = forallb credentials_are_text out).
  { induction Hall as [|e out [[item Hitem] [k Hk]] Hout IH]; [reflexivity|].
    cbn [forallb]. rewrite IH. f_equal.
    apply CollectFacts.sort_key_ok in Hk as (f & n & Hf & Hn & _).
    apply InvariantFacts.account_of_item_text in Hitem as (Hu & Hp & Ht).
    unfold renderable, credentials_are_text.
    rewrite Hu, Hp, Ht, Hf, Hn. reflexivity. }
  unfold build_rows.
  destruct (@RenderableFacts.mapM_decided _ _ build_row renderable out
              RenderableFacts.build_row_decided) as [parts ->].
  rewrite Hsame.
  destruct (forallb credentials_are_text out); split; intros Hr; try discriminate;
    [eexists; reflexivity | reflexivity].
Qed.

Lemma normalized_accounts_render_unless_a_credential_is_no_text_witness :
  (forallb credentials_are_text Sample.normalized = true ->
   exists rows, @build_rows Reference.runtime Sample.normalized = Ok rows)
  /\ (forallb credentials_are_text Sample.normalized = false ->
      @build_rows Reference.runtime Sample.normalized = Raise AttributeError).
Proof.
  apply (@normalized_accounts_render_unless_a_credential_is_no_text
           Reference.runtime Sample.export Sample.normalized).
  vm_compute. reflexivity.
Defined.

(** ** The engine locator, seen from its caller *)

(** X11.  A browser the locator returns exists on the host, and the locator
    has changed nothing; it is the expanded override, or the first candidate
    of the search order that exists. *)
Theorem the_browser_returned_exists
        (R : Runtime) (H : Host) (w : world) (tr : list event) (p : path) (st' : state) :
  find_browser_binary (w, tr) = (Ok p, st') ->
  path_exists w p = true
  /\ fst st' = w
  /\ ((exists q, override_of w = Some q /\ expanduser w q = Some p)
      \/ (exists before rest,
            search_order w = (before ++ p :: rest)%list
            /\ Forall (fun q => path_exists w q = false) before)).
Proof.
  intros Hfind.
  destruct (LocatorFacts.reads_find_browser_binary w tr) as (evs & Hrun & _).
  rewrite Hrun in Hfind. injection Hfind as Hloc <-. cbn [fst].
  assert (Hsearch : search w = Ok p ->
                    path_exists w p = true
                    /\ exists before rest,
                         search_order w = (before ++ p :: rest)%list
                         /\ Forall (fun q => path_exists w q = false) before).
  { intros Hs. apply LocatorFacts.search_first in Hs as (before & rest & Ho & Hex & Hb).
    split; [exact Hex|]. now exists before, rest. }
  unfold locate in Hloc.
  destruct (override_of w) as [q0|] eqn:Ho.
  - destruct (expanduser w q0) as [q|] eqn:Hq; [|discriminate].
    destruct (path_exists w q) eqn:Hex.
    + injection Hloc as <-. split; [exact Hex|]. split; [reflexivity|].
      left. now exists q0.
    + destruct (Hsearch Hloc) as [Hp Hrest]. now repeat split; [| right].
  - destruct (Hsearch Hloc) as [Hp Hrest]. now repeat split; [| right].
Qed.

Lemma the_browser_returned_exists_witness :
  @path_exists Sample.app Sample.no_template "/usr/bin/chromium" = true
  /\ fst (snd (@find_browser_binary Reference.runtime Sample.app (Sample.no_template, [])))
     = Sample.no_template
  /\ ((exists q, @override_of Sample.app Sample.no_template = Some q
                 /\ @expanduser Sample.app Sample.no_template q = Some "/usr/bin/chromium")
      \/ (exists before rest,
            @search_order Reference.runtime Sample.app Sample.no_template
            = (before ++ "/usr/bin/chromium" :: rest)%list
            /\ Forall (fun q => @path_exists Sample.app Sample.no_template q = false) before)).
Proof.
  apply (@the_browser_returned_exists Reference.runtime Sample.app Sample.no_template []
           "/usr/bin/chromium"
           (snd (@find_browser_binary Reference.runtime Sample.app (Sample.no_template, [])))).
  vm_compute. reflexivity.
Defined.

(** X12.  An override that is set, not empty, and expands to something that
    exists is returned after three host calls: the platform is not asked,
    no known location is probed and nothing is looked up on the search
    path. *)
Theorem existing_override_is_returned_at_once
        (R : Runtime) (H : Host) (w : world) (tr : list event) (s : string) (q : path) :
  environ_get w BROWSER_ENV_VAR = Some s ->
  is_empty s = false ->
  expanduser w (Path s) = Some q ->
  path_exists w q = true ->
  find_browser_binary (w, tr)
  = (Ok q, (w, (tr ++ [EvEnviron BROWSER_ENV_VAR; EvExpandUser (Path s);
                       EvExists q true])%list)).
Proof.
  intros He Hs Hq Hex.
  unfold find_browser_binary, mbind, sys_environ_get, sys_expanduser, sys_exists,
    query, log, ret. cbn [fst snd].
  rewrite He, Hs. cbn [fst snd]. rewrite Hq. cbn [fst snd]. rewrite Hex.
  now rewrite <- !List.app_assoc.
Qed.

Lemma existing_override_is_returned_at_once_witness :
  @find_browser_binary Reference.runtime Sample.app (Scene.overridden, [])
  = (Ok "/opt/browser",
     (Scene.overridden,
      ([] ++ [@EvEnviron Sample.app "BITWARDEN_FORMATTER_BROWSER";
              @EvExpandUser Sample.app "/opt/browser";
              @EvExists Sample.app "/opt/browser" true])%list)).
Proof.
  apply (@existing_override_is_returned_at_once Reference.runtime Sample.app
           Scene.overridden [] "/opt/browser" "/opt/browser"); reflexivity.
Defined.

(** X13.  The locator reports that no browser was found only when no
    candidate of the search order exists; and without an override it reports
    it whenever none exists. *)
Theorem no_browser_is_reported_when_no_candidate_exists
        (R : Runtime) (H : Host) (w : world) (tr : list event) :
  (fst (find_browser_binary (w, tr)) = Raise ENGINE_NOT_FOUND ->
   Forall (fun p => path_exists w p = false) (search_order w))
  /\ (override_of w = None ->
      Forall (fun p => path_exists w p = false) (search_order w) ->
      fst (find_browser_binary (w, tr)) = Raise ENGINE_NOT_FOUND).
Proof.
  destruct (LocatorFacts.reads_find_browser_binary w tr) as (evs & -> & _).
  cbn [fst]. unfold locate. split.
  - intros Hloc. apply LocatorFacts.search_fails.
    destruct (override_of w) as [q0|]; [|exact Hloc].
    destruct (expanduser w q0) as [q|]; [|discriminate].
    destruct (path_exists w q); [discriminate | exact Hloc].
  - intros -> Hall. now apply LocatorFacts.search_fails.
Qed.

(** ** The pipeline, step by step *)

Module PipelineFacts.

Section Steps.
Context `{Runtime} `{Host}.

(** [render_html] only reads: the world stays, the calls are the template
    check, the clock and the read, and the result does not depend on what
    was called before. *)
Lemma render_html_run (accounts : list account) (title : string) (w : world) :
  exists evs,
    forallb render_event evs = true
    /\ List.length evs <= 3
    /\ forall tr, render_html accounts title (w, tr)
                  = (fst (render_html accounts title (w, [])), (w, (tr ++ evs)%list)).
Proof.
  unfold render_html, mbind, sys_exists, sys_now, sys_read_text, query, lift, ret,
    raise, log; cbn [fst snd].
  destruct (path_exists w TEMPLATE_PATH); cbn [negb fst snd].
  - destruct (build_rows accounts) as [rows|e]; cbn [fst snd].
    + exists [EvExists TEMPLATE_PATH true; EvNow; EvRead TEMPLATE_PATH].
      split; [reflexivity|]. split; [cbn; lia|]. intros tr.
      destruct (read_text w TEMPLATE_PATH); cbn [fst snd];
        now rewrite <- !List.app_assoc.
    + exists [EvExists TEMPLATE_PATH true; EvNow].
      split; [reflexivity|]. split; [cbn; lia|]. intros tr.
      now rewrite <- !List.app_assoc.
  - exists [EvExists TEMPLATE_PATH false].
    split; [reflexivity|]. split; [cbn; lia|]. reflexivity.
Qed.

(** A command list that ends well ends with the run of one of its
    commands, after runs only. *)
Lemma try_commands_ok (cmds : list (list string)) (last_error : option (list Byte.byte))
      (st st' : state) :
  try_commands cmds last_error st = (Ok tt, st') ->
  exists failed cmd,
    snd st' = (snd st ++ failed ++ [EvRun cmd])%list
    /\ In cmd cmds
    /\ forallb is_run failed = true.
Proof.
  revert last_error st. induction cmds as [|cmd rest IH]; intros last_error st Hrun;
    [discriminate|].
  cbn [try_commands] in Hrun.
  destruct st as [w tr].
  unfold run_checked, mbind, sys_run, action, ret, raise in Hrun. cbn [fst snd] in Hrun.
  destruct (subprocess_run w cmd) as [[r|e] w1].
  - destruct (returncode r =? 0)%Z.
    + injection Hrun as <-. exists [], cmd. cbn. auto.
    + apply IH in Hrun as (failed & cmd' & Htr & Hin & Hf). cbn [snd] in Htr.
      exists (EvRun cmd :: failed), cmd'. rewrite Htr, <- !List.app_assoc.
      cbn. auto.
  - destruct e; try discriminate.
    apply IH in Hrun as (failed & cmd' & Htr & Hin & Hf). cbn [snd] in Htr.
    exists (EvRun cmd :: failed), cmd'. rewrite Htr, <- !List.app_assoc.
    cbn. auto.
Qed.

(** Without the stylesheet nothing is done after the one check. *)
Lemma build_pdf_no_style (accounts : list account) (title : string)
      (output : path) (w : world) (tr : list event) :
  path_exists w STYLE_PATH = false ->
  build_pdf accounts title output (w, tr)
  = (Raise (FileNotFoundError ("Missing CSS file: " ++ path_str STYLE_PATH)),
     (w, (tr ++ [EvExists STYLE_PATH false])%list)).
Proof.
  intros Hs. unfold build_pdf, mbind, sys_exists, query, log, raise. cbn [fst snd].
  now rewrite Hs.
Qed.

End Steps.

End PipelineFacts.

(** X14.  When the browser cannot be started, the error of the host is the
    error of the invoker: raised by the first variant it ends the run at
    once, the legacy variant is not tried; raised by the legacy variant after
    the first exited with a failure, it replaces the report of that
    failure. *)
Theorem launch_errors_are_not_retried
        (R : Runtime) (H : Host) (browser html_path output : path)
        (w w1 : world) (tr : list event) (e : exn) :
  let new_variant :=
    [ path_str browser; "--headless=new"; "--disable-gpu";
      "--print-to-pdf=" ++ path_str output; "--print-to-pdf-no-header";
      as_uri html_path ] in
  let legacy_variant :=
    [ path_str browser; "--headless"; "--disable-gpu";
      "--print-to-pdf=" ++ path_str output; "--print-to-pdf-no-header";
      as_uri html_path ] in
  (forall rc err, e <> CalledProcessError rc err) ->
  (subprocess_run w new_variant = (Raise e, w1) ->
   run_headless_browser browser html_path output (w, tr)
   = (Raise e, (w1, (tr ++ [EvRun new_variant])%list)))
  /\ (forall (p1 : completed_process) (w2 : world),
        subprocess_run w new_variant = (Ok p1, w1) ->
        returncode p1 <> 0%Z ->
        subprocess_run w1 legacy_variant = (Raise e, w2) ->
        run_headless_browser browser html_path output (w, tr)
        = (Raise e, (w2, (tr ++ [EvRun new_variant; EvRun legacy_variant])%list))).
Proof.
  intros new_variant legacy_variant He.
  unfold run_headless_browser, commands. fold new_variant legacy_variant.
  cbn [try_commands]. unfold run_checked, mbind, sys_run, action, ret, raise.
  cbn [fst snd]. split.
  - intros ->. destruct e as [| | |m|m|m|rc err]; try reflexivity. now contradiction (He rc err).
  - intros p1 w2 -> Hnz Hrun2. apply Z.eqb_neq in Hnz. rewrite Hnz.
    cbn [fst snd]. rewrite Hrun2. rewrite <- List.app_assoc.
    destruct e as [| | |m|m|m|rc err]; try reflexivity. now contradiction (He rc err).
Qed.

Lemma launch_errors_are_not_retried_witness :
  @run_headless_browser Reference.runtime Sample.app
    "/usr/bin/chromium" "/out/vault.html" "/out/vault.pdf" (Scene.blocked, [])
  = (Raise (OSError "Permission denied"),
     (Scene.blocked,
      ([] ++ [ @EvRun Sample.app ["/usr/bin/chromium"; "--headless=new"; "--disable-gpu";
                       "--print-to-pdf=/out/vault.pdf"; "--print-to-pdf-no-header";
                       "file:///out/vault.html"] ])%list)).
Proof.
  refine (proj1 (@launch_errors_are_not_retried Reference.runtime Sample.app
                   "/usr/bin/chromium" "/out/vault.html" "/out/vault.pdf"
                   Scene.blocked Scene.blocked [] (OSError "Permission denied") _) _).
  - intros rc err. discriminate.
  - reflexivity.
Defined.

(** X15.  Without the stylesheet [build_pdf] raises the missing-file error
    after the one existence check: no directory is made, nothing is
    rendered or written, no browser is looked for. *)
Theorem missing_stylesheet_aborts_at_once
        (R : Runtime) (H : Host) (accounts : list account) (title : string)
        (output : path) (w : world) (tr : list event) :
  path_exists w STYLE_PATH = false ->
  build_pdf accounts title output (w, tr)
  = (Raise (FileNotFoundError ("Missing CSS file: " ++ path_str STYLE_PATH)),
     (w, (tr ++ [EvExists STYLE_PATH false])%list)).
Proof.
  apply PipelineFacts.build_pdf_no_style.
Qed.

Lemma missing_stylesheet_aborts_at_once_witness :
  @build_pdf Reference.runtime Sample.app Sample.harmless "Vault" "/out/vault.pdf"
    (Scene.no_style, [])
  = (Raise (FileNotFoundError ("Missing CSS file: " ++ "/app/styles/style.css")),
     (Scene.no_style, ([] ++ [@EvExists Sample.app "/app/styles/style.css" false])%list)).
Proof.
  apply (@missing_stylesheet_aborts_at_once Reference.runtime Sample.app
           Sample.harmless "Vault" "/out/vault.pdf" Scene.no_style []).
  reflexivity.
Defined.

(** X16.  [render_html] only reads: whatever it returns or raises, the world
    is as before, it has made at most three calls (the template check, the
    clock, the read of the template), and its result does not depend on the
    calls made before it. *)
Theorem rendering_only_reads
        (R : Runtime) (H : Host) (accounts : list account) (title : string)
        (w : world) (tr : list event) :
  exists evs,
    snd (render_html accounts title (w, tr)) = (w, (tr ++ evs)%list)
    /\ forallb render_event evs = true
    /\ List.length evs <= 3
    /\ fst (render_html accounts title (w, tr))
       = fst (render_html accounts title (w, [])).
Proof.
  destruct (PipelineFacts.render_html_run accounts title w) as (evs & Hev & Hlen & Hrun).
  exists evs. rewrite (Hrun tr). cbn [fst snd]. auto.
Qed.

(** X17.  The document is written before a browser is looked for, and it
    stays: when the stylesheet exists, the directory is made, the document
    is rendered, the resolved output path has a name (so that its suffix can
    be changed) and the document is written, and no browser can be located,
    [build_pdf] raises the error of the locator in the world in which the
    HTML file next to the PDF path has been written; no process was
    started. *)
Theorem html_file_stays_when_no_browser_is_found
        (R : Runtime) (H : Host) (accounts : list account) (title : string)
        (output : path) (w w1 w2 : world) (tr : list event) (doc : string) (e : exn) :
  path_exists w STYLE_PATH = true ->
  mkdir w (parent output) = (Ok tt, w1) ->
  fst (render_html accounts title (w1, [])) = Ok doc ->
  is_empty (path_name (path_resolve w1 output)) = false ->
  write_text w1 (with_suffix (path_resolve w1 output) ".html") doc = (Ok tt, w2) ->
  locate w2 = Raise e ->
  exists before after,
    build_pdf accounts title output (w, tr)
    = (Raise e,
       (w2, (tr ++ before
                ++ EvWrite (with_suffix (path_resolve w1 output) ".html") doc
                :: after)%list))
    /\ existsb engine_event before = false
    /\ existsb is_run after = false.
Proof.
  intros Hs Hmk Hdoc Hname Hwr Hloc.
  destruct (PipelineFacts.render_html_run accounts title w1) as (evs & Hev & _ & Hrun).
  unfold build_pdf, mbind at 1, sys_exists at 1, query at 1, log. cbn [fst snd].
  rewrite Hs. cbn [negb].
  unfold mbind at 1, sys_mkdir, action. cbn [fst snd]. rewrite Hmk.
  unfold mbind at 1, sys_resolve, query, log. cbn [fst snd].
  unfold mbind at 1. rewrite Hrun, Hdoc.
  unfold mbind at 1, lift, py_with_suffix. rewrite Hname.
  unfold mbind at 1, sys_write_text, action. cbn [fst snd]. rewrite Hwr.
  unfold mbind.
  match goal with
  | |- context [find_browser_binary (w2, ?t)] =>
      destruct (LocatorFacts.reads_find_browser_binary w2 t) as (after & -> & Hafter)
  end.
  rewrite Hloc.
  exists ([EvExists STYLE_PATH true; EvMkdir (parent output); EvResolve output] ++ evs)%list,
    after.
  split; [|split; [|exact Hafter]].
  - now rewrite <- !List.app_assoc.
  - rewrite existsb_app. cbn [existsb engine_event orb].
    clear - Hev. induction evs as [|ev evs IH]; [reflexivity|].
    cbn [forallb] in Hev. apply andb_true_iff in Hev as [He Hev].
    cbn [existsb]. rewrite (IH Hev). now destruct ev.
Qed.

Lemma html_file_stays_when_no_browser_is_found_witness :
  exists before after,
    @build_pdf Reference.runtime Sample.app Sample.harmless "Vault" "/out/vault.pdf"
      (Sample.bare, [])
    = (Raise ENGINE_NOT_FOUND,
       (Sim.put (Sim.put Sample.bare "/out" "") "/out/vault.html"
                (Sample.rendered Sample.harmless "Vault"),
        ([] ++ before
            ++ @EvWrite Sample.app
                 (@with_suffix Sample.app
                    (@path_resolve Sample.app (Sim.put Sample.bare "/out" "") "/out/vault.pdf")
                    ".html")
                 (Sample.rendered Sample.harmless "Vault")
            :: after)%list))
    /\ existsb engine_event before = false
    /\ existsb is_run after = false.
Proof.
  apply (@html_file_stays_when_no_browser_is_found Reference.runtime Sample.app
           Sample.harmless "Vault" "/out/vault.pdf" Sample.bare
           (Sim.put Sample.bare "/out" "")
           (Sim.put (Sim.put Sample.bare "/out" "") "/out/vault.html"
                    (Sample.rendered Sample.harmless "Vault"))
           [] (Sample.rendered Sample.harmless "Vault") ENGINE_NOT_FOUND);
    vm_compute; reflexivity.
Defined.

(** X18.  A PDF that was created was printed from the document that was
    written: when [build_pdf] returns, the HTML file next to the resolved
    output path was written with the rendered document before any call of
    the locator, the browser is the one located in the world after that
    write, and the last call is the run of one of the two command variants
    for that browser, that HTML file and that output path. *)
Theorem a_created_pdf_is_printed_from_the_written_document
        (R : Runtime) (H : Host) (accounts : list account) (title : string)
        (output : path) (w : world) (tr : list event) (st' : state) :
  build_pdf accounts title output (w, tr) = (Ok tt, st') ->
  exists w1 w2 doc browser cmd before between,
    mkdir w (parent output) = (Ok tt, w1)
    /\ fst (render_html accounts title (w1, [])) = Ok doc
    /\ write_text w1 (with_suffix (path_resolve w1 output) ".html") doc = (Ok tt, w2)
    /\ locate w2 = Ok browser
    /\ In cmd (commands browser (with_suffix (path_resolve w1 output) ".html")
                        (path_resolve w1 output))
    /\ snd st' = (tr ++ before
                     ++ EvWrite (with_suffix (path_resolve w1 output) ".html") doc
                     :: between ++ [EvRun cmd])%list
    /\ existsb engine_event before = false.
Proof.
  intros Hrun.
  unfold build_pdf, mbind at 1, sys_exists at 1, query at 1, log, raise in Hrun.
  cbn [fst snd] in Hrun.
  destruct (path_exists w STYLE_PATH) eqn:Hs; cbn [negb] in Hrun; [|discriminate].
  unfold mbind at 1, sys_mkdir, action in Hrun. cbn [fst snd] in Hrun.
  destruct (mkdir w (parent output)) as [[[]|e] w1] eqn:Hmk; [|discriminate].
  unfold mbind at 1, sys_resolve, query, log in Hrun. cbn [fst snd] in Hrun.
  destruct (PipelineFacts.render_html_run accounts title w1) as (evs & Hev & _ & Hrender).
  unfold mbind at 1 in Hrun. rewrite Hrender in Hrun.
  destruct (fst (render_html accounts title (w1, []))) as [doc|e] eqn:Hdoc; [|discriminate].
  unfold mbind at 1, lift, py_with_suffix in Hrun.
  destruct (is_empty (path_name (path_resolve w1 output))); [discriminate|].
  unfold mbind at 1, sys_write_text, action in Hrun. cbn [fst snd] in Hrun.
  destruct (write_text w1 (with_suffix (path_resolve w1 output) ".html") doc)
    as [[[]|e] w2] eqn:Hwr; [|discriminate].
  unfold mbind in Hrun.
  match type of Hrun with
  | context [find_browser_binary (w2, ?t)] =>
      destruct (LocatorFacts.reads_find_browser_binary w2 t) as (after & Hfind & Hafter)
  end.
  rewrite Hfind in Hrun.
  destruct (locate w2) as [browser|e] eqn:Hloc; [|discriminate].
  unfold run_headless_browser in Hrun.
  apply PipelineFacts.try_commands_ok in Hrun as (failed & cmd & Htr & Hin & _).
  cbn [snd] in Htr.
  exists w1, w2, doc, browser, cmd,
    ([EvExists STYLE_PATH true; EvMkdir (parent output); EvResolve output] ++ evs)%list,
    (after ++ failed)%list.
  repeat (split; [reflexivity || assumption|]).
  split.
  - rewrite Htr. now rewrite <- !List.app_assoc.
  - rewrite existsb_app. cbn [existsb engine_event orb].
    clear - Hev. induction evs as [|ev evs IH]; [reflexivity|].
    cbn [forallb] in Hev. apply andb_true_iff in Hev as [He Hev].
    cbn [existsb]. rewrite (IH Hev). now destruct ev.
Qed.

Lemma a_created_pdf_is_printed_from_the_written_document_witness :
  exists (w1 w2 : @world Sample.app) doc browser cmd
         (before between : list (@event Sample.app)),
    @mkdir Sample.app Scene.working (@parent Sample.app "/out/vault.pdf") = (Ok tt, w1)
    /\ fst (@render_html Reference.runtime Sample.app Sample.harmless "Vault" (w1, [])) = Ok doc
    /\ @write_text Sample.app w1
         (@with_suffix Sample.app (@path_resolve Sample.app w1 "/out/vault.pdf") ".html") doc
       = (Ok tt, w2)
    /\ @locate Reference.runtime Sample.app w2 = Ok browser
    /\ In cmd (@commands Sample.app browser
                 (@with_suffix Sample.app (@path_resolve Sample.app w1 "/out/vault.pdf") ".html")
                 (@path_resolve Sample.app w1 "/out/vault.pdf"))
    /\ snd (snd (@build_pdf Reference.runtime Sample.app Sample.harmless "Vault"
                   "/out/vault.pdf" (Scene.working, [])))
       = ([] ++ before
             ++ @EvWrite Sample.app
                  (@with_suffix Sample.app (@path_resolve Sample.app w1 "/out/vault.pdf") ".html")
                  doc
             :: between ++ [@EvRun Sample.app cmd])%list
    /\ existsb engine_event before = false.
Proof.
  apply (@a_created_pdf_is_printed_from_the_written_document Reference.runtime Sample.app
           Sample.harmless "Vault" "/out/vault.pdf" Scene.working []
           (snd (@build_pdf Reference.runtime Sample.app Sample.harmless "Vault"
                   "/out/vault.pdf" (Scene.working, [])))).
  vm_compute. reflexivity.
Defined.

(** ** The entry point *)

(** X19.  When the input file does not exist, [main] raises the
    missing-file error that names the expanded path, after the expansion
    and the one existence check: nothing is read, made or written.  This
    needs an output path: without the output argument it is the input path
    with another suffix, and for an input path without a name (the current
    directory, a root) [main] raises [ValueError] right after the expansion,
    before it looks whether the input exists. *)
Theorem missing_input_aborts_before_anything_is_read
        (R : Runtime) (H : Host) (json_loads : string -> result pyval)
        (input p : path) (output : option path) (title : string)
        (w : world) (tr : list event) :
  expanduser w input = Some p ->
  (forall out,
     resolve_output_path p output = Ok out ->
     path_exists w p = false ->
     main json_loads input output title (w, tr)
     = (Raise (FileNotFoundError ("Input file not found: " ++ path_str p)),
        (w, (tr ++ [EvExpandUser input; EvExists p false])%list)))
  /\ (output = None ->
      is_empty (path_name p) = true ->
      main json_loads input output title (w, tr)
      = (Raise ValueError, (w, (tr ++ [EvExpandUser input])%list)))
  /\ (resolve_output_path p output = Raise ValueError
      <-> output = None /\ is_empty (path_name p) = true).
Proof.
  intros Hp.
  assert (Hbad : output = None -> is_empty (path_name p) = true ->
                 resolve_output_path p output = Raise ValueError).
  { intros -> Hn. unfold resolve_output_path, py_with_suffix. now rewrite Hn. }
  split; [|split].
  - intros out Hout Hex.
    unfold main, mbind, sys_expanduser, sys_exists, query, lift, log, raise.
    cbn [fst snd]. rewrite Hp. cbn [fst snd]. rewrite Hout. cbn [fst snd].
    rewrite Hex. cbn [negb]. now rewrite <- !List.app_assoc.
  - intros Hnone Hn.
    unfold main, mbind, sys_expanduser, lift, log. cbn [fst snd].
    rewrite Hp. cbn [fst snd]. now rewrite (Hbad Hnone Hn).
  - split; [|intros [Hnone Hn]; now apply Hbad].
    unfold resolve_output_path, py_with_suffix.
    destruct output as [o|]; [discriminate|].
    destruct (is_empty (path_name p)); [now split | discriminate].
Qed.

Lemma missing_input_aborts_before_anything_is_read_witness :
  @main Reference.runtime Sample.app Scene.parser "~/missing.json" None "Vault"
    (Sample.bare, [])
  = (Raise (FileNotFoundError ("Input file not found: " ++ "/home/me/missing.json")),
     (Sample.bare,
      ([] ++ [@EvExpandUser Sample.app "~/missing.json";
              @EvExists Sample.app "/home/me/missing.json" false])%list))
  /\ @main Reference.runtime Sample.app Scene.parser "." None "Vault" (Sample.bare, [])
     = (Raise ValueError, (Sample.bare, ([] ++ [@EvExpandUser Sample.app "."])%list)).
Proof.
  split.
  - exact (proj1 (@missing_input_aborts_before_anything_is_read Reference.runtime
                    Sample.app Scene.parser "~/missing.json" "/home/me/missing.json"
                    None "Vault" Sample.bare [] eq_refl)
                 "/home/me/missing.pdf" eq_refl eq_refl).
  - exact (proj1 (proj2 (@missing_input_aborts_before_anything_is_read Reference.runtime
                           Sample.app Scene.parser "." "." None "Vault" Sample.bare []
                           eq_refl))
                 eq_refl eq_refl).
Defined.

(** With the output argument given the suffix is not needed: the current
    directory as input then gets as far as the existence check. *)
Example nameless_input_with_an_output_path :
  @main Reference.runtime Sample.app Scene.parser "." (Some "/out/vault.pdf") "Vault"
    (Sample.bare, [])
  = (Raise (FileNotFoundError "Input file not found: ."),
     (Sample.bare, [@EvExpandUser Sample.app "."; @EvExists Sample.app "." false])).
Proof. reflexivity. Qed.

(** X20.  An export that cannot be read, parsed or normalized stops [main]
    with the error of that step before anything is created: once there is
    an output path (the one given, or the input path with the suffix [.pdf],
    for which the input path must have a name), the calls are the expansion,
    the existence check and the read, and the world is as before. *)
Theorem unusable_export_creates_nothing
        (R : Runtime) (H : Host) (json_loads : string -> result pyval)
        (input p out : path) (output : option path) (title : string)
        (w : world) (tr : list event) (e : exn) :
  expanduser w input = Some p ->
  resolve_output_path p output = Ok out ->
  path_exists w p = true ->
  (text <- read_text w p ;; data <- json_loads text ;; collect_accounts data) = Raise e ->
  main json_loads input output title (w, tr)
  = (Raise e, (w, (tr ++ [EvExpandUser input; EvExists p true; EvRead p])%list)).
Proof.
  intros Hp Hout Hex Hbad.
  unfold main, load_export, mbind, sys_expanduser, sys_exists, sys_read_text,
    query, lift, log, raise. cbn [fst snd].
  rewrite Hp. cbn [fst snd]. rewrite Hout. cbn [fst snd]. rewrite Hex.
  cbn [negb fst snd].
  rewrite <- !List.app_assoc. cbn [app].
  destruct (read_text w p) as [text|e1]; cbn [bind] in Hbad;
    [|now injection Hbad as ->].
  destruct (json_loads text) as [data|e2]; cbn [bind] in Hbad;
    [|now injection Hbad as ->].
  now rewrite Hbad.
Qed.

Lemma unusable_export_creates_nothing_witness :
  @main Reference.runtime Sample.app Scene.parser "~/vault.json" None "Vault"
    (Scene.with_export, [])
  = (Raise AttributeError,
     (Scene.with_export,
      ([] ++ [@EvExpandUser Sample.app "~/vault.json";
              @EvExists Sample.app "/home/me/vault.json" true;
              @EvRead Sample.app "/home/me/vault.json"])%list)).
Proof.
  apply (@unusable_export_creates_nothing Reference.runtime Sample.app
           Scene.parser "~/vault.json" "/home/me/vault.json" "/home/me/vault.pdf"
           None "Vault" Scene.with_export [] AttributeError); reflexivity.
Defined.

(** X21.  [main] makes the directory of the output before [build_pdf]
    looks for the stylesheet: when the export is fine and the stylesheet is
    missing, the run ends with the missing-file error in the world in which
    that directory has been made.  The output path is the one given, or the
    expanded input path with the suffix [.pdf]. *)
Theorem output_directory_is_made_before_the_stylesheet_is_checked
        (R : Runtime) (H : Host) (json_loads : string -> result pyval)
        (input p out : path) (output : option path) (title : string)
        (w w1 : world) (tr : list event) (accounts : list account) :
  expanduser w input = Some p ->
  resolve_output_path p output = Ok out ->
  path_exists w p = true ->
  (text <- read_text w p ;; data <- json_loads text ;; collect_accounts data) = Ok accounts ->
  mkdir w (parent out) = (Ok tt, w1) ->
  path_exists w1 STYLE_PATH = false ->
  main json_loads input output title (w, tr)
  = (Raise (FileNotFoundError ("Missing CSS file: " ++ path_str STYLE_PATH)),
     (w1, (tr ++ [EvExpandUser input; EvExists p true; EvRead p;
                  EvMkdir (parent out); EvExists STYLE_PATH false])%list)).
Proof.
  intros Hp Hout Hex Hgood Hmk Hs.
  unfold main, load_export, mbind at 1, sys_expanduser. cbn [fst snd].
  rewrite Hp. unfold mbind at 1, lift at 1. rewrite Hout.
  unfold mbind at 1, sys_exists at 1, query at 1, log. cbn [fst snd].
  rewrite Hex. cbn [negb].
  unfold mbind at 1, mbind at 1, sys_read_text, lift, log. cbn [fst snd].
  destruct (read_text w p) as [text|e1]; cbn [bind] in Hgood; [|discriminate].
  destruct (json_loads text) as [data|e2]; cbn [bind] in Hgood; [|discriminate].
  unfold mbind at 1, lift. rewrite Hgood.
  unfold mbind at 1, sys_mkdir, action. cbn [fst snd]. rewrite Hmk.
  unfold mbind at 1.
  rewrite PipelineFacts.build_pdf_no_style by exact Hs.
  now rewrite <- !List.app_assoc.
Qed.

Lemma output_directory_is_made_before_the_stylesheet_is_checked_witness :
  @main Reference.runtime Sample.app Scene.parser "~/vault.json" None "Vault"
    (Scene.no_style, [])
  = (Raise (FileNotFoundError ("Missing CSS file: " ++ "/app/styles/style.css")),
     (Sim.put Scene.no_style "/home/me" "",
      ([] ++ [@EvExpandUser Sample.app "~/vault.json";
              @EvExists Sample.app "/home/me/vault.json" true;
              @EvRead Sample.app "/home/me/vault.json";
              @EvMkdir Sample.app (@parent Sample.app "/home/me/vault.pdf");
              @EvExists Sample.app "/app/styles/style.css" false])%list)).
Proof.
  apply (@output_directory_is_made_before_the_stylesheet_is_checked
           Reference.runtime Sample.app Scene.parser "~/vault.json" "/home/me/vault.json"
           "/home/me/vault.pdf" None "Vault" Scene.no_style
           (Sim.put Scene.no_style "/home/me" "") [] []);
    reflexivity.
Defined.
